(** * The inference session engine of bolt-llama-electron

    A shallow embedding of the class [LLMEngine] (the module llm-engine,
    lines 70 to 351 of src/renderer/stores/chatStore.ts) and of the load
    handler of [IPCHandler] (src/main/ipc-handlers.ts), with the properties
    of the specification stated over it.

    Modelling conventions.
    - A JavaScript string is the list of its UTF-16 code units
      ([jsstring]); [js] embeds an ASCII literal.
    - JavaScript numbers that are only passed along (sampling parameters,
      sizes) are rationals; lengths and counts are [nat]; clock readings
      are [Z].
    - A thrown value is represented by the message that
      [error instanceof Error ? error.message : String(error)] extracts.
    - The objects of node-llama-cpp are opaque: their types are variables
      and their behaviour is a [Runtime] record of oracles.
    - A method of the engine is a computation in the monad [Eng]: it reads
      and writes the fields of the engine, may throw, and records what it
      does to the outside (console, runtime calls, events yielded to the
      consumer of a stream) in a list of [Effect]s.
    - A method runs to its end without another method of the engine
      running in between, except for [cancel()], which may be called
      while a generation is suspended (at an [await] or at a [yield]):
      a generation takes, for each of its suspension points, whether
      [cancel()] was called there.  The readings of [Date.now()] are
      arguments.

    Around the engine, the development also embeds its callers in the
    main process (the handlers of [IPCHandler]), the file manager
    (watchers, listing of a directory, files and projects), and, of the
    renderer, the chat store, the project store, the file explorer and the
    submission of a prompt in the chat interface.
    - A [Map] is the list of its entries in the order of insertion
      ([StringMap]).
    - The file system is a world that the calls of [fs] take and give
      back ([NodeRuntime]); for the listing of a directory it is the tree
      of the entries that [fs.readdir] and [fs.stat] report.  What [fs]
      throws keeps its [code] next to its message ([JsError]).
    - [path.join], [localeCompare] and the keys that an object literal
      inherits are parameters. *)

From Stdlib Require Import String Ascii DecimalString.
From Stdlib Require Import List Bool Arith ZArith QArith Lia Permutation.
Import ListNotations.
Local Open Scope nat_scope.

Set Implicit Arguments.

(** ** Strings *)

Definition jsstring := list N.

Definition js (s : string) : jsstring :=
  map N_of_ascii (list_ascii_of_string s).

(** The line feed, [\n]. *)
Definition LF : N := 10%N.

Fixpoint jsstring_eqb (a b : jsstring) : bool :=
  match a, b with
  | [], [] => true
  | x :: a', y :: b' => N.eqb x y && jsstring_eqb a' b'
  | _, _ => false
  end.

(** [s.substring(i, j)] for [0 <= i <= j]: the code units of index
    [i] to [j - 1], cut at the end of [s]. *)
Definition substring (s : jsstring) (i j : nat) : jsstring :=
  firstn (j - i) (skipn i s).

(** Truthiness of a string: the empty string is falsy. *)
Definition truthy (s : jsstring) : bool :=
  match s with [] => false | _ :: _ => true end.

(** [a || b] on an optional string: [b] when [a] is undefined or empty. *)
Definition or_else (a : option jsstring) (b : jsstring) : jsstring :=
  match a with
  | Some s => if truthy s then s else b
  | None => b
  end.

(** [a ?? b]: [b] only when [a] is undefined. *)
Definition nullish {A : Type} (a : option A) (b : A) : A :=
  match a with Some x => x | None => b end.

(** [a ?? b] when [b] may itself be undefined. *)
Definition nullish_opt {A : Type} (a b : option A) : option A :=
  match a with Some x => Some x | None => b end.

(** Template-literal rendering of a non-negative integer and of an integer. *)
Definition show_nat (n : nat) : jsstring :=
  js (NilEmpty.string_of_uint (Nat.to_uint n)).

Definition show_Z (z : Z) : jsstring :=
  js (NilEmpty.string_of_int (Z.to_int z)).

(** ** Shared constants (constants.ts) *)

Module LLM_DEFAULTS.
Definition temperature : Q := 7 # 10.
Definition topP : Q := 9 # 10.
Definition topK : Q := 40 # 1.
Definition maxTokens : Q := 2048 # 1.
Definition contextSize : Q := 4096 # 1.
Definition gpuLayers : Q := 33 # 1.
End LLM_DEFAULTS.

Module SYSTEM_PROMPTS.
Definition codeGeneration : jsstring :=
  js "You are an expert web developer. When asked to generate code, provide clean, well-structured, and production-ready code. Include comments where necessary. Return only the code without any explanation unless specifically asked.".
End SYSTEM_PROMPTS.

(** ** Shared types (types.ts) *)

Record LLMEngineConfig := mkConfig {
  cfg_modelPath : jsstring;
  cfg_gpuLayers : option Q;
  cfg_contextSize : option Q;
  cfg_batchSize : option Q;
  cfg_temperature : option Q;
  cfg_topP : option Q;
  cfg_topK : option Q
}.

(** [Partial<LLMEngineConfig>]: [None] is an absent key; a present key of an
    optional field may still hold [undefined]. *)
Record PartialConfig := mkPartial {
  p_modelPath : option jsstring;
  p_gpuLayers : option (option Q);
  p_contextSize : option (option Q);
  p_batchSize : option (option Q);
  p_temperature : option (option Q);
  p_topP : option (option Q);
  p_topK : option (option Q)
}.

Record GenerationRequest := mkRequest {
  req_prompt : jsstring;
  req_context : option jsstring;
  req_model : option jsstring;
  req_temperature : option Q;
  req_maxTokens : option Q;
  req_systemPrompt : option jsstring
}.

Record GenerationResponse := mkResponse {
  code : jsstring;
  explanation : jsstring;
  tokens : nat;
  generationTime : Z
}.

(** [StreamMessage], as the tagged union its [type] field makes it, each
    tag with the fields [generateStream] fills in. *)
Inductive StreamMessage :=
| Start (prompt : jsstring)
| Chunk (data : jsstring)
| End (tokens : nat) (generationTime : Z) (totalLength : nat)
| Error (error : jsstring).

(** The options object handed to [session.prompt]. *)
Record PromptOptions := mkOptions {
  opt_temperature : option Q;
  opt_maxTokens : Q;
  opt_topP : option Q;
  opt_topK : option Q
}.

(** The response of the load handler. *)
Record LoadResponse := mkLoadResponse {
  success : bool;
  message : jsstring
}.

(** ** Results *)

Inductive Result (A : Type) :=
| Ok (a : A)
| Throw (msg : jsstring).

Arguments Ok {A} a.
Arguments Throw {A} msg.

(** ** Messages of the engine *)

Definition msg_not_initialized : jsstring :=
  js "LLM engine not initialized. Call initialize() first.".
Definition msg_still_loading : jsstring :=
  js "Model is still loading. Please wait.".
Definition msg_cancelled : jsstring :=
  js "Generation cancelled by user".
Definition msg_generation_failed (err : jsstring) : jsstring :=
  js "Generation failed: " ++ err.
Definition msg_initialize_failed (err : jsstring) : jsstring :=
  js "Failed to initialize LLM engine: " ++ err.

Section Engine.

(** The objects of node-llama-cpp. *)
Variables Llama LlamaModel LlamaContext LlamaChatSession : Type.

(** What the runtime answers.  [newChatSession c] stands for
    [new LlamaChatSession({contextSequence: c.getSequence()})];
    [prompt] returns the session as the call leaves it. *)
Record Runtime := mkRuntime {
  getLlama : Result Llama;
  loadModel : Llama -> jsstring -> option Q -> Result LlamaModel;
  createContext : LlamaModel -> option Q -> option Q -> Result LlamaContext;
  newChatSession : LlamaContext -> Result LlamaChatSession;
  contextDispose : LlamaContext -> Result unit;
  modelDispose : LlamaModel -> Result unit;
  prompt : LlamaChatSession -> jsstring -> PromptOptions ->
           LlamaChatSession * Result jsstring
}.

Inductive Effect :=
| console_log (msg : jsstring)
| console_error (msg err : jsstring)
| call_getLlama
| call_loadModel (modelPath : jsstring) (gpuLayers : option Q)
| call_createContext (m : LlamaModel) (maxTokens batchSize : option Q)
| call_newChatSession (c : LlamaContext)
| call_contextDispose (c : LlamaContext)
| call_modelDispose (m : LlamaModel)
| call_prompt (s : LlamaChatSession) (text : jsstring) (opts : PromptOptions)
| yield (m : StreamMessage).

(** ** The engine *)

Record LLMEngine := mkEngine {
  model : option LlamaModel;
  context : option LlamaContext;
  session : option LlamaChatSession;
  config : LLMEngineConfig;
  isLoading : bool;
  isCancelled : bool
}.

Definition set_model (v : option LlamaModel) (e : LLMEngine) : LLMEngine :=
  mkEngine v (context e) (session e) (config e) (isLoading e) (isCancelled e).
Definition set_context (v : option LlamaContext) (e : LLMEngine) : LLMEngine :=
  mkEngine (model e) v (session e) (config e) (isLoading e) (isCancelled e).
Definition set_session (v : option LlamaChatSession) (e : LLMEngine) : LLMEngine :=
  mkEngine (model e) (context e) v (config e) (isLoading e) (isCancelled e).
Definition set_config (v : LLMEngineConfig) (e : LLMEngine) : LLMEngine :=
  mkEngine (model e) (context e) (session e) v (isLoading e) (isCancelled e).
Definition set_isLoading (v : bool) (e : LLMEngine) : LLMEngine :=
  mkEngine (model e) (context e) (session e) (config e) v (isCancelled e).
Definition set_isCancelled (v : bool) (e : LLMEngine) : LLMEngine :=
  mkEngine (model e) (context e) (session e) (config e) (isLoading e) v.

(** The constructor, lines 87 to 97; [defaultPath] is the path it computes
    from the environment when none is configured. *)
Definition new_LLMEngine (defaultPath : jsstring) (c : PartialConfig) : LLMEngine :=
  mkEngine None None None
    (mkConfig
       (or_else (p_modelPath c) defaultPath)
       (Some (nullish (nullish (p_gpuLayers c) None) LLM_DEFAULTS.gpuLayers))
       (Some (nullish (nullish (p_contextSize c) None) LLM_DEFAULTS.contextSize))
       (Some (nullish (nullish (p_batchSize c) None) (512 # 1)))
       (Some (nullish (nullish (p_temperature c) None) LLM_DEFAULTS.temperature))
       (Some (nullish (nullish (p_topP c) None) LLM_DEFAULTS.topP))
       (Some (nullish (nullish (p_topK c) None) LLM_DEFAULTS.topK)))
    false false.

(** ** The monad of engine methods *)

Record Outcome (A : Type) := mkOutcome {
  result : Result A;
  engine : LLMEngine;
  effects : list Effect
}.

Definition Eng (A : Type) : Type := LLMEngine -> Outcome A.

Definition ret {A} (a : A) : Eng A :=
  fun e => mkOutcome (Ok a) e [].

Definition throw {A} (msg : jsstring) : Eng A :=
  fun e => mkOutcome (Throw msg) e [].

Definition bind {A B} (m : Eng A) (f : A -> Eng B) : Eng B :=
  fun e =>
    match m e with
    | mkOutcome (Ok a) e1 l1 =>
        match f a e1 with
        | mkOutcome r e2 l2 => mkOutcome r e2 (l1 ++ l2)
        end
    | mkOutcome (Throw msg) e1 l1 => mkOutcome (Throw msg) e1 l1
    end.

(** [try { m } catch (error) { h error }]. *)
Definition try_catch {A} (m : Eng A) (h : jsstring -> Eng A) : Eng A :=
  fun e =>
    match m e with
    | mkOutcome (Ok a) e1 l1 => mkOutcome (Ok a) e1 l1
    | mkOutcome (Throw msg) e1 l1 =>
        match h msg e1 with
        | mkOutcome r e2 l2 => mkOutcome r e2 (l1 ++ l2)
        end
    end.

Definition gets {A} (f : LLMEngine -> A) : Eng A :=
  fun e => mkOutcome (Ok (f e)) e [].

Definition modify (f : LLMEngine -> LLMEngine) : Eng unit :=
  fun e => mkOutcome (Ok tt) (f e) [].

Definition emit (x : Effect) : Eng unit :=
  fun e => mkOutcome (Ok tt) e [x].

(** An awaited call to the runtime: recorded, then it returns or throws. *)
Definition await {A} (x : Effect) (r : Result A) : Eng A :=
  fun e => mkOutcome r e [x].

Declare Scope eng_scope.
Delimit Scope eng_scope with eng.
Notation "x <- m ;; k" := (bind m (fun x => k))
  (at level 61, m at next level, right associativity) : eng_scope.
Notation "m ;; k" := (bind m (fun _ => k))
  (at level 61, right associativity) : eng_scope.
Local Open Scope eng_scope.

(** ** Model lifecycle *)

(** [initialize()], lines 102 to 134. *)
Definition initialize (rt : Runtime) : Eng unit :=
  try_catch
    (m <- gets model ;;
     match m with
     | Some _ => emit (console_log (js "Model already loaded"))
     | None =>
         modify (set_isLoading true) ;;
         cfg <- gets config ;;
         emit (console_log (js "Loading model from: " ++ cfg_modelPath cfg)) ;;
         llama <- await call_getLlama (getLlama rt) ;;
         md <- await (call_loadModel (cfg_modelPath cfg) (cfg_gpuLayers cfg))
                     (loadModel rt llama (cfg_modelPath cfg) (cfg_gpuLayers cfg)) ;;
         modify (set_model (Some md)) ;;
         ctx <- await (call_createContext md (cfg_contextSize cfg) (cfg_batchSize cfg))
                      (createContext rt md (cfg_contextSize cfg) (cfg_batchSize cfg)) ;;
         modify (set_context (Some ctx)) ;;
         s <- await (call_newChatSession ctx) (newChatSession rt ctx) ;;
         modify (set_session (Some s)) ;;
         modify (set_isLoading false) ;;
         emit (console_log (js "LLM engine initialized successfully"))
     end)
    (fun err =>
       modify (set_isLoading false) ;;
       emit (console_error (js "Failed to initialize LLM engine:") err) ;;
       throw (msg_initialize_failed err)).

(** [unload()], lines 300 to 315. *)
Definition unload (rt : Runtime) : Eng unit :=
  try_catch
    (c <- gets context ;;
     match c with
     | Some ctx =>
         await (call_contextDispose ctx) (contextDispose rt ctx) ;;
         modify (set_context None)
     | None => ret tt
     end ;;
     m <- gets model ;;
     match m with
     | Some md =>
         await (call_modelDispose md) (modelDispose rt md) ;;
         modify (set_model None)
     | None => ret tt
     end ;;
     modify (set_session None) ;;
     emit (console_log (js "LLM engine unloaded")))
    (fun err => emit (console_error (js "Error unloading LLM engine:") err)).

(** Nothing is loaded: no model, no context, no session. *)
Definition Unloaded (e : LLMEngine) : Prop :=
  model e = None /\ context e = None /\ session e = None.

(** [isModelLoaded()], lines 320 to 322. *)
Definition isModelLoaded (e : LLMEngine) : bool :=
  match model e, context e, session e with
  | Some _, Some _, Some _ => true
  | _, _, _ => false
  end.

(** [getConfig()]. *)
Definition getConfig (e : LLMEngine) : LLMEngineConfig := config e.

(** [{ ...c, ...p }]. *)
Definition merge_config (c : LLMEngineConfig) (p : PartialConfig) : LLMEngineConfig :=
  mkConfig
    (nullish (p_modelPath p) (cfg_modelPath c))
    (nullish (p_gpuLayers p) (cfg_gpuLayers c))
    (nullish (p_contextSize p) (cfg_contextSize c))
    (nullish (p_batchSize p) (cfg_batchSize c))
    (nullish (p_temperature p) (cfg_temperature c))
    (nullish (p_topP p) (cfg_topP c))
    (nullish (p_topK p) (cfg_topK c)).

(** [updateConfig(config)], lines 334 to 336. *)
Definition updateConfig (p : PartialConfig) : Eng unit :=
  modify (fun e => set_config (merge_config (config e) p) e).

(** [cancel()], lines 293 to 295. *)
Definition cancel : Eng unit :=
  modify (set_isCancelled true).

(** ** Code-fence extraction *)

(** The backtick. *)
Definition BACKTICK : N := 96%N.

Definition fence : jsstring := [BACKTICK; BACKTICK; BACKTICK].

(** [\w]: a letter, a digit or the underscore. *)
Definition is_word (c : N) : bool :=
  ((48 <=? c) && (c <=? 57) || (65 <=? c) && (c <=? 90) ||
   (c =? 95) || (97 <=? c) && (c <=? 122))%N.

Fixpoint starts_with (p s : jsstring) : bool :=
  match p, s with
  | [], _ => true
  | x :: p', y :: s' => N.eqb x y && starts_with p' s'
  | _ :: _, [] => false
  end.

Fixpoint skip_word (s : jsstring) : jsstring :=
  match s with
  | c :: s' => if is_word c then skip_word s' else s
  | [] => []
  end.

(** [([\s\S]*?)\n```] at the head of [s]: the lazy group takes the
    shortest prefix that a line feed and a fence follow. *)
Fixpoint lazy_body (s : jsstring) : option jsstring :=
  if starts_with (LF :: fence) s then Some []
  else match s with
       | [] => None
       | c :: s' => option_map (cons c) (lazy_body s')
       end.

(** The whole expression at the head of [s].  After the fence the greedy
    [(?:\w+)?] takes the longest run of word characters; giving some of
    them back cannot help, since the next character has to be a line
    feed, which is no word character. *)
Definition match_here (s : jsstring) : option jsstring :=
  if starts_with fence s then
    match skip_word (skipn 3 s) with
    | c :: body => if N.eqb c LF then lazy_body body else None
    | [] => None
    end
  else None.

(** [generatedCode.match(/```(?:\w+)?\n([\s\S]*?)\n```/)], reduced to its
    first group: the leftmost position where the expression matches. *)
Fixpoint codeMatch (s : jsstring) : option jsstring :=
  match match_here s with
  | Some body => Some body
  | None => match s with
            | [] => None
            | _ :: s' => codeMatch s'
            end
  end.

(** [code.split('\n').length]. *)
Definition count_lines (s : jsstring) : nat :=
  S (length (filter (N.eqb LF) s)).

(** [Math.ceil(n / 4)]. *)
Definition ceil_div4 (n : nat) : nat := (n + 3) / 4.

(** ** Generation *)

(** The prompt handed to the session. *)
Definition fullPrompt (request : GenerationRequest) : jsstring :=
  or_else (req_systemPrompt request) SYSTEM_PROMPTS.codeGeneration
    ++ [LF; LF] ++ js "User: " ++ req_prompt request.

(** The sampling options handed to the session. *)
Definition prompt_options (cfg : LLMEngineConfig) (request : GenerationRequest)
  : PromptOptions :=
  mkOptions
    (nullish_opt (req_temperature request) (cfg_temperature cfg))
    (nullish (req_maxTokens request) LLM_DEFAULTS.maxTokens)
    (cfg_topP cfg)
    (cfg_topK cfg).

(** [m], at whose suspension [cancel()] is called or not. *)
Definition suspended {A} (cancel_called : bool) (m : Eng A) : Eng A :=
  fun e =>
    match m e with
    | mkOutcome r e1 l =>
        mkOutcome r (if cancel_called then engine (cancel e1) else e1) l
    end.

(** [await this.session.prompt(text, opts)]. *)
Definition await_prompt (rt : Runtime) (text : jsstring) (opts : PromptOptions)
  : Eng jsstring :=
  fun e =>
    match session e with
    | Some s =>
        match prompt rt s text opts with
        | (s', r) => mkOutcome r (set_session (Some s') e) [call_prompt s text opts]
        end
    | None =>
        mkOutcome (Throw (js "Cannot read properties of null (reading 'prompt')")) e []
    end.

(** What [generate] returns for the response of the session. *)
Definition response_of (t0 t1 : Z) (generatedCode : jsstring) : GenerationResponse :=
  let tokenCount := ceil_div4 (length generatedCode) in
  let generationTime := (t1 - t0)%Z in
  let code := match codeMatch generatedCode with
              | Some inner => inner
              | None => generatedCode
              end in
  mkResponse code
    (js "Generated " ++ show_nat (count_lines code) ++ js " lines of code in "
       ++ show_Z generationTime ++ js "ms")
    tokenCount generationTime.

(** The guards of [generate], up to the reset of the cancellation flag. *)
Definition generate_accept : Eng unit :=
  s <- gets session ;;
  match s with
  | None => throw msg_not_initialized
  | Some _ =>
      l <- gets isLoading ;;
      if l then throw msg_still_loading
      else modify (set_isCancelled false)
  end.

(** [generate(request)], lines 139 to 193.  [cancel_called]: whether [cancel()] is called
    while the prompt is awaited; [t0], [t1]: the two clock readings. *)
Definition generate (rt : Runtime) (cancel_called : bool) (t0 t1 : Z)
    (request : GenerationRequest) : Eng GenerationResponse :=
  generate_accept ;;
  try_catch
    (cfg <- gets config ;;
     generatedCode <- suspended cancel_called
       (await_prompt rt (fullPrompt request) (prompt_options cfg request)) ;;
     ret (response_of t0 t1 generatedCode))
    (fun err =>
       c <- gets isCancelled ;;
       if c then throw msg_cancelled
       else
         emit (console_error (js "Generation failed:") err) ;;
         throw (msg_generation_failed err)).

Definition chunkSize : nat := 50.

(** The loop of [generateStream], lines 241 to 250, from index [i] on;
    the result tells whether it was left by [return].  [cancel_at k] tells whether
    [cancel()] is called at suspension point [k] of the generator: point 0
    is the [yield] of the start event, point 1 the awaited prompt, point
    [2 + n] the [yield] of chunk [n].  Every round advances [i], so
    [length generatedCode] rounds of [fuel] are never used up. *)
Fixpoint stream_loop (fuel : nat) (cancel_at : nat -> bool)
    (generatedCode : jsstring) (i : nat) : Eng bool :=
  match fuel with
  | 0 => ret false
  | S fuel' =>
      if i <? length generatedCode then
        c <- gets isCancelled ;;
        if c then
          emit (yield (Error msg_cancelled)) ;;
          ret true
        else
          suspended (cancel_at (2 + i / chunkSize))
            (emit (yield (Chunk (substring generatedCode i (i + chunkSize))))) ;;
          stream_loop fuel' cancel_at generatedCode (i + chunkSize)
      else ret false
  end.

(** The guards of [generateStream], up to the reset of the cancellation
    flag; the result tells whether the request was accepted. *)
Definition generateStream_accept : Eng bool :=
  s <- gets session ;;
  match s with
  | None =>
      emit (yield (Error msg_not_initialized)) ;;
      ret false
  | Some _ =>
      l <- gets isLoading ;;
      if l then
        emit (yield (Error msg_still_loading)) ;;
        ret false
      else
        modify (set_isCancelled false) ;;
        ret true
  end.

(** [generateStream(request)], lines 198 to 271, driven to its end by the
    consumer. *)
Definition generateStream (rt : Runtime) (cancel_at : nat -> bool) (t0 t1 : Z)
    (request : GenerationRequest) : Eng unit :=
  accepted <- generateStream_accept ;;
  if (accepted : bool) then
    try_catch
      (suspended (cancel_at 0) (emit (yield (Start (req_prompt request)))) ;;
       cfg <- gets config ;;
       generatedCode <- suspended (cancel_at 1)
         (await_prompt rt (fullPrompt request) (prompt_options cfg request)) ;;
       returned <- stream_loop (length generatedCode) cancel_at generatedCode 0 ;;
       if (returned : bool) then ret tt
       else
         emit (yield (End (ceil_div4 (length generatedCode)) (t1 - t0)
                          (length generatedCode))))
      (fun err =>
         c <- gets isCancelled ;;
         if c then ret tt
         else emit (yield (Error (msg_generation_failed err))))
  else ret tt.

(** ** Reading a run *)

(** The events a run yielded, in order. *)
Fixpoint events (l : list Effect) : list StreamMessage :=
  match l with
  | [] => []
  | yield m :: l' => m :: events l'
  | _ :: l' => events l'
  end.

(** The prompts a run handed to the session, in order. *)
Fixpoint prompts (l : list Effect) : list (jsstring * PromptOptions) :=
  match l with
  | [] => []
  | call_prompt _ text opts :: l' => (text, opts) :: prompts l'
  | _ :: l' => prompts l'
  end.

(** The number of rounds of the loop over a text of [len] code units. *)
Definition chunk_count (len : nat) : nat :=
  (len + (chunkSize - 1)) / chunkSize.

(** The fragment round [k] sends. *)
Definition nth_chunk (text : jsstring) (k : nat) : jsstring :=
  substring text (chunkSize * k) (chunkSize * k + chunkSize).

(** The chunk events of the rounds [k0], ..., [k0 + n - 1]. *)
Definition chunk_events (text : jsstring) (k0 n : nat) : list StreamMessage :=
  map (fun k => Chunk (nth_chunk text k)) (seq k0 n).

(** The cancellation flag as the check of round [k] reads it, in a
    generation that gets there: set when [cancel()] was called at one of
    the suspension points passed since the request was accepted. *)
Fixpoint flag_at (cancel_at : nat -> bool) (k : nat) : bool :=
  match k with
  | 0 => cancel_at 0 || cancel_at 1
  | S k' => flag_at cancel_at k' || cancel_at (2 + k')
  end.

(** The first round of the loop over [text] whose check reads the flag
    set, if there is one. *)
Definition first_seen (cancel_at : nat -> bool) (text : jsstring) : option nat :=
  find (flag_at cancel_at) (seq 0 (chunk_count (length text))).

(** ** Generations in flight *)

(** The engine keeps no record of the generations it has accepted and not
    yet finished; they live on as suspended activations of [generate] and
    [generateStream].  A [System] is the engine together with these. *)
Inductive Activation :=
| in_generate (t0 : Z) (request : GenerationRequest)
| in_generateStream (t0 : Z) (request : GenerationRequest).

Record System := mkSystem {
  sys_engine : LLMEngine;
  in_flight : list Activation
}.

(** Calling [generate(request)]: it throws at once, or it is suspended at
    its awaited prompt and from then on in flight. *)
Definition issue_generate (t0 : Z) (request : GenerationRequest) (sys : System)
  : System * Result unit :=
  match generate_accept (sys_engine sys) with
  | mkOutcome (Ok _) e1 _ =>
      (mkSystem e1 (in_flight sys ++ [in_generate t0 request]), Ok tt)
  | mkOutcome (Throw msg) e1 _ => (mkSystem e1 (in_flight sys), Throw msg)
  end.

(** Asking [generateStream(request)] for its first event: the error of a
    guard, after which the generator is finished, or the start event, at
    whose [yield] it is suspended and from then on in flight. *)
Definition issue_generateStream (t0 : Z) (request : GenerationRequest) (sys : System)
  : System * list StreamMessage :=
  match (accepted <- generateStream_accept ;;
         if (accepted : bool)
         then emit (yield (Start (req_prompt request))) ;; ret true
         else ret false) (sys_engine sys) with
  | mkOutcome (Ok true) e1 l =>
      (mkSystem e1 (in_flight sys ++ [in_generateStream t0 request]), events l)
  | mkOutcome _ e1 l => (mkSystem e1 (in_flight sys), events l)
  end.

(** [cancel()] while generations are in flight. *)
Definition issue_cancel (sys : System) : System :=
  mkSystem (engine (cancel (sys_engine sys))) (in_flight sys).

(** What a caller may do while generations are in flight, and a sequence
    of such calls, each made while the earlier ones are suspended. *)
Inductive Call :=
| do_generate (t0 : Z) (request : GenerationRequest)
| do_generateStream (t0 : Z) (request : GenerationRequest)
| do_cancel.

Definition is_generation (c : Call) : bool :=
  match c with
  | do_cancel => false
  | _ => true
  end.

Definition step (c : Call) (sys : System) : System :=
  match c with
  | do_generate t0 request => fst (issue_generate t0 request sys)
  | do_generateStream t0 request => fst (issue_generateStream t0 request sys)
  | do_cancel => issue_cancel sys
  end.

Definition run_calls (calls : list Call) (sys : System) : System :=
  fold_left (fun sys c => step c sys) calls sys.

(** ** The load handler *)

(** [IPCHandler.handleLoadModel(_event, modelPath)], lines 75 to 87 of
    ipc-handlers.ts, on the engine the handler holds. *)
Definition handleLoadModel (rt : Runtime) (modelPath : jsstring) : Eng LoadResponse :=
  try_catch
    (updateConfig (mkPartial (Some modelPath) None None None None None None) ;;
     initialize rt ;;
     ret (mkLoadResponse true (js "Model loaded successfully")))
    (fun err =>
       emit (console_error (js "Model loading error:") err) ;;
       ret (mkLoadResponse false (js "Failed to load model: " ++ err))).

End Engine.

Arguments console_log {LlamaModel LlamaContext LlamaChatSession} msg.
Arguments console_error {LlamaModel LlamaContext LlamaChatSession} msg err.
Arguments call_getLlama {LlamaModel LlamaContext LlamaChatSession}.
Arguments call_loadModel {LlamaModel LlamaContext LlamaChatSession} modelPath gpuLayers.
Arguments call_createContext {LlamaModel LlamaContext LlamaChatSession} m maxTokens batchSize.
Arguments call_newChatSession {LlamaModel LlamaContext LlamaChatSession} c.
Arguments call_contextDispose {LlamaModel LlamaContext LlamaChatSession} c.
Arguments call_modelDispose {LlamaModel LlamaContext LlamaChatSession} m.
Arguments call_prompt {LlamaModel LlamaContext LlamaChatSession} s text opts.
Arguments yield {LlamaModel LlamaContext LlamaChatSession} m.
Arguments new_LLMEngine {LlamaModel LlamaContext LlamaChatSession} defaultPath c.
Arguments generate_accept {LlamaModel LlamaContext LlamaChatSession}.
Arguments generateStream_accept {LlamaModel LlamaContext LlamaChatSession}.
Arguments cancel {LlamaModel LlamaContext LlamaChatSession}.
Arguments updateConfig {LlamaModel LlamaContext LlamaChatSession} p.

(** ** Shapes of event sequences *)

Definition is_start (m : StreamMessage) : bool :=
  match m with Start _ => true | _ => false end.

Definition is_chunk (m : StreamMessage) : bool :=
  match m with Chunk _ => true | _ => false end.

Definition is_end (m : StreamMessage) : bool :=
  match m with End _ _ _ => true | _ => false end.

Definition is_error (m : StreamMessage) : bool :=
  match m with Error _ => true | _ => false end.

(** The events that end a stream. *)
Definition is_terminal (m : StreamMessage) : bool :=
  is_end m || is_error m.

(** The payloads of the chunk events, in the order of the sequence. *)
Fixpoint payloads (l : list StreamMessage) : list jsstring :=
  match l with
  | [] => []
  | Chunk data :: l' => data :: payloads l'
  | _ :: l' => payloads l'
  end.

(** Chunk events only, then one terminal event, then nothing. *)
Fixpoint chunks_then_terminal (l : list StreamMessage) : bool :=
  match l with
  | [] => false
  | m :: l' =>
      match l' with
      | [] => is_terminal m
      | _ :: _ => is_chunk m && chunks_then_terminal l'
      end
  end.

(** A start event, then chunk events only, then one terminal event. *)
Definition well_ordered (l : list StreamMessage) : bool :=
  match l with
  | Start _ :: l' => chunks_then_terminal l'
  | _ => false
  end.

(** ** A runtime to run the engine on

    The model is known by the path it was loaded from, the context by its
    model, the session by the prompts it has seen. *)

Module Fixture.

Definition Engine : Type := LLMEngine jsstring jsstring (list jsstring).

(** A runtime on which every call succeeds and the model answers
    [response] to every prompt. *)
Definition rt_ok (response : jsstring)
  : Runtime unit jsstring jsstring (list jsstring) :=
  mkRuntime (Ok tt)
    (fun _ path _ => Ok path)
    (fun m _ _ => Ok m)
    (fun _ => Ok [])
    (fun _ => Ok tt)
    (fun _ => Ok tt)
    (fun s text _ => (s ++ [text], Ok response)).

(** The model loads, the allocation of its context fails. *)
Definition rt_context_fails : Runtime unit jsstring jsstring (list jsstring) :=
  mkRuntime (Ok tt)
    (fun _ path _ => Ok path)
    (fun _ _ _ => Throw (js "out of memory"))
    (fun _ => Ok [])
    (fun _ => Ok tt)
    (fun _ => Ok tt)
    (fun s text _ => (s ++ [text], Ok [])).

(** The model does not even load. *)
Definition rt_load_fails : Runtime unit jsstring jsstring (list jsstring) :=
  mkRuntime (Ok tt)
    (fun _ _ _ => Throw (js "no such file"))
    (fun m _ _ => Ok m)
    (fun _ => Ok [])
    (fun _ => Ok tt)
    (fun _ => Ok tt)
    (fun s text _ => (s ++ [text], Ok [])).

(** Every prompt fails. *)
Definition rt_prompt_fails : Runtime unit jsstring jsstring (list jsstring) :=
  mkRuntime (Ok tt)
    (fun _ path _ => Ok path)
    (fun m _ _ => Ok m)
    (fun _ => Ok [])
    (fun _ => Ok tt)
    (fun _ => Ok tt)
    (fun s text _ => (s, Throw (js "decode error"))).

(** The context cannot be disposed of. *)
Definition rt_dispose_fails : Runtime unit jsstring jsstring (list jsstring) :=
  mkRuntime (Ok tt)
    (fun _ path _ => Ok path)
    (fun m _ _ => Ok m)
    (fun _ => Ok [])
    (fun _ => Throw (js "busy"))
    (fun _ => Ok tt)
    (fun s text _ => (s ++ [text], Ok [])).

(** A fresh engine, configured for one model file. *)
Definition fresh : Engine :=
  new_LLMEngine (js "/home/.bolt-llama/models/model.gguf")
    (mkPartial (Some (js "/models/a.gguf")) None None None None None None).

(** The same engine with that model loaded. *)
Definition loaded : Engine :=
  engine (initialize (rt_ok []) fresh).

Definition hello : GenerationRequest :=
  mkRequest (js "hello") None None None None None.

(** A request whose system prompt is the empty string. *)
Definition blank_system : GenerationRequest :=
  mkRequest (js "hi") None None None None (Some []).

(** A request that overrides what it can. *)
Definition overriding : GenerationRequest :=
  mkRequest (js "hi") None None (Some (1 # 5)) (Some (64 # 1))
    (Some (js "Answer in French.")).

(** An answer in a fenced block. *)
Definition fenced : jsstring :=
  fence ++ js "ts" ++ [LF] ++ js "let x = 1;" ++ [LF] ++ fence.

(** An answer of 120 code units: three rounds of the loop. *)
Definition long_answer : jsstring := repeat 97%N 120.

(** [cancel()] is never called. *)
Definition never : nat -> bool := fun _ => false.

(** [cancel()] is called once, while the consumer holds chunk 0. *)
Definition during_chunk_0 : nat -> bool := Nat.eqb 2.

(** [cancel()] is called once, while the prompt is awaited. *)
Definition during_prompt : nat -> bool := Nat.eqb 1.

End Fixture.

(** Runs a method as far as its engine and runtime are known. *)
Ltac run :=
  unfold handleLoadModel, generate, generate_accept, generateStream,
    generateStream_accept, initialize, unload, updateConfig, await_prompt,
    try_catch, bind, gets, emit, await, ret, throw, suspended, cancel, modify;
  cbn [result engine effects app fst snd
       model context session config isLoading isCancelled
       set_model set_context set_session set_config set_isLoading
       set_isCancelled].

(** * The callers of the engine in the main process *)

Declare Scope eng_scope.

Definition msg_model_not_loaded : jsstring :=
  js "Model not loaded. Please load a model first.".
Definition msg_chat_failed (err : jsstring) : jsstring :=
  js "Chat failed: " ++ err.

(** The answer of the chat handler: [response] and [error] are optional. *)
Record ChatResponse := mkChatResponse {
  chat_success : bool;
  chat_response : option jsstring;
  chat_error : option jsstring
}.

(** [request] with another context and another model name. *)
Definition with_context_and_model (request : GenerationRequest)
    (context model : option jsstring) : GenerationRequest :=
  mkRequest (req_prompt request) context model (req_temperature request)
    (req_maxTokens request) (req_systemPrompt request).

Section Callers.

Variables Llama LlamaModel LlamaContext LlamaChatSession : Type.

Let Engine := LLMEngine LlamaModel LlamaContext LlamaChatSession.

Notation "x <- m ;; k" := (bind m (fun x => k))
  (at level 61, m at next level, right associativity) : eng_scope.
Notation "m ;; k" := (bind m (fun _ => k))
  (at level 61, right associativity) : eng_scope.
Local Open Scope eng_scope.

(** [IPCHandler.handleLLMGenerate(_event, request)], lines 59 to 73 of
    ipc-handlers.ts; the arguments besides the request are those of
    [generate]. *)
Definition handleLLMGenerate
    (rt : Runtime Llama LlamaModel LlamaContext LlamaChatSession)
    (cancel_called : bool) (t0 t1 : Z) (request : GenerationRequest)
  : Eng LlamaModel LlamaContext LlamaChatSession GenerationResponse :=
  try_catch
    (loaded <- gets (@isModelLoaded LlamaModel LlamaContext LlamaChatSession) ;;
     if (loaded : bool) then generate rt cancel_called t0 t1 request
     else throw msg_model_not_loaded)
    (fun err =>
       emit (console_error (js "LLM generation error:") err) ;;
       throw err).

(** [IPCHandler.handleCancelGeneration()], lines 98 to 100. *)
Definition handleCancelGeneration
  : Eng LlamaModel LlamaContext LlamaChatSession unit := cancel.

(** What [chat] and its handler do to the outside: the session is
    prompted with the message alone, without an options object. *)
Inductive ChatEffect :=
| plain_prompt (s : LlamaChatSession) (message : jsstring)
| chat_console_error (msg err : jsstring).

Record ChatOutcome (A : Type) := mkChatOutcome {
  chat_result : Result A;
  chat_engine : Engine;
  chat_effects : list ChatEffect
}.

(** [chat(message)], lines 276 to 288 of the engine.  [prompt_plain] is
    what the session answers to a prompt without options. *)
Definition chat
    (prompt_plain : LlamaChatSession -> jsstring -> LlamaChatSession * Result jsstring)
    (message : jsstring) (e : Engine) : ChatOutcome jsstring :=
  match session e with
  | None => mkChatOutcome (Throw msg_not_initialized) e []
  | Some s =>
      match prompt_plain s message with
      | (s', Ok response) =>
          mkChatOutcome (Ok response) (set_session (Some s') e)
            [plain_prompt s message]
      | (s', Throw err) =>
          mkChatOutcome (Throw (msg_chat_failed err)) (set_session (Some s') e)
            [plain_prompt s message; chat_console_error (js "Chat failed:") err]
      end
  end.

(** [IPCHandler.handleChatAddMessage(_event, data)], lines 248 to 262 of
    ipc-handlers.ts. *)
Definition handleChatAddMessage
    (prompt_plain : LlamaChatSession -> jsstring -> LlamaChatSession * Result jsstring)
    (message : jsstring) (e : Engine) : ChatOutcome ChatResponse :=
  match chat prompt_plain message e with
  | mkChatOutcome (Ok response) e1 l =>
      mkChatOutcome (Ok (mkChatResponse true (Some response) None)) e1 l
  | mkChatOutcome (Throw err) e1 l =>
      mkChatOutcome (Ok (mkChatResponse false None (Some err))) e1
        (l ++ [chat_console_error (js "Chat error:") err])
  end.

End Callers.

Arguments plain_prompt {LlamaChatSession} s message.
Arguments chat_console_error {LlamaChatSession} msg err.

(** * The chat store of the renderer (chatStore.ts) *)

Module ChatStore.

Inductive Role := user | assistant.

Record ChatMessage := mkMessage {
  m_id : jsstring;
  m_role : Role;
  m_content : jsstring;
  m_timestamp : Q;
  m_tokens : option Q;
  m_generationTime : option Q
}.

(** [Partial<ChatMessage>]: [None] is a key that is absent.  A key of an
    optional field may be present with the value [undefined]. *)
Record MessageUpdates := mkUpdates {
  u_id : option jsstring;
  u_role : option Role;
  u_content : option jsstring;
  u_timestamp : option Q;
  u_tokens : option (option Q);
  u_generationTime : option (option Q)
}.

(** [{ ...msg, ...updates }]. *)
Definition spread (msg : ChatMessage) (updates : MessageUpdates) : ChatMessage :=
  mkMessage (nullish (u_id updates) (m_id msg))
    (nullish (u_role updates) (m_role msg))
    (nullish (u_content updates) (m_content msg))
    (nullish (u_timestamp updates) (m_timestamp msg))
    (nullish (u_tokens updates) (m_tokens msg))
    (nullish (u_generationTime updates) (m_generationTime msg)).

(** [{ ...first, ...second }] on two sets of updates. *)
Definition spread_updates (first second : MessageUpdates) : MessageUpdates :=
  mkUpdates (nullish_opt (u_id second) (u_id first))
    (nullish_opt (u_role second) (u_role first))
    (nullish_opt (u_content second) (u_content first))
    (nullish_opt (u_timestamp second) (u_timestamp first))
    (nullish_opt (u_tokens second) (u_tokens first))
    (nullish_opt (u_generationTime second) (u_generationTime first)).

Definition no_updates : MessageUpdates :=
  mkUpdates None None None None None None.

Record ChatState := mkChatState {
  messages : list ChatMessage;
  isLoading : bool;
  currentModel : jsstring;
  error : option jsstring
}.

Definition initialState : ChatState :=
  mkChatState [] false (js "codellama-7b-instruct.Q4_K_M.gguf") None.

(** [set(partial)] merges the keys given into the state; here the one key
    [messages]. *)
Definition set_messages (v : list ChatMessage) (state : ChatState) : ChatState :=
  mkChatState v (isLoading state) (currentModel state) (error state).

Definition addMessage (message : ChatMessage) (state : ChatState) : ChatState :=
  set_messages (messages state ++ [message]) state.

Definition removeMessage (id : jsstring) (state : ChatState) : ChatState :=
  set_messages
    (filter (fun msg => negb (jsstring_eqb (m_id msg) id)) (messages state))
    state.

Definition updateMessage (id : jsstring) (updates : MessageUpdates)
    (state : ChatState) : ChatState :=
  set_messages
    (map (fun msg => if jsstring_eqb (m_id msg) id then spread msg updates else msg)
       (messages state))
    state.

Definition setLoading (loading : bool) (state : ChatState) : ChatState :=
  mkChatState (messages state) loading (currentModel state) (error state).

Definition setCurrentModel (model : jsstring) (state : ChatState) : ChatState :=
  mkChatState (messages state) (isLoading state) model (error state).

Definition setError (err : option jsstring) (state : ChatState) : ChatState :=
  mkChatState (messages state) (isLoading state) (currentModel state) err.

Definition clearHistory (state : ChatState) : ChatState :=
  mkChatState [] (isLoading state) (currentModel state) None.

Definition getMessages (state : ChatState) : list ChatMessage := messages state.

(** [messages.length > 0 ? messages[messages.length - 1] : undefined]. *)
Definition getLastMessage (state : ChatState) : option ChatMessage :=
  if 0 <? length (messages state)
  then nth_error (messages state) (length (messages state) - 1)
  else None.

End ChatStore.

(** A store with one message, and a message under another id. *)
Module StoreFixture.

Definition question : ChatStore.ChatMessage :=
  ChatStore.mkMessage (js "msg-1") ChatStore.user (js "a button, please")
    (1700000000000 # 1) None None.

Definition answer : ChatStore.ChatMessage :=
  ChatStore.mkMessage (js "msg-2") ChatStore.assistant (js "<button/>")
    (1700000000500 # 1) None None.

Definition asked : ChatStore.ChatState :=
  ChatStore.addMessage question ChatStore.initialState.

Definition new_content : ChatStore.MessageUpdates :=
  ChatStore.mkUpdates None None (Some (js "<button>ok</button>")) None None None.

Definition counted : ChatStore.MessageUpdates :=
  ChatStore.mkUpdates None None None None (Some (Some (3 # 1))) None.

End StoreFixture.

(** * The file manager (file-manager.ts): watchers *)

(** A [Map] with string keys, in the order of insertion. *)
Section StringMap.

Variable V : Type.

Definition StringMap := list (jsstring * V).

Definition map_get (k : jsstring) (m : StringMap) : option V :=
  match find (fun kv => jsstring_eqb (fst kv) k) m with
  | Some kv => Some (snd kv)
  | None => None
  end.

Definition map_has (k : jsstring) (m : StringMap) : bool :=
  existsb (fun kv => jsstring_eqb (fst kv) k) m.

Definition map_delete (k : jsstring) (m : StringMap) : StringMap :=
  filter (fun kv => negb (jsstring_eqb (fst kv) k)) m.

(** [m.set(k, v)]: a key already there keeps its place. *)
Fixpoint map_set (k : jsstring) (v : V) (m : StringMap) : StringMap :=
  match m with
  | [] => [(k, v)]
  | kv :: rest =>
      if jsstring_eqb (fst kv) k then (k, v) :: rest
      else kv :: map_set k v rest
  end.

End StringMap.

Section Watchers.

(** The watcher objects of [fs] and the callbacks handed to [watchFile]. *)
Variables Watcher Callback : Type.

(** [watch(filePath, listener)] of [fs]: what the call returns or throws,
    given how many calls of [watch] went before. *)
Variable watch : nat -> jsstring -> Result Watcher.

Inductive WatchEffect :=
| call_watch (filePath : jsstring) (callback : Callback) (returned : Result Watcher)
| call_close (watcher : Watcher)
| fm_console_log (msg : jsstring)
| fm_console_error (msg err : jsstring).

(** The file manager: the map of its watchers, and the number of calls
    of [watch] so far. *)
Record FileManager := mkFileManager {
  watchers : StringMap Watcher;
  projectsPath : jsstring;
  watch_calls : nat
}.

Definition new_FileManager (projectsPath : jsstring) : FileManager :=
  mkFileManager [] projectsPath 0.

Definition set_watchers (v : StringMap Watcher) (fm : FileManager) : FileManager :=
  mkFileManager v (projectsPath fm) (watch_calls fm).

(** [watchFile(filePath, callback)], lines 548 to 563. *)
Definition watchFile (filePath : jsstring) (callback : Callback) (fm : FileManager)
  : FileManager * list WatchEffect :=
  if map_has filePath (watchers fm) then (fm, [])
  else
    let returned := watch (watch_calls fm) filePath in
    let fm1 := mkFileManager (watchers fm) (projectsPath fm) (S (watch_calls fm)) in
    match returned with
    | Ok watcher =>
        (set_watchers (map_set filePath watcher (watchers fm1)) fm1,
         [call_watch filePath callback returned;
          fm_console_log (js "Watching file: " ++ filePath)])
    | Throw err =>
        (fm1,
         [call_watch filePath callback returned;
          fm_console_error (js "Failed to watch file " ++ filePath ++ js ":") err])
    end.

(** [unwatchFile(filePath)], lines 568 to 575. *)
Definition unwatchFile (filePath : jsstring) (fm : FileManager)
  : FileManager * list WatchEffect :=
  match map_get filePath (watchers fm) with
  | Some watcher =>
      (set_watchers (map_delete filePath (watchers fm)) fm,
       [call_close watcher;
        fm_console_log (js "Stopped watching file: " ++ filePath)])
  | None => (fm, [])
  end.

(** The loop of [unwatchAll] over the entries of the map: each entry is
    deleted when the loop is at it. *)
Fixpoint unwatchAll_loop (entries : StringMap Watcher) (fm : FileManager)
  : FileManager * list WatchEffect :=
  match entries with
  | [] => (fm, [])
  | (filePath, watcher) :: rest =>
      let fm1 := set_watchers (map_delete filePath (watchers fm)) fm in
      let (fm2, l) := unwatchAll_loop rest fm1 in
      (fm2, call_close watcher :: l)
  end.

(** [unwatchAll()], lines 580 to 586. *)
Definition unwatchAll (fm : FileManager) : FileManager * list WatchEffect :=
  let (fm1, l) := unwatchAll_loop (watchers fm) fm in
  (fm1, l ++ [fm_console_log (js "Stopped watching all files")]).

(** Calls of the watching methods, one after the other. *)
Inductive WatchCall :=
| do_watchFile (filePath : jsstring) (callback : Callback)
| do_unwatchFile (filePath : jsstring)
| do_unwatchAll.

Definition watch_step (c : WatchCall) (fm : FileManager)
  : FileManager * list WatchEffect :=
  match c with
  | do_watchFile filePath callback => watchFile filePath callback fm
  | do_unwatchFile filePath => unwatchFile filePath fm
  | do_unwatchAll => unwatchAll fm
  end.

Fixpoint watch_run (calls : list WatchCall) (fm : FileManager)
  : FileManager * list WatchEffect :=
  match calls with
  | [] => (fm, [])
  | c :: rest =>
      let (fm1, l1) := watch_step c fm in
      let (fm2, l2) := watch_run rest fm1 in
      (fm2, l1 ++ l2)
  end.

(** The watchers that calls of [watch] returned, and those closed. *)
Fixpoint opened (l : list WatchEffect) : list Watcher :=
  match l with
  | [] => []
  | call_watch _ _ (Ok watcher) :: rest => watcher :: opened rest
  | _ :: rest => opened rest
  end.

Fixpoint closed (l : list WatchEffect) : list Watcher :=
  match l with
  | [] => []
  | call_close watcher :: rest => watcher :: closed rest
  | _ :: rest => closed rest
  end.

(** What every watching method keeps: one watcher to a path, and the
    watchers of the map are those opened and not closed. *)
Definition accounted (fm : FileManager) (l : list WatchEffect) : Prop :=
  NoDup (map fst (watchers fm))
  /\ Permutation (opened l) (closed l ++ map snd (watchers fm)).

End Watchers.

Arguments call_watch {Watcher Callback} filePath callback returned.
Arguments call_close {Watcher Callback} watcher.
Arguments fm_console_log {Watcher Callback} msg.
Arguments fm_console_error {Watcher Callback} msg err.
Arguments do_watchFile {Callback} filePath callback.
Arguments do_unwatchFile {Callback} filePath.
Arguments do_unwatchAll {Callback}.
Arguments new_FileManager {Watcher} projectsPath.

(** ** Cleanup of the main process (ipc-handlers.ts) *)

Section Cleanup.

Variables Llama LlamaModel LlamaContext LlamaChatSession Watcher Callback : Type.

(** [IPCHandler.cleanup()], lines 284 to 287: the effects on the file
    manager come first, then the run of [unload]. *)
Definition cleanup (rt : Runtime Llama LlamaModel LlamaContext LlamaChatSession)
    (fm : FileManager Watcher) (e : LLMEngine LlamaModel LlamaContext LlamaChatSession)
  : FileManager Watcher * list (WatchEffect Watcher Callback)
    * Outcome LlamaModel LlamaContext LlamaChatSession unit :=
  let (fm1, l) := unwatchAll Callback fm in
  (fm1, l, unload rt e).

End Cleanup.

(** A file manager whose watchers are numbered as they are opened. *)
Module WatchFixture.

Definition watch_counting : nat -> jsstring -> Result nat :=
  fun k _ => Ok k.

Definition manager : FileManager nat :=
  new_FileManager (js "/home/u/.bolt-llama/projects").

Definition watching : FileManager nat :=
  fst (watchFile watch_counting (js "/p/a.ts") tt manager).

End WatchFixture.

(** * The file manager: listing a directory *)

Inductive FileType := file | directory.

(** [FileInfo] of the shared types; the optional fields are [None] when
    the key is absent. *)
Record FileInfo := mkFileInfo {
  fi_path : jsstring;
  fi_name : jsstring;
  fi_type : FileType;
  fi_content : option jsstring;
  fi_language : option jsstring;
  fi_size : option Q;
  fi_lastModified : option Q
}.

(** What [fs.stat] reports of a file: [size] and [mtime.getTime()]. *)
Record Stats := mkStats {
  stat_size : Q;
  stat_mtime : Q
}.

(** An entry that [fs.readdir] reports, with what the file system answers
    when the listing goes on to it: [fs.stat] for an entry that is no
    directory, [fs.readdir] for a directory. *)
#[local] Unset Elimination Schemes.
Inductive DirEntry :=
| entry_file (name : jsstring) (stat : Result Stats)
| entry_dir (name : jsstring) (readdir : Result (list DirEntry)).
#[local] Set Elimination Schemes.

(** Induction on a directory entry and, with it, on all that lies below. *)
Section DirEntryInduction.

Variable P : DirEntry -> Prop.
Hypothesis P_file : forall name stat, P (entry_file name stat).
Hypothesis P_dir : forall name entries,
  Forall P entries -> P (entry_dir name (Ok entries)).
Hypothesis P_unreadable : forall name err, P (entry_dir name (Throw err)).

Fixpoint DirEntry_induction (entry : DirEntry) : P entry :=
  match entry with
  | entry_file name stat => P_file name stat
  | entry_dir name (Ok entries) =>
      P_dir name
        ((fix all (entries : list DirEntry) : Forall P entries :=
            match entries with
            | [] => Forall_nil P
            | entry :: rest =>
                Forall_cons entry (DirEntry_induction entry) (all rest)
            end) entries)
  | entry_dir name (Throw err) => P_unreadable name err
  end.

End DirEntryInduction.

Definition entry_name (entry : DirEntry) : jsstring :=
  match entry with
  | entry_file name _ => name
  | entry_dir name _ => name
  end.

(** [entry.name.startsWith('.') || entry.name === 'node_modules']. *)
Definition skipped (name : jsstring) : bool :=
  starts_with (js ".") name || jsstring_eqb name (js "node_modules").

Section ListFiles.

(** [path.join] of two segments. *)
Variable join : jsstring -> jsstring -> jsstring.

(** The entry that a listing makes for a directory. *)
Definition dir_info (relativePath name : jsstring) : FileInfo :=
  mkFileInfo (join relativePath name) name directory None None None None.

(** The body of the loop of [processDir] for one entry; [files] is the
    array that the whole listing fills. *)
Fixpoint processEntry (recursive : bool) (relativePath : jsstring)
    (entry : DirEntry) (files : list FileInfo) : Result (list FileInfo) :=
  match entry with
  | entry_file name stat =>
      if skipped name then Ok files
      else
        match stat with
        | Ok st =>
            Ok (files ++ [mkFileInfo (join relativePath name) name file None None
                            (Some (stat_size st)) (Some (stat_mtime st))])
        | Throw err => Throw err
        end
  | entry_dir name readdir =>
      if skipped name then Ok files
      else
        let relPath := join relativePath name in
        let files1 := files ++ [dir_info relativePath name] in
        if recursive then
          match readdir with
          | Ok entries =>
              (fix loop (entries : list DirEntry) (files : list FileInfo)
                 : Result (list FileInfo) :=
                 match entries with
                 | [] => Ok files
                 | entry :: rest =>
                     match processEntry recursive relPath entry files with
                     | Ok files2 => loop rest files2
                     | Throw err => Throw err
                     end
                 end) entries files1
          | Throw err => Throw err
          end
        else Ok files1
  end.

(** The loop of [processDir] over the entries of a directory. *)
Fixpoint processEntries (recursive : bool) (relativePath : jsstring)
    (entries : list DirEntry) (files : list FileInfo) : Result (list FileInfo) :=
  match entries with
  | [] => Ok files
  | entry :: rest =>
      match processEntry recursive relativePath entry files with
      | Ok files2 => processEntries recursive relativePath rest files2
      | Throw err => Throw err
      end
  end.

(** [processDir(currentPath, relativePath)], where [readdir] is what
    [fs.readdir(currentPath)] answers. *)
Definition processDir (recursive : bool) (relativePath : jsstring)
    (readdir : Result (list DirEntry)) (files : list FileInfo)
  : Result (list FileInfo) :=
  match readdir with
  | Ok entries => processEntries recursive relativePath entries files
  | Throw err => Throw err
  end.

(** [listFiles(dirPath, recursive)], lines 498 to 543, with what it
    writes to [console.error]; [readdir] is what the directory at
    [dirPath] holds. *)
Definition listFiles (dirPath : jsstring) (recursive : bool)
    (readdir : Result (list DirEntry))
  : Result (list FileInfo) * list (jsstring * jsstring) :=
  match processDir recursive [] readdir [] with
  | Ok files => (Ok files, [])
  | Throw err =>
      (Throw (js "Failed to list files: " ++ err),
       [(js "Failed to list files in " ++ dirPath ++ js ":", err)])
  end.

(** [IPCHandler.handleFileList(_event, data)], lines 158 to 168 of
    ipc-handlers.ts: [recursive] may be missing. *)
Definition handleFileList (dirPath : jsstring) (recursive : option bool)
    (readdir : Result (list DirEntry))
  : Result (list FileInfo) * list (jsstring * jsstring) :=
  match listFiles dirPath (nullish recursive false) readdir with
  | (Ok files, l) => (Ok files, l)
  | (Throw err, l) => (Throw err, l ++ [(js "File list error:", err)])
  end.

(** ** What a listing visits *)

(** The entries that a listing goes through, without the entries it
    skips and without what it never reads. *)
Fixpoint visited_entry (recursive : bool) (entry : DirEntry) : list DirEntry :=
  match entry with
  | entry_file name stat =>
      if skipped name then [] else [entry_file name stat]
  | entry_dir name readdir =>
      if skipped name then []
      else if recursive then
        [entry_dir name
           match readdir with
           | Ok entries =>
               Ok ((fix all (entries : list DirEntry) : list DirEntry :=
                      match entries with
                      | [] => []
                      | entry :: rest => visited_entry recursive entry ++ all rest
                      end) entries)
           | Throw err => Throw err
           end]
      else [entry_dir name (Ok [])]
  end.

Definition visited (recursive : bool) (entries : list DirEntry) : list DirEntry :=
  flat_map (visited_entry recursive) entries.

(** The first failure of the file system on the way of a listing. *)
Fixpoint failure_entry (recursive : bool) (entry : DirEntry) : option jsstring :=
  match entry with
  | entry_file name stat =>
      if skipped name then None
      else match stat with Ok _ => None | Throw err => Some err end
  | entry_dir name readdir =>
      if skipped name then None
      else if recursive then
        match readdir with
        | Ok entries =>
            (fix first (entries : list DirEntry) : option jsstring :=
               match entries with
               | [] => None
               | entry :: rest =>
                   match failure_entry recursive entry with
                   | Some err => Some err
                   | None => first rest
                   end
               end) entries
        | Throw err => Some err
        end
      else None
  end.

Fixpoint first_failure (recursive : bool) (entries : list DirEntry) : option jsstring :=
  match entries with
  | [] => None
  | entry :: rest =>
      match failure_entry recursive entry with
      | Some err => Some err
      | None => first_failure recursive rest
      end
  end.

Definition listing_failure (recursive : bool) (readdir : Result (list DirEntry))
  : option jsstring :=
  match readdir with
  | Ok entries => first_failure recursive entries
  | Throw err => Some err
  end.

(** The number of entries, at all depths, that are not skipped and lie in
    no skipped directory. *)
Fixpoint count_entry (recursive : bool) (entry : DirEntry) : nat :=
  match entry with
  | entry_file name _ => if skipped name then 0 else 1
  | entry_dir name readdir =>
      if skipped name then 0
      else if recursive then
        match readdir with
        | Ok entries =>
            S ((fix sum (entries : list DirEntry) : nat :=
                  match entries with
                  | [] => 0
                  | entry :: rest => count_entry recursive entry + sum rest
                  end) entries)
        | Throw _ => 1
        end
      else 1
  end.

Definition count_entries (recursive : bool) (entries : list DirEntry) : nat :=
  list_sum (map (count_entry recursive) entries).

Definition listing_count (recursive : bool) (readdir : Result (list DirEntry)) : nat :=
  match readdir with
  | Ok entries => count_entries recursive entries
  | Throw _ => 0
  end.

End ListFiles.

(** What a run of the loop makes of the array it is given, in terms of
    the failures on its way and of the entries it counts. *)
Definition run_spec (recursive : bool) (failure : option jsstring) (count : nat)
    (files : list FileInfo) (r : Result (list FileInfo)) : Prop :=
  match failure with
  | Some err => r = Throw err
  | None =>
      exists out, r = Ok (files ++ out) /\ length out = count
                  /\ Forall (fun info => skipped (fi_name info) = false) out
  end.

(** A project directory, and [path.join] on plain segments. *)
Module TreeFixture.

Definition join (a b : jsstring) : jsstring :=
  match a with
  | [] => b
  | _ :: _ => a ++ js "/" ++ b
  end.

Definition main_ts : DirEntry :=
  entry_file (js "main.ts") (Ok (mkStats (64 # 1) (1700000000000 # 1))).

Definition index_html : DirEntry :=
  entry_file (js "index.html") (Ok (mkStats (120 # 1) (1700000000500 # 1))).

Definition src_dir : DirEntry :=
  entry_dir (js "src")
    (Ok [main_ts; entry_file (js ".env") (Throw (js "EPERM"))]).

Definition project : list DirEntry :=
  [entry_dir (js ".git") (Throw (js "EACCES"));
   entry_dir (js "node_modules") (Ok [entry_file (js "x.js") (Throw (js "EIO"))]);
   src_dir;
   index_html].

End TreeFixture.

(** * The file explorer of the renderer (FileExplorer.tsx) *)

(** [/]. *)
Definition SLASH : N := 47%N.

(** [s.split('/')]: never empty. *)
Fixpoint split_slash (s : jsstring) : list jsstring :=
  match s with
  | [] => [[]]
  | c :: s' =>
      if N.eqb c SLASH then [] :: split_slash s'
      else
        match split_slash s' with
        | [] => [[c]]
        | part :: parts => (c :: part) :: parts
        end
  end.

(** [parts.join('/')]. *)
Fixpoint join_slash (parts : list jsstring) : jsstring :=
  match parts with
  | [] => []
  | [part] => part
  | part :: rest => part ++ SLASH :: join_slash rest
  end.

#[local] Unset Elimination Schemes.
(** [FileTreeNode]; [expanded] is never set. *)
Inductive FileTreeNode :=
| mkNode (path name : jsstring) (type : FileType)
    (children : option (list FileTreeNode)).
#[local] Set Elimination Schemes.

Definition node_path (n : FileTreeNode) : jsstring :=
  match n with mkNode path _ _ _ => path end.
Definition node_name (n : FileTreeNode) : jsstring :=
  match n with mkNode _ name _ _ => name end.
Definition node_type (n : FileTreeNode) : FileType :=
  match n with mkNode _ _ type _ => type end.
Definition node_children (n : FileTreeNode) : option (list FileTreeNode) :=
  match n with mkNode _ _ _ children => children end.

Section BuildFileTree.

(** The keys that an object literal inherits from its prototype
    ([constructor], [toString], ...); what they hold is truthy and has no
    [children]. *)
Variable inherited : jsstring -> bool.

(** [[...fileList].sort((a, b) => a.path.localeCompare(b.path))]. *)
Variable sort : list FileInfo -> list FileInfo.

(** The own properties of a record of nodes. *)
Definition Dict := StringMap FileTreeNode.

(** The record that [current] refers to: [tree] itself, or a record
    that a [reduce] has just made. *)
Inductive Current :=
| at_tree
| at_temp (d : Dict).

Record BuildState := mkBuild {
  tree : Dict;
  roots : list FileTreeNode
}.

Definition dict_of (current : Current) (st : BuildState) : Dict :=
  match current with
  | at_tree => tree st
  | at_temp d => d
  end.

(** [current[part] = node]. *)
Definition assign (current : Current) (part : jsstring) (node : FileTreeNode)
    (st : BuildState) : Current * BuildState :=
  match current with
  | at_tree => (at_tree, mkBuild (map_set part node (tree st)) (roots st))
  | at_temp d => (at_temp (map_set part node d), st)
  end.

(** Whether [current[part]] is truthy. *)
Definition truthy_at (d : Dict) (part : jsstring) : bool :=
  match map_get part d with
  | Some _ => true
  | None => inherited part
  end.

(** [current[part].children], once [current[part]] is truthy. *)
Definition children_at (d : Dict) (part : jsstring) : option (list FileTreeNode) :=
  match map_get part d with
  | Some node => node_children node
  | None => None
  end.

(** [children.reduce((acc, child) => { acc[child.name] = child; return acc }, {})]. *)
Definition by_name (children : list FileTreeNode) : Dict :=
  fold_left (fun acc child => map_set (node_name child) child acc) children [].

Definition is_directory (type : FileType) : bool :=
  match type with directory => true | file => false end.

(** The inner loop, from index [i] on: [before] are the parts before
    [parts[i]], [parts] those from [parts[i]] on. *)
Fixpoint walk (type : FileType) (i : nat) (before parts : list jsstring)
    (current : Current) (st : BuildState) : BuildState :=
  match parts with
  | [] => st
  | part :: rest =>
      let last := match rest with [] => true | _ :: _ => false end in
      let path := join_slash (before ++ [part]) in
      let (current1, st1) :=
        if truthy_at (dict_of current st) part then (current, st)
        else
          let isDir := negb last || is_directory type in
          let node :=
            mkNode path part (if isDir then directory else file)
              (if isDir then Some [] else None) in
          let (current', st') := assign current part node st in
          (current',
           if i =? 0 then mkBuild (tree st') (roots st' ++ [node]) else st')
      in
      let current2 :=
        match children_at (dict_of current1 st1) part with
        | Some children => if negb last then at_temp (by_name children) else current1
        | None => current1
        end in
      walk type (S i) (before ++ [part]) rest current2 st1
  end.

(** The body of the outer loop for one file. *)
Definition place (st : BuildState) (f : FileInfo) : BuildState :=
  walk (fi_type f) 0 [] (split_slash (fi_path f)) at_tree st.

(** [buildFileTree(fileList)], lines 212 to 254. *)
Definition buildFileTree (fileList : list FileInfo) : list FileTreeNode :=
  roots (fold_left place (sort fileList) (mkBuild [] [])).

(** The first part of the path of a file. *)
Definition first_part (f : FileInfo) : jsstring :=
  hd [] (split_slash (fi_path f)).

(** A node as the loop makes it for the first part of the path of [f]. *)
Definition top_node (f : FileInfo) : FileTreeNode :=
  let isDir := (1 <? length (split_slash (fi_path f))) || is_directory (fi_type f) in
  mkNode (first_part f) (first_part f) (if isDir then directory else file)
    (if isDir then Some [] else None).

(** The files of a list whose first part is not among [seen] and has not
    occurred earlier in the list. *)
Fixpoint firsts (seen : list jsstring) (l : list FileInfo) : list FileInfo :=
  match l with
  | [] => []
  | f :: rest =>
      if existsb (fun s => jsstring_eqb s (first_part f)) seen then firsts seen rest
      else f :: firsts (seen ++ [first_part f]) rest
  end.

(** What holds of the roots all along the outer loop. *)
Definition top_level (files : list FileInfo) (st : BuildState) : Prop :=
  NoDup (map node_name (roots st))
  /\ Forall (fun n => (exists n', map_get (node_name n) (tree st) = Some n')
                      /\ inherited (node_name n) = false
                      /\ exists f, In f files /\ n = top_node f) (roots st).

End BuildFileTree.

(** The keys of [Object.prototype]. *)
Definition Object_prototype (key : jsstring) : bool :=
  existsb (jsstring_eqb key)
    [js "constructor"; js "__defineGetter__"; js "__defineSetter__";
     js "hasOwnProperty"; js "__lookupGetter__"; js "__lookupSetter__";
     js "isPrototypeOf"; js "propertyIsEnumerable"; js "toString";
     js "valueOf"; js "__proto__"; js "toLocaleString"].

(** The listing of a small project, sorted by path. *)
Module ExplorerFixture.

Definition sorted_already (fileList : list FileInfo) : list FileInfo := fileList.

Definition index_html : FileInfo :=
  mkFileInfo (js "index.html") (js "index.html") file None None
    (Some (120 # 1)) (Some (1700000000500 # 1)).

Definition src : FileInfo :=
  mkFileInfo (js "src") (js "src") directory None None None None.

Definition src_main_ts : FileInfo :=
  mkFileInfo (js "src/main.ts") (js "main.ts") file None None
    (Some (64 # 1)) (Some (1700000000000 # 1)).

Definition listing : list FileInfo := [index_html; src; src_main_ts].

End ExplorerFixture.

(** * The file manager: files and projects *)

(** What [fs] throws: an error with its [code], if it has one, and its
    [message]. *)
Record JsError := mkJsError {
  error_code : option jsstring;
  error_message : jsstring
}.

(** [new Error(message)]. *)
Definition new_Error (message : jsstring) : JsError := mkJsError None message.

Inductive Try (A : Type) :=
| Returned (a : A)
| Raised (error : JsError).

Arguments Returned {A} a.
Arguments Raised {A} error.

Record ProjectMetadata := mkMetadata {
  pm_name : jsstring;
  pm_description : option jsstring;
  pm_version : jsstring;
  pm_path : jsstring;
  pm_createdAt : Q;
  pm_updatedAt : Q;
  pm_template : option jsstring;
  pm_model : option jsstring
}.

(** A template of [PROJECT_TEMPLATES]; [files] in the order of
    [Object.entries]. *)
Record Template := mkTemplate {
  template_name : jsstring;
  template_description : jsstring;
  template_files : list (jsstring * jsstring)
}.

Inductive FsEffect :=
| call_access (path : jsstring)
| call_mkdir (path : jsstring)
| call_fs_writeFile (path content : jsstring)
| call_fs_readFile (path : jsstring)
| call_unlink (path : jsstring)
| call_readdir (path : jsstring)
| fs_console_log (msg : jsstring)
| fs_console_warn (msg : jsstring) (error : JsError)
| fs_console_error (msg : jsstring) (error : JsError).

(** The quotation mark. *)
Definition QUOTE : N := 34%N.

Definition quoted (s : jsstring) : jsstring := QUOTE :: s ++ [QUOTE].

Definition msg_already_exists (projectName : jsstring) : jsstring :=
  js "Project " ++ quoted projectName ++ js " already exists".
Definition msg_template_not_found (template : jsstring) : jsstring :=
  js "Template " ++ quoted template ++ js " not found".
Definition msg_created (projectName : jsstring) : jsstring :=
  js "Project " ++ quoted projectName ++ js " created successfully".

(** The [TypeError] of [Object.entries(undefined)]. *)
Definition entries_of_undefined : JsError :=
  new_Error (js "Cannot convert undefined or null to object").

Declare Scope fs_scope.

Section Files.

(** The file system and the clock, as far as the file manager can tell. *)
Variable World : Type.

(** [fs/promises], [path], [Date] and [JSON], as the file manager uses
    them. *)
Record NodeRuntime := mkNodeRuntime {
  fs_access : World -> jsstring -> World * Try unit;
  fs_mkdir : World -> jsstring -> World * Try unit;
  fs_writeFile : World -> jsstring -> jsstring -> World * Try unit;
  fs_readFile : World -> jsstring -> World * Try jsstring;
  fs_unlink : World -> jsstring -> World * Try unit;
  Date_now : World -> World * Q;
  path_join : jsstring -> jsstring -> jsstring;
  path_dirname : jsstring -> jsstring;
  path_basename : jsstring -> jsstring;
  JSON_stringify : ProjectMetadata -> jsstring
}.

(** The table [PROJECT_TEMPLATES] of constants.ts, and the keys that it
    inherits as an object literal. *)
Variable PROJECT_TEMPLATES : StringMap Template.
Variable inherited : jsstring -> bool.

Record FsOutcome (A : Type) := mkFsOutcome {
  fs_result : Try A;
  fs_world : World;
  fs_effects : list FsEffect
}.

Definition Fs (A : Type) : Type := World -> FsOutcome A.

Definition fs_ret {A} (a : A) : Fs A :=
  fun w => mkFsOutcome (Returned a) w [].

Definition fs_throw {A} (error : JsError) : Fs A :=
  fun w => mkFsOutcome (Raised error) w [].

Definition fs_bind {A B} (m : Fs A) (f : A -> Fs B) : Fs B :=
  fun w =>
    match m w with
    | mkFsOutcome (Returned a) w1 l1 =>
        match f a w1 with
        | mkFsOutcome r w2 l2 => mkFsOutcome r w2 (l1 ++ l2)
        end
    | mkFsOutcome (Raised error) w1 l1 => mkFsOutcome (Raised error) w1 l1
    end.

Definition fs_catch {A} (m : Fs A) (h : JsError -> Fs A) : Fs A :=
  fun w =>
    match m w with
    | mkFsOutcome (Returned a) w1 l1 => mkFsOutcome (Returned a) w1 l1
    | mkFsOutcome (Raised error) w1 l1 =>
        match h error w1 with
        | mkFsOutcome r w2 l2 => mkFsOutcome r w2 (l1 ++ l2)
        end
    end.

Definition fs_emit (x : FsEffect) : Fs unit :=
  fun w => mkFsOutcome (Returned tt) w [x].

(** An awaited call: the effect, and what the world answers. *)
Definition fs_await {A} (x : FsEffect) (call : World -> World * Try A) : Fs A :=
  fun w => let (w1, r) := call w in mkFsOutcome r w1 [x].

Definition fs_now (node : NodeRuntime) : Fs Q :=
  fun w => let (w1, t) := Date_now node w in mkFsOutcome (Returned t) w1 [].

Notation "x <- m ;; k" := (fs_bind m (fun x => k))
  (at level 61, m at next level, right associativity) : fs_scope.
Notation "m ;; k" := (fs_bind m (fun _ => k))
  (at level 61, right associativity) : fs_scope.
Local Open Scope fs_scope.

Definition access (node : NodeRuntime) (path : jsstring) : Fs unit :=
  fs_await (call_access path) (fun w => fs_access node w path).
Definition mkdir (node : NodeRuntime) (path : jsstring) : Fs unit :=
  fs_await (call_mkdir path) (fun w => fs_mkdir node w path).
Definition write (node : NodeRuntime) (path content : jsstring) : Fs unit :=
  fs_await (call_fs_writeFile path content) (fun w => fs_writeFile node w path content).
Definition read (node : NodeRuntime) (path : jsstring) : Fs jsstring :=
  fs_await (call_fs_readFile path) (fun w => fs_readFile node w path).
Definition unlink (node : NodeRuntime) (path : jsstring) : Fs unit :=
  fs_await (call_unlink path) (fun w => fs_unlink node w path).

(** [(error as NodeJS.ErrnoException).code !== 'ENOENT']. *)
Definition not_ENOENT (error : JsError) : bool :=
  match error_code error with
  | Some code => negb (jsstring_eqb code (js "ENOENT"))
  | None => true
  end.

(** [PROJECT_TEMPLATES[template]]: a template of the table, something
    truthy that the table inherits, or [undefined]. *)
Inductive TemplateData :=
| a_template (t : Template)
| an_inherited_member
| no_template.

Definition template_data (template : jsstring) : TemplateData :=
  match map_get template PROJECT_TEMPLATES with
  | Some t => a_template t
  | None => if inherited template then an_inherited_member else no_template
  end.

(** The loop of [createProject] over the files of the template. *)
Fixpoint write_template (node : NodeRuntime) (projectPath : jsstring)
    (entries : list (jsstring * jsstring)) (files : list FileInfo)
  : Fs (list FileInfo) :=
  match entries with
  | [] => fs_ret files
  | (filePath, content) :: rest =>
      let fullPath := path_join node projectPath filePath in
      let dir := path_dirname node fullPath in
      mkdir node dir ;;
      write node fullPath content ;;
      write_template node projectPath rest
        (files ++ [mkFileInfo filePath (path_basename node filePath) file
                     (Some content) None None None])
  end.

(** [createProject(projectName, template)], lines 386 to 452. *)
Definition createProject (node : NodeRuntime) (projectsPath projectName : jsstring)
    (template : option jsstring) : Fs (jsstring * list FileInfo) :=
  let template := nullish template (js "react-ts") in
  fs_catch
    (let projectPath := path_join node projectsPath projectName in
     fs_catch
       (access node projectPath ;;
        fs_throw (new_Error (msg_already_exists projectName)))
       (fun error => if not_ENOENT error then fs_throw error else fs_ret tt) ;;
     let templateData := template_data template in
     match templateData with
     | no_template => fs_throw (new_Error (msg_template_not_found template))
     | _ =>
         mkdir node projectPath ;;
         createdAt <- fs_now node ;;
         updatedAt <- fs_now node ;;
         let metadata :=
           mkMetadata projectName None (js "1.0.0") projectPath createdAt
             updatedAt (Some template) None in
         files <-
           match templateData with
           | a_template t => write_template node projectPath (template_files t) []
           | _ => fs_throw entries_of_undefined
           end ;;
         let metadataPath := path_join node projectPath (js ".bolt-config.json") in
         write node metadataPath (JSON_stringify node metadata) ;;
         fs_emit (fs_console_log (msg_created projectName)) ;;
         fs_ret (projectPath, files)
     end)
    (fun error =>
       fs_emit (fs_console_error (js "Failed to create project:") error) ;;
       fs_throw error).

(** [readFile(filePath)], lines 457 to 465. *)
Definition readFile (node : NodeRuntime) (filePath : jsstring) : Fs jsstring :=
  fs_catch (read node filePath)
    (fun error =>
       fs_emit (fs_console_error (js "Failed to read file " ++ filePath ++ js ":")
                  error) ;;
       fs_throw (new_Error (js "Failed to read file: " ++ error_message error))).

(** [writeFile(filePath, content)], lines 470 to 480. *)
Definition writeFile (node : NodeRuntime) (filePath content : jsstring) : Fs unit :=
  fs_catch
    (let dir := path_dirname node filePath in
     mkdir node dir ;;
     write node filePath content ;;
     fs_emit (fs_console_log (js "File written: " ++ filePath)))
    (fun error =>
       fs_emit (fs_console_error (js "Failed to write file " ++ filePath ++ js ":")
                  error) ;;
       fs_throw (new_Error (js "Failed to write file: " ++ error_message error))).

(** [deleteFile(filePath)], lines 485 to 493. *)
Definition deleteFile (node : NodeRuntime) (filePath : jsstring) : Fs unit :=
  fs_catch
    (unlink node filePath ;;
     fs_emit (fs_console_log (js "File deleted: " ++ filePath)))
    (fun error =>
       fs_emit (fs_console_error (js "Failed to delete file " ++ filePath ++ js ":")
                  error) ;;
       fs_throw (new_Error (js "Failed to delete file: " ++ error_message error))).

(** ** The handlers of the main process for files and projects *)

(** [{ success, error? }]. *)
Record OperationResult := mkOperationResult {
  op_success : bool;
  op_error : option jsstring
}.

(** What a handler makes of a method that returns nothing. *)
Definition report (label : jsstring) (m : Fs unit) : Fs OperationResult :=
  fs_catch (m ;; fs_ret (mkOperationResult true None))
    (fun error =>
       fs_emit (fs_console_error label error) ;;
       fs_ret (mkOperationResult false (Some (error_message error)))).

(** [handleFileRead(_event, filePath)], lines 104 to 111 of
    ipc-handlers.ts. *)
Definition handleFileRead (node : NodeRuntime) (filePath : jsstring) : Fs jsstring :=
  fs_catch (readFile node filePath)
    (fun error =>
       fs_emit (fs_console_error (js "File read error:") error) ;;
       fs_throw error).

(** [handleFileWrite(_event, data)], lines 113 to 127. *)
Definition handleFileWrite (node : NodeRuntime) (path content : jsstring)
  : Fs OperationResult :=
  report (js "File write error:") (writeFile node path content).

(** [handleFileDelete(_event, filePath)], lines 129 to 140. *)
Definition handleFileDelete (node : NodeRuntime) (filePath : jsstring)
  : Fs OperationResult :=
  report (js "File delete error:") (deleteFile node filePath).

(** [handleFileCreate(_event, data)], lines 142 to 156: [content] may be
    missing. *)
Definition handleFileCreate (node : NodeRuntime) (path : jsstring)
    (content : option jsstring) : Fs OperationResult :=
  report (js "File create error:") (writeFile node path (or_else content [])).

(** [{ success, projectPath?, files?, error? }]. *)
Record ProjectCreated := mkProjectCreated {
  pc_success : bool;
  pc_projectPath : option jsstring;
  pc_files : option (list FileInfo);
  pc_error : option jsstring
}.

(** [handleProjectCreate(_event, data)], lines 188 to 206. *)
Definition handleProjectCreate (node : NodeRuntime) (projectsPath name : jsstring)
    (template : option jsstring) : Fs ProjectCreated :=
  fs_catch
    (created <- createProject node projectsPath name template ;;
     fs_ret (mkProjectCreated true (Some (fst created)) (Some (snd created)) None))
    (fun error =>
       fs_emit (fs_console_error (js "Project creation error:") error) ;;
       fs_ret (mkProjectCreated false None None (Some (error_message error)))).

(** The calls of an effect list that change the file system. *)
Definition changes (l : list FsEffect) : list FsEffect :=
  filter (fun x => match x with
                   | call_mkdir _ | call_fs_writeFile _ _ | call_unlink _ => true
                   | _ => false
                   end) l.

(** No call of an effect list removes a file. *)
Definition never_unlinks (l : list FsEffect) : Prop :=
  Forall (fun x => match x with call_unlink _ => False | _ => True end) l.

End Files.

Arguments Fs World A : clear implicits.

(** A file system that is a list of the paths in it, and a table with one
    template. *)
Module ProjectFixture.

Definition World : Type := list jsstring.

Definition exists_in (w : World) (path : jsstring) : bool :=
  existsb (jsstring_eqb path) w.

Definition ENOENT : JsError :=
  mkJsError (Some (js "ENOENT")) (js "ENOENT: no such file or directory").

Definition EACCES : JsError :=
  mkJsError (Some (js "EACCES")) (js "EACCES: permission denied").

Definition dirname (path : jsstring) : jsstring :=
  join_slash (removelast (split_slash path)).

Definition basename (path : jsstring) : jsstring :=
  last (split_slash path) [].

Definition node : NodeRuntime World :=
  mkNodeRuntime
    (fun w path => (w, if exists_in w path then Returned tt else Raised ENOENT))
    (fun w path => (path :: w, Returned tt))
    (fun w path _ => (path :: w, Returned tt))
    (fun w path => (w, if exists_in w path then Returned [] else Raised ENOENT))
    (fun w path =>
       if exists_in w path
       then (filter (fun p => negb (jsstring_eqb p path)) w, Returned tt)
       else (w, Raised ENOENT))
    (fun w => (w, 1700000000000 # 1))
    TreeFixture.join dirname basename
    (fun metadata => js "{ name: " ++ pm_name metadata ++ js " }").

(** The same, on a disk that cannot be written. *)
Definition read_only : NodeRuntime World :=
  mkNodeRuntime (fs_access node)
    (fun w _ => (w, Raised EACCES)) (fun w _ _ => (w, Raised EACCES))
    (fs_readFile node) (fun w _ => (w, Raised EACCES)) (Date_now node)
    TreeFixture.join dirname basename (JSON_stringify node).

Definition templates : StringMap Template :=
  [(js "html-css-js",
    mkTemplate (js "Vanilla HTML/CSS/JS")
      (js "Simple HTML, CSS, and JavaScript project")
      [(js "index.html", js "<!DOCTYPE html>");
       (js "styles.css", js "* { margin: 0; }");
       (js "script.js", js "console.log('Bolt Llama app loaded');")])].

Definition with_demo : World := [js "/projects/demo"].

End ProjectFixture.

(** * The project store of the renderer (projectStore.ts) *)

Module ProjectStore.

Record ProjectState := mkProjectState {
  projectName : jsstring;
  projectPath : jsstring;
  projectMetadata : option ProjectMetadata;
  files : StringMap jsstring;
  currentFile : option jsstring;
  isDirty : bool;
  isLoading : bool
}.

Definition initialState : ProjectState :=
  mkProjectState [] [] None [] None false false.

(** [set({ files, isDirty: true })]. *)
Definition set_files_dirty (v : StringMap jsstring) (state : ProjectState)
  : ProjectState :=
  mkProjectState (projectName state) (projectPath state) (projectMetadata state)
    v (currentFile state) true (isLoading state).

Definition addFile (path content : jsstring) (state : ProjectState) : ProjectState :=
  set_files_dirty (map_set path content (files state)) state.

Definition updateFile (path content : jsstring) (state : ProjectState) : ProjectState :=
  set_files_dirty (map_set path content (files state)) state.

Definition deleteFile (path : jsstring) (state : ProjectState) : ProjectState :=
  set_files_dirty (map_delete path (files state)) state.

Definition setFiles (v : StringMap jsstring) (state : ProjectState) : ProjectState :=
  mkProjectState (projectName state) (projectPath state) (projectMetadata state)
    v (currentFile state) (isDirty state) (isLoading state).

Definition getFile (path : jsstring) (state : ProjectState) : option jsstring :=
  map_get path (files state).

Definition setDirty (dirty : bool) (state : ProjectState) : ProjectState :=
  mkProjectState (projectName state) (projectPath state) (projectMetadata state)
    (files state) (currentFile state) dirty (isLoading state).

Definition reset (state : ProjectState) : ProjectState := initialState.

End ProjectStore.

(** A project with one file in its store. *)
Module ProjectStoreFixture.

Definition project : ProjectStore.ProjectState :=
  ProjectStore.mkProjectState (js "demo") (js "/projects/demo") None
    [(js "src/main.ts", js "let a;")] None false false.

End ProjectStoreFixture.

(** ** Deleting a file from the explorer (FileExplorer.tsx) *)

Section ExplorerDelete.

Variable World : Type.
Variable inherited : jsstring -> bool.
Variable sort : list FileInfo -> list FileInfo.
Variable join : jsstring -> jsstring -> jsstring.

(** What a click on the delete button of a file does in the renderer and,
    through the calls of [IPCClient], in the main process. *)
Inductive ExplorerEffect :=
| window_confirm (message : jsstring)
| in_main (x : FsEffect)
| listing_error (msg err : jsstring)
| explorer_console_error (msg : jsstring).

(** The explorer after the click: the project store, and the tree if
    [setFileTree] was called. *)
Record ExplorerOutcome := mkExplorerOutcome {
  ex_store : ProjectStore.ProjectState;
  ex_fileTree : option (list FileTreeNode);
  ex_world : World;
  ex_effects : list ExplorerEffect
}.

(** [handleDeleteFile(path, e)], lines 72 to 90: [confirmed] is the answer
    to [window.confirm], [readdir] what the directory of the project
    holds when the files are listed again. *)
Definition handleDeleteFile (node : NodeRuntime World) (confirmed : bool)
    (readdir : Result (list DirEntry)) (path : jsstring)
    (store : ProjectStore.ProjectState) (w : World) : ExplorerOutcome :=
  let asked := window_confirm (js "Delete " ++ path ++ js "?") in
  if negb confirmed then mkExplorerOutcome store None w [asked]
  else
    let projectPath := ProjectStore.projectPath store in
    let deleted := handleFileDelete node (projectPath ++ js "/" ++ path) w in
    let store1 := ProjectStore.deleteFile path store in
    let listed := handleFileList join projectPath (Some true) readdir in
    let main_effects :=
      map in_main (fs_effects deleted)
      ++ map (fun line => listing_error (fst line) (snd line)) (snd listed) in
    match fs_result deleted, fst listed with
    | Returned _, Ok fileList =>
        mkExplorerOutcome store1 (Some (buildFileTree inherited sort fileList))
          (fs_world deleted) (asked :: main_effects)
    | Returned _, Throw _ =>
        mkExplorerOutcome store1 None (fs_world deleted)
          (asked :: main_effects
           ++ [explorer_console_error (js "Failed to delete file:")])
    | Raised _, _ =>
        mkExplorerOutcome store None (fs_world deleted)
          (asked :: map in_main (fs_effects deleted)
           ++ [explorer_console_error (js "Failed to delete file:")])
    end.

End ExplorerDelete.

(** * The chat interface of the renderer (ChatInterface.tsx) *)

Module ChatInterface.

(** The state of the component. *)
Record ChatUI := mkChatUI {
  input : jsstring;
  selectedModel : jsstring;
  streamingText : jsstring
}.

(** The white space and the line terminators that [trim] takes off. *)
Definition is_whitespace (c : N) : bool :=
  (existsb (N.eqb c)
     [9; 10; 11; 12; 13; 32; 160; 5760; 8232; 8233; 8239; 8287; 12288; 65279]
   || (8192 <=? c) && (c <=? 8202))%N.

(** [!input.trim()]. *)
Definition blank (s : jsstring) : bool := forallb is_whitespace s.

(** The context that [handleSubmit] builds from the project store. *)
Definition context_of (project : ProjectStore.ProjectState) : jsstring :=
  (if truthy (ProjectStore.projectName project)
   then js "Project: " ++ ProjectStore.projectName project ++ [LF]
   else [])
  ++ match ProjectStore.currentFile project with
     | Some currentFile =>
         if truthy currentFile
         then js "Current file: " ++ currentFile ++ [LF]
         else []
     | None => []
     end.

(** The request that [handleSubmit] sends. *)
Definition request_of (project : ProjectStore.ProjectState) (ui : ChatUI)
  : GenerationRequest :=
  mkRequest (input ui) (Some (context_of project)) (Some (selectedModel ui))
    (Some (7 # 10)) (Some (2048 # 1)) None.

Definition message_id (t : Z) : jsstring := js "msg-" ++ show_Z t.

Record Submitted := mkSubmitted {
  sub_ui : ChatUI;
  sub_store : ChatStore.ChatState;
  sub_sent : option GenerationRequest;
  sub_logged : list (jsstring * jsstring)
}.

(** [handleSubmit(e)], lines 307 to 366 of the component.  [generateCode]
    is what [IPCClient.generateCode] answers; [t1] to [t4] are the
    readings of [Date.now()], the last two taken when the answer is
    there. *)
Definition handleSubmit (generateCode : GenerationRequest -> Result GenerationResponse)
    (t1 t2 t3 t4 : Z) (project : ProjectStore.ProjectState) (ui : ChatUI)
    (store : ChatStore.ChatState) : Submitted :=
  if blank (input ui) || ChatStore.isLoading store
  then mkSubmitted ui store None []
  else
    let userMessage :=
      ChatStore.mkMessage (message_id t1) ChatStore.user (input ui) (inject_Z t2)
        None None in
    let store1 :=
      ChatStore.setError None
        (ChatStore.setLoading true (ChatStore.addMessage userMessage store)) in
    let ui1 := mkChatUI [] (selectedModel ui) (streamingText ui) in
    let request := request_of project ui in
    match generateCode request with
    | Ok response =>
        let assistantMessage :=
          ChatStore.mkMessage (message_id (t3 + 1)) ChatStore.assistant
            (code response) (inject_Z t4)
            (Some (inject_Z (Z.of_nat (tokens response))))
            (Some (inject_Z (generationTime response))) in
        mkSubmitted ui1
          (ChatStore.setLoading false (ChatStore.addMessage assistantMessage store1))
          (Some request) []
    | Throw err =>
        mkSubmitted ui1
          (ChatStore.setLoading false (ChatStore.setError (Some err) store1))
          (Some request) [(js "Generation error:", err)]
    end.

End ChatInterface.

(** A prompt typed into the chat. *)
Module ChatFixture.

Definition asking : ChatInterface.ChatUI :=
  ChatInterface.mkChatUI (js "a counter") (js "codellama-7b-instruct.Q4_K_M.gguf") [].

End ChatFixture.
(** * The file manager: the list of projects *)

(** An entry of [fs.readdir] with file types. *)
Record Dirent := mkDirent {
  dirent_name : jsstring;
  dirent_isDirectory : bool
}.

Section Projects.

Variable World : Type.

(** What [JSON.parse] makes of a metadata file. *)
Variable Json : Type.

(** [fs.readdir(path, { withFileTypes: true })] and [JSON.parse]. *)
Variable fs_readdir : World -> jsstring -> World * Try (list Dirent).
Variable JSON_parse : jsstring -> Try Json.

Local Open Scope fs_scope.

Notation "x <- m ;; k" := (fs_bind m (fun x => k))
  (at level 61, m at next level, right associativity) : fs_scope.
Notation "m ;; k" := (fs_bind m (fun _ => k))
  (at level 61, right associativity) : fs_scope.

(** [getProjectMetadata(projectPath)], lines 591 to 600. *)
Definition getProjectMetadata (node : NodeRuntime World) (projectPath : jsstring)
  : Fs World Json :=
  fs_catch
    (let metadataPath := path_join node projectPath (js ".bolt-config.json") in
     content <- read node metadataPath ;;
     fun w => mkFsOutcome (JSON_parse content) w [])
    (fun error =>
       fs_emit (fs_console_error (js "Failed to get project metadata:") error) ;;
       fs_throw (new_Error (js "Failed to get project metadata: "
                            ++ error_message error))).

(** [entry.isDirectory() && !entry.name.startsWith('.')]. *)
Definition is_project (entry : Dirent) : bool :=
  dirent_isDirectory entry && negb (starts_with (js ".") (dirent_name entry)).

(** The loop of [listProjects]. *)
Fixpoint load_projects (node : NodeRuntime World) (projectsPath : jsstring)
    (entries : list Dirent) (projects : list Json) : Fs World (list Json) :=
  match entries with
  | [] => fs_ret projects
  | entry :: rest =>
      if is_project entry then
        projects1 <-
          fs_catch
            (metadata <- getProjectMetadata node
                           (path_join node projectsPath (dirent_name entry)) ;;
             fs_ret (projects ++ [metadata]))
            (fun error =>
               fs_emit (fs_console_warn
                          (js "Failed to load project metadata for "
                           ++ dirent_name entry ++ js ":") error) ;;
               fs_ret projects) ;;
        load_projects node projectsPath rest projects1
      else load_projects node projectsPath rest projects
  end.

(** [listProjects()], lines 633 to 654. *)
Definition listProjects (node : NodeRuntime World) (projectsPath : jsstring)
  : Fs World (list Json) :=
  fs_catch
    (entries <- fs_await (call_readdir projectsPath)
                  (fun w => fs_readdir w projectsPath) ;;
     load_projects node projectsPath entries [])
    (fun error =>
       fs_emit (fs_console_error (js "Failed to list projects:") error) ;;
       fs_throw error).

(** [handleProjectList()], lines 208 to 215 of ipc-handlers.ts. *)
Definition handleProjectList (node : NodeRuntime World) (projectsPath : jsstring)
  : Fs World (list Json) :=
  fs_catch (listProjects node projectsPath)
    (fun error =>
       fs_emit (fs_console_error (js "Project list error:") error) ;;
       fs_ret []).

(** The files read, and the warnings, of a list of effects. *)
Definition files_read (l : list FsEffect) : list jsstring :=
  flat_map (fun x => match x with call_fs_readFile path => [path] | _ => [] end) l.

Definition warnings (l : list FsEffect) : nat :=
  length (filter (fun x => match x with fs_console_warn _ _ => true | _ => false end) l).

End Projects.

(** * Properties of the model lifecycle *)

Section Lifecycle.

Context {Llama LlamaModel LlamaContext LlamaChatSession : Type}.
Implicit Types rt : Runtime Llama LlamaModel LlamaContext LlamaChatSession.
Implicit Types e : LLMEngine LlamaModel LlamaContext LlamaChatSession.

(** With a model in place [initialize] only says so. *)
Lemma initialize_loaded rt e m :
  model e = Some m ->
  initialize rt e = mkOutcome (Ok tt) e [console_log (js "Model already loaded")].
Proof.
  intros H. run. rewrite H. reflexivity.
Qed.

(** A successful [initialize] leaves a model in place. *)
Lemma initialize_ok_model rt e :
  result (initialize rt e) = Ok tt ->
  exists m, model (engine (initialize rt e)) = Some m.
Proof.
  run. destruct (model e) eqn:Hm; run.
  - intros _. eauto.
  - destruct (getLlama rt) as [l|]; run; [|discriminate].
    destruct (loadModel rt l _ _) as [md|]; run; [|discriminate].
    destruct (createContext rt md _ _) as [c|]; run; [|discriminate].
    destruct (newChatSession rt c) as [s|]; run; [|discriminate].
    eauto.
Qed.

(** [initialize] fails with no other error than its own, and is then no
    longer loading. *)
Lemma initialize_error rt e msg :
  result (initialize rt e) = Throw msg ->
  (exists err, msg = msg_initialize_failed err)
  /\ isLoading (engine (initialize rt e)) = false.
Proof.
  run. destruct (model e) eqn:Hm; run; [discriminate|].
  destruct (getLlama rt) as [l|err]; run.
  2:{ intros [= <-]. eauto. }
  destruct (loadModel rt l _ _) as [md|err]; run.
  2:{ intros [= <-]. eauto. }
  destruct (createContext rt md _ _) as [c|err]; run.
  2:{ intros [= <-]. eauto. }
  destruct (newChatSession rt c) as [s|err]; run.
  2:{ intros [= <-]. eauto. }
  discriminate.
Qed.

(** X4: when the runtime or the model fails to load, nothing was stored
    yet: an unloaded engine stays unloaded. *)
Lemma initialize_load_failure rt e :
  Unloaded e ->
  (forall l, getLlama rt = Ok l ->
     exists err,
       loadModel rt l (cfg_modelPath (config e)) (cfg_gpuLayers (config e))
       = Throw err) ->
  Unloaded (engine (initialize rt e)).
Proof.
  intros (Hm & Hc & Hs) Hfail. run. rewrite Hm.
  destruct (getLlama rt) as [l|err] eqn:Hl; run.
  - destruct (Hfail l eq_refl) as [err ->]. run. repeat split; assumption.
  - repeat split; assumption.
Qed.

(** C2: when the model loads and the allocation of its context fails,
    [initialize] fails with its load error, and the engine is left with the
    model it had just stored: it is not back in the unloaded state. *)
Theorem initialize_context_failure_keeps_model rt e l md err :
  Unloaded e ->
  getLlama rt = Ok l ->
  loadModel rt l (cfg_modelPath (config e)) (cfg_gpuLayers (config e)) = Ok md ->
  createContext rt md (cfg_contextSize (config e)) (cfg_batchSize (config e))
  = Throw err ->
  result (initialize rt e) = Throw (msg_initialize_failed err)
  /\ model (engine (initialize rt e)) = Some md
  /\ context (engine (initialize rt e)) = None
  /\ session (engine (initialize rt e)) = None
  /\ isModelLoaded (engine (initialize rt e)) = false.
Proof.
  intros (Hm & Hc & Hs) Hl Hmd Hctx. run.
  rewrite Hm, Hl. run. rewrite Hmd. run. rewrite Hctx. run.
  unfold isModelLoaded. run. rewrite Hc.
  repeat split; assumption.
Qed.

(** With a model in place a second [initialize] is the same as the
    first: a log line and no more. *)
Lemma initialize_again rt rt' e :
  result (initialize rt e) = Ok tt ->
  initialize rt' (engine (initialize rt e))
  = mkOutcome (Ok tt) (engine (initialize rt e))
      [console_log (js "Model already loaded")].
Proof.
  intros H. destruct (initialize_ok_model rt e H) as [m Hm].
  exact (initialize_loaded rt' _ Hm).
Qed.

(** What a first [initialize] does on an engine with nothing loaded, when
    every call of the runtime succeeds. *)
Lemma initialize_loads rt e l md c s :
  Unloaded e ->
  getLlama rt = Ok l ->
  loadModel rt l (cfg_modelPath (config e)) (cfg_gpuLayers (config e)) = Ok md ->
  createContext rt md (cfg_contextSize (config e)) (cfg_batchSize (config e))
  = Ok c ->
  newChatSession rt c = Ok s ->
  initialize rt e
  = mkOutcome (Ok tt)
      (set_isLoading false
         (set_session (Some s)
            (set_context (Some c) (set_model (Some md) (set_isLoading true e)))))
      [console_log (js "Loading model from: " ++ cfg_modelPath (config e));
       call_getLlama;
       call_loadModel (cfg_modelPath (config e)) (cfg_gpuLayers (config e));
       call_createContext md (cfg_contextSize (config e)) (cfg_batchSize (config e));
       call_newChatSession c;
       console_log (js "LLM engine initialized successfully")].
Proof.
  intros (Hm & _ & _) Hl Hmd Hc Hs. run.
  rewrite Hm, Hl. run. rewrite Hmd. run. rewrite Hc. run. rewrite Hs. reflexivity.
Qed.

(** C7: on an engine with nothing loaded and a configuration whose model
    loads, [initialize] loads that model, with one call of [loadModel],
    and the engine is loaded.  A second [initialize], with no [unload] in
    between, changes nothing in the engine and asks nothing of the
    runtime, whatever the runtime would answer: it logs that the model is
    already loaded and returns, and the model of the first call is still
    the one loaded.  On an engine that is loaded already both calls are
    of that second kind. *)
Theorem initialize_twice rt rt' e :
  (forall l md c s,
     Unloaded e ->
     getLlama rt = Ok l ->
     loadModel rt l (cfg_modelPath (config e)) (cfg_gpuLayers (config e)) = Ok md ->
     createContext rt md (cfg_contextSize (config e)) (cfg_batchSize (config e))
     = Ok c ->
     newChatSession rt c = Ok s ->
     let first := initialize rt e in
     let second := initialize rt' (engine first) in
     result first = Ok tt
     /\ effects first
        = [console_log (js "Loading model from: " ++ cfg_modelPath (config e));
           call_getLlama;
           call_loadModel (cfg_modelPath (config e)) (cfg_gpuLayers (config e));
           call_createContext md (cfg_contextSize (config e))
             (cfg_batchSize (config e));
           call_newChatSession c;
           console_log (js "LLM engine initialized successfully")]
     /\ (model (engine first) = Some md /\ context (engine first) = Some c
         /\ session (engine first) = Some s)
     /\ isModelLoaded (engine first) = true
     /\ second
        = mkOutcome (Ok tt) (engine first) [console_log (js "Model already loaded")]
     /\ model (engine second) = Some md
     /\ isModelLoaded (engine second) = true)
  /\ (isModelLoaded e = true ->
      let first := initialize rt e in
      let second := initialize rt' (engine first) in
      first = mkOutcome (Ok tt) e [console_log (js "Model already loaded")]
      /\ second = mkOutcome (Ok tt) e [console_log (js "Model already loaded")]
      /\ model (engine second) = model e
      /\ isModelLoaded (engine second) = true).
Proof.
  split.
  - intros l md c s Hun Hl Hmd Hc Hs first second. subst second first.
    rewrite (@initialize_loads rt e l md c s Hun Hl Hmd Hc Hs).
    cbn [result engine effects].
    split; [reflexivity|]. split; [reflexivity|].
    split; [repeat split|]. split; [reflexivity|].
    split; [|split; reflexivity].
    apply (@initialize_loaded rt' _ md). reflexivity.
  - intros Hloaded first second. subst second first.
    assert (Hm : exists m, model e = Some m).
    { unfold isModelLoaded in Hloaded. destruct (model e) as [m|]; [eauto|discriminate]. }
    destruct Hm as [m Hm].
    rewrite (@initialize_loaded rt e m Hm). cbn [engine].
    rewrite (@initialize_loaded rt' e m Hm). cbn [engine].
    repeat split. exact Hloaded.
Qed.

(** [unload] returns, whatever the runtime does. *)
Lemma unload_returns rt e : result (unload rt e) = Ok tt.
Proof.
  run.
  destruct (context e) as [c|]; run.
  - destruct (contextDispose rt c) as [[]|err]; run; [|reflexivity].
    destruct (model e) as [m|]; run; [|reflexivity].
    destruct (modelDispose rt m) as [[]|err]; reflexivity.
  - destruct (model e) as [m|]; run; [|reflexivity].
    destruct (modelDispose rt m) as [[]|err]; reflexivity.
Qed.

(** C9: [unload] never throws, and with nothing loaded it changes nothing
    and calls nothing but the console.  It disposes of the context first,
    then of the model, then clears the session, as long as no disposal
    fails.  An error of a disposal is logged and swallowed, and ends the
    unloading where it occurred: when the disposal of the context fails
    the model is not disposed of and model, context and session all stay
    in place; when the disposal of the model fails the model and the
    session stay in place. *)
Theorem unload_ends_at_disposal_error rt e :
  result (unload rt e) = Ok tt
  /\ (Unloaded e ->
      engine (unload rt e) = e
      /\ effects (unload rt e) = [console_log (js "LLM engine unloaded")])
  /\ match context e with
     | Some c =>
         match contextDispose rt c with
         | Throw err =>
             engine (unload rt e) = e
             /\ effects (unload rt e)
                = [call_contextDispose c;
                   console_error (js "Error unloading LLM engine:") err]
         | Ok _ =>
             match model e with
             | Some m =>
                 match modelDispose rt m with
                 | Throw err =>
                     engine (unload rt e) = set_context None e
                     /\ effects (unload rt e)
                        = [call_contextDispose c; call_modelDispose m;
                           console_error (js "Error unloading LLM engine:") err]
                 | Ok _ =>
                     engine (unload rt e)
                     = set_session None (set_model None (set_context None e))
                     /\ effects (unload rt e)
                        = [call_contextDispose c; call_modelDispose m;
                           console_log (js "LLM engine unloaded")]
                 end
             | None =>
                 engine (unload rt e) = set_session None (set_context None e)
                 /\ effects (unload rt e)
                    = [call_contextDispose c; console_log (js "LLM engine unloaded")]
             end
         end
     | None =>
         match model e with
         | Some m =>
             match modelDispose rt m with
             | Throw err =>
                 engine (unload rt e) = e
                 /\ effects (unload rt e)
                    = [call_modelDispose m;
                       console_error (js "Error unloading LLM engine:") err]
             | Ok _ =>
                 engine (unload rt e) = set_session None (set_model None e)
                 /\ effects (unload rt e)
                    = [call_modelDispose m; console_log (js "LLM engine unloaded")]
             end
         | None =>
             engine (unload rt e) = set_session None e
             /\ effects (unload rt e) = [console_log (js "LLM engine unloaded")]
         end
     end.
Proof.
  split; [apply unload_returns|]. split.
  - intros (Hm & Hc & Hs). run. rewrite Hc. run. rewrite Hm. run.
    split; [|reflexivity].
    destruct e; cbn in *. subst. reflexivity.
  - run. destruct (context e) as [c|] eqn:Hc; run.
    + destruct (contextDispose rt c) as [[]|err]; run; [|split; reflexivity].
      destruct (model e) as [m|] eqn:Hm; run; [|split; reflexivity].
      destruct (modelDispose rt m) as [[]|err]; run; split; reflexivity.
    + destruct (model e) as [m|] eqn:Hm; run; [|split; reflexivity].
      destruct (modelDispose rt m) as [[]|err]; run; split; reflexivity.
Qed.

(** After an [unload] whose disposals succeed nothing is loaded, and the
    configuration is the one before. *)
Lemma unload_unloads rt e :
  (forall c, contextDispose rt c = Ok tt) ->
  (forall m, modelDispose rt m = Ok tt) ->
  Unloaded (engine (unload rt e))
  /\ config (engine (unload rt e)) = config e.
Proof.
  intros Hc Hm. run.
  destruct (context e) as [c|] eqn:Ec; run.
  - rewrite Hc. run. destruct (model e) as [m|] eqn:Em; run.
    + rewrite Hm. run. repeat split.
    + repeat split; assumption.
  - destruct (model e) as [m|] eqn:Em; run.
    + rewrite Hm. run. repeat split; assumption.
    + repeat split; assumption.
Qed.

(** From a state without a model [initialize] asks the runtime for the
    model at the configured path. *)
Lemma initialize_loads_configured_path rt e l :
  model e = None ->
  getLlama rt = Ok l ->
  In (call_loadModel (cfg_modelPath (config e)) (cfg_gpuLayers (config e)))
     (effects (initialize rt e)).
Proof.
  intros Hm Hl. run. rewrite Hm, Hl. run.
  destruct (loadModel rt l _ _) as [md|]; run.
  - destruct (createContext rt md _ _) as [c|]; run.
    + destruct (newChatSession rt c) as [s|]; run; right; right; left; reflexivity.
    + right; right; left; reflexivity.
  - right; right; left; reflexivity.
Qed.

(** C10: with a model loaded, the load handler answers success for any
    path: the model, the context and the session stay as they were, the
    runtime is not called, and the path is only stored in the
    configuration, from where the next load after an unload takes it. *)
Theorem handleLoadModel_when_loaded rt path e m :
  model e = Some m ->
  let o := handleLoadModel rt path e in
  result o = Ok (mkLoadResponse true (js "Model loaded successfully"))
  /\ model (engine o) = model e
  /\ context (engine o) = context e
  /\ session (engine o) = session e
  /\ cfg_modelPath (config (engine o)) = path
  /\ effects o = [console_log (js "Model already loaded")]
  /\ (forall rt' l,
        (forall c, contextDispose rt' c = Ok tt) ->
        (forall md, modelDispose rt' md = Ok tt) ->
        getLlama rt' = Ok l ->
        In (call_loadModel path (cfg_gpuLayers (config e)))
           (effects (initialize rt' (engine (unload rt' (engine o)))))).
Proof.
  intros Hm o.
  assert (Ho : o = mkOutcome
                     (Ok (mkLoadResponse true (js "Model loaded successfully")))
                     (set_config
                        (merge_config (config e)
                           (mkPartial (Some path) None None None None None None))
                        e)
                     [console_log (js "Model already loaded")]).
  { subst o. run. rewrite Hm. reflexivity. }
  rewrite Ho. cbn [result engine effects]. repeat split.
  intros rt' l Hc Hmd Hl.
  match goal with
  | |- In _ (effects (initialize _ (engine (unload _ ?e1)))) =>
      destruct (unload_unloads rt' e1 Hc Hmd) as ((Hm' & _) & Hcfg);
      pose proof (initialize_loads_configured_path rt'
                    (engine (unload rt' e1)) Hm' Hl) as Hin;
      rewrite Hcfg in Hin; exact Hin
  end.
Qed.

End Lifecycle.

Lemma initialize_context_failure_witness :
  result (initialize Fixture.rt_context_fails Fixture.fresh)
    = Throw (msg_initialize_failed (js "out of memory"))
  /\ model (engine (initialize Fixture.rt_context_fails Fixture.fresh))
    = Some (js "/models/a.gguf")
  /\ isModelLoaded (engine (initialize Fixture.rt_context_fails Fixture.fresh))
    = false.
Proof.
  destruct (@initialize_context_failure_keeps_model
              unit jsstring jsstring (list jsstring)
              Fixture.rt_context_fails Fixture.fresh tt
              (js "/models/a.gguf") (js "out of memory"))
    as (Hr & Hm & _ & _ & Hl); try reflexivity.
  - repeat split.
  - split; [exact Hr|]. split; [exact Hm|exact Hl].
Defined.

Lemma initialize_twice_witness :
  result (initialize (Fixture.rt_ok []) Fixture.fresh) = Ok tt
  /\ isModelLoaded (engine (initialize (Fixture.rt_ok []) Fixture.fresh)) = true
  /\ model (engine (initialize (Fixture.rt_ok []) Fixture.fresh))
     = Some (js "/models/a.gguf")
  /\ initialize Fixture.rt_load_fails
       (engine (initialize (Fixture.rt_ok []) Fixture.fresh))
     = mkOutcome (Ok tt) (engine (initialize (Fixture.rt_ok []) Fixture.fresh))
         [console_log (js "Model already loaded")].
Proof.
  assert (Hun : Unloaded Fixture.fresh) by (repeat split).
  destruct (proj1 (@initialize_twice unit jsstring jsstring (list jsstring)
                     (Fixture.rt_ok []) Fixture.rt_load_fails Fixture.fresh)
              tt (js "/models/a.gguf") (js "/models/a.gguf") [] Hun
              eq_refl eq_refl eq_refl eq_refl)
    as (Hr & _ & (Hm & _) & Hloaded & Hsecond & _).
  split; [exact Hr|]. split; [exact Hloaded|]. split; [exact Hm|exact Hsecond].
Defined.

Lemma unload_ends_at_disposal_error_witness :
  result (unload Fixture.rt_dispose_fails Fixture.loaded) = Ok tt
  /\ engine (unload Fixture.rt_dispose_fails Fixture.loaded) = Fixture.loaded
  /\ isModelLoaded (engine (unload Fixture.rt_dispose_fails Fixture.loaded)) = true
  /\ effects (unload Fixture.rt_dispose_fails Fixture.loaded)
     = [call_contextDispose (js "/models/a.gguf");
        console_error (js "Error unloading LLM engine:") (js "busy")].
Proof.
  destruct (@unload_ends_at_disposal_error unit jsstring jsstring (list jsstring)
              Fixture.rt_dispose_fails Fixture.loaded) as (Hr & _ & Hfail).
  assert (H : engine (unload Fixture.rt_dispose_fails Fixture.loaded)
              = Fixture.loaded
              /\ effects (unload Fixture.rt_dispose_fails Fixture.loaded)
                 = [call_contextDispose (js "/models/a.gguf");
                    console_error (js "Error unloading LLM engine:") (js "busy")])
    by exact Hfail.
  destruct H as [Hengine Heffects].
  split; [exact Hr|]. split; [exact Hengine|].
  split; [rewrite Hengine; reflexivity|exact Heffects].
Defined.

Lemma handleLoadModel_when_loaded_witness :
  model Fixture.loaded = Some (js "/models/a.gguf")
  /\ result (handleLoadModel (Fixture.rt_ok []) (js "/models/b.gguf") Fixture.loaded)
     = Ok (mkLoadResponse true (js "Model loaded successfully"))
  /\ model (engine (handleLoadModel (Fixture.rt_ok []) (js "/models/b.gguf")
                      Fixture.loaded))
     = Some (js "/models/a.gguf").
Proof.
  pose proof (@handleLoadModel_when_loaded unit jsstring jsstring (list jsstring)
                (Fixture.rt_ok []) (js "/models/b.gguf") Fixture.loaded
                (js "/models/a.gguf") eq_refl) as H.
  cbv zeta in H. destruct H as (Hr & Hm & _).
  split; [reflexivity|]. split; [exact Hr|]. rewrite Hm. reflexivity.
Defined.

(** * Properties of generation *)

Lemma chunkSize_pos : 0 < chunkSize.
Proof. unfold chunkSize. lia. Qed.

(** The loop runs round [k] exactly when [k] is below [chunk_count]. *)
Lemma round_in_range len k :
  chunkSize * k < len <-> k < chunk_count len.
Proof.
  unfold chunk_count. pose proof chunkSize_pos as Hc.
  split; intros H.
  - apply Nat.div_le_lower_bound; [lia|]. rewrite Nat.mul_succ_r. lia.
  - pose proof (Nat.Div0.mul_div_le (len + (chunkSize - 1)) chunkSize) as Hd.
    assert (chunkSize * S k <= chunkSize * ((len + (chunkSize - 1)) / chunkSize))
      by (apply Nat.mul_le_mono_l; lia).
    rewrite Nat.mul_succ_r in *. lia.
Qed.

(** The fuel [generateStream] gives its loop covers all its rounds. *)
Lemma chunk_count_le len : chunk_count len <= len.
Proof.
  unfold chunk_count. destruct len as [|n]; [reflexivity|].
  apply Nat.Div0.div_le_upper_bound. unfold chunkSize. lia.
Qed.

Lemma chunk_events_succ text k n :
  chunk_events text k (S n) = Chunk (nth_chunk text k) :: chunk_events text (S k) n.
Proof. reflexivity. Qed.

Section Streaming.

Context {Llama LlamaModel LlamaContext LlamaChatSession : Type}.
Implicit Types rt : Runtime Llama LlamaModel LlamaContext LlamaChatSession.
Implicit Types e : LLMEngine LlamaModel LlamaContext LlamaChatSession.

Lemma events_app (a b : list (Effect LlamaModel LlamaContext LlamaChatSession)) :
  events (a ++ b) = events a ++ events b.
Proof.
  induction a as [|x a IH]; cbn; [reflexivity|].
  destruct x; cbn; rewrite ?IH; reflexivity.
Qed.

Local Opaque chunkSize.

(** The loop, from round [k] on, in an engine whose flag is the one round
    [k] is to read: it sends the chunks of the rounds before the first one
    that reads the flag set and ends on the cancellation error, or sends
    all the chunks left and falls through. *)
Lemma stream_loop_events cancel_at text fuel : forall k e,
  isCancelled e = flag_at cancel_at k ->
  chunk_count (length text) - k <= fuel ->
  let o := stream_loop fuel cancel_at text (chunkSize * k) e in
  match find (flag_at cancel_at) (seq k (chunk_count (length text) - k)) with
  | Some c =>
      result o = Ok true
      /\ events (effects o) = chunk_events text k (c - k) ++ [Error msg_cancelled]
  | None =>
      result o = Ok false
      /\ events (effects o) = chunk_events text k (chunk_count (length text) - k)
  end.
Proof.
  induction fuel as [|fuel IH]; intros k e Hflag Hfuel.
  - replace (chunk_count (length text) - k) with 0 by lia. cbn. split; reflexivity.
  - cbn [stream_loop].
    destruct (Nat.ltb_spec (chunkSize * k) (length text)) as [Hlt|Hge].
    + apply round_in_range in Hlt.
      destruct (chunk_count (length text) - k) as [|m] eqn:Hm; [lia|].
      cbn [seq find]. run. rewrite Hflag.
      destruct (flag_at cancel_at k) eqn:Hk.
      * rewrite Nat.sub_diag. cbn. split; reflexivity.
      * rewrite (Nat.mul_comm chunkSize k), Nat.div_mul
          by (pose proof chunkSize_pos; lia).
        rewrite (Nat.mul_comm k chunkSize).
        replace (chunkSize * k + chunkSize) with (chunkSize * S k)
          by (rewrite Nat.mul_succ_r; reflexivity).
        set (e' := if cancel_at (2 + k) then set_isCancelled true e else e).
        assert (Hflag' : isCancelled e' = flag_at cancel_at (S k)).
        { subst e'. cbn [flag_at]. rewrite Hk.
          destruct (cancel_at (2 + k)); cbn; [reflexivity|].
          rewrite Hflag. reflexivity. }
        assert (Hm' : chunk_count (length text) - S k = m) by lia.
        specialize (IH (S k) e' Hflag' ltac:(lia)). cbv zeta in IH.
        rewrite Hm' in IH.
        destruct (stream_loop fuel cancel_at text (chunkSize * S k) e')
          as [r e2 l2].
        cbn [result effects events] in *.
        destruct (find (flag_at cancel_at) (seq (S k) m)) as [c|] eqn:Hfind;
          destruct IH as (Hr & Hev); (split; [exact Hr|]); rewrite Hev.
        -- apply find_some in Hfind. destruct Hfind as (Hin & _).
           apply in_seq in Hin.
           replace (c - k) with (S (c - S k)) by lia.
           rewrite chunk_events_succ. unfold nth_chunk.
           rewrite Nat.mul_succ_r. reflexivity.
        -- rewrite chunk_events_succ. unfold nth_chunk.
           rewrite Nat.mul_succ_r. reflexivity.
    + assert (~ k < chunk_count (length text)) by (rewrite <- round_in_range; lia).
      replace (chunk_count (length text) - k) with 0 by lia. cbn. split; reflexivity.
Qed.

(** The events of one call of [generateStream], whatever the engine, the
    runtime and the calls of [cancel()]. *)
Lemma generateStream_events rt cancel_at t0 t1 request e :
  events (effects (generateStream rt cancel_at t0 t1 request e)) =
  match session e with
  | None => [Error msg_not_initialized]
  | Some s =>
      if isLoading e then [Error msg_still_loading]
      else
        Start (req_prompt request) ::
        match snd (prompt rt s (fullPrompt request)
                     (prompt_options (config e) request)) with
        | Ok text =>
            match first_seen cancel_at text with
            | Some c => chunk_events text 0 c ++ [Error msg_cancelled]
            | None =>
                chunk_events text 0 (chunk_count (length text))
                  ++ [End (ceil_div4 (length text)) (t1 - t0) (length text)]
            end
        | Throw err =>
            if flag_at cancel_at 0 then []
            else [Error (msg_generation_failed err)]
        end
  end.
Proof.
  run.
  destruct (session e) as [s|] eqn:Hs; [|reflexivity].
  destruct (isLoading e) eqn:Hl; [reflexivity|].
  assert (Hs1 : session (if cancel_at 0
                         then set_isCancelled true (set_isCancelled false e)
                         else set_isCancelled false e) = Some s)
    by (destruct (cancel_at 0); exact Hs).
  assert (Hc1 : config (if cancel_at 0
                        then set_isCancelled true (set_isCancelled false e)
                        else set_isCancelled false e) = config e)
    by (destruct (cancel_at 0); reflexivity).
  rewrite Hs1, Hc1.
  destruct (prompt rt s (fullPrompt request) (prompt_options (config e) request))
    as [s' [text|err]]; run.
  - match goal with
    | |- context [stream_loop _ _ _ _ ?e2] =>
        assert (Hf2 : isCancelled e2 = flag_at cancel_at 0)
          by (cbn [flag_at]; destruct (cancel_at 0), (cancel_at 1); reflexivity);
        pose proof (@stream_loop_events cancel_at text (length text) 0 e2 Hf2
                      ltac:(pose proof (chunk_count_le (length text)); lia))
          as Hloop;
        cbv zeta in Hloop; rewrite Nat.mul_0_r, Nat.sub_0_r in Hloop;
        destruct (stream_loop (length text) cancel_at text 0 e2) as [r e3 l3]
    end.
    unfold first_seen. cbn [result effects] in Hloop.
    destruct (find (flag_at cancel_at) (seq 0 (chunk_count (length text))))
      as [c|]; destruct Hloop as (-> & Hev); cbn [effects events];
      rewrite ?app_nil_r, ?events_app, Hev, ?Nat.sub_0_r; reflexivity.
  - cbn [flag_at].
    destruct (cancel_at 0), (cancel_at 1); reflexivity.
Qed.

(** The loop never throws. *)
Lemma stream_loop_returns cancel_at text fuel : forall i e,
  exists b, result (stream_loop fuel cancel_at text i e) = Ok b.
Proof.
  induction fuel as [|fuel IH]; intros i e; [eexists; reflexivity|].
  cbn [stream_loop]. destruct (i <? length text); [|eexists; reflexivity].
  run. destruct (isCancelled e); [eexists; reflexivity|].
  match goal with
  | |- context [stream_loop fuel cancel_at text ?j ?e'] =>
      destruct (IH j e') as [b Hb];
      destruct (stream_loop fuel cancel_at text j e') as [r e2 l2]
  end.
  cbn [result] in *. subst r. eexists; reflexivity.
Qed.

(** X1: the generator never throws, whatever the engine, the runtime and
    the calls of [cancel()]. *)
Lemma generateStream_returns rt cancel_at t0 t1 request e :
  result (generateStream rt cancel_at t0 t1 request e) = Ok tt.
Proof.
  run.
  destruct (session e) as [s|] eqn:Hs; [|reflexivity].
  destruct (isLoading e) eqn:Hl; [reflexivity|].
  assert (Hs1 : session (if cancel_at 0
                         then set_isCancelled true (set_isCancelled false e)
                         else set_isCancelled false e) = Some s)
    by (destruct (cancel_at 0); exact Hs).
  rewrite Hs1.
  match goal with
  | |- context [prompt ?a ?b ?c ?d] => destruct (prompt a b c d) as [s' [text|err]]
  end; run.
  - match goal with
    | |- context [stream_loop ?a ?b ?c ?d ?e2] =>
        destruct (@stream_loop_returns b c a d e2) as [r Hr];
        destruct (stream_loop a b c d e2) as [r' e3 l3]
    end.
    cbn [result] in Hr. subst r'. destruct r; reflexivity.
  - destruct (cancel_at 0), (cancel_at 1); reflexivity.
Qed.

End Streaming.

(** ** Facts on code-fence extraction *)

(** A text without a backtick has no fenced block. *)
Lemma codeMatch_no_backtick text :
  ~ In BACKTICK text -> codeMatch text = None.
Proof.
  induction text as [|c text IH]; intros Hin; [reflexivity|].
  cbn [codeMatch]. unfold match_here.
  assert (Hc : N.eqb BACKTICK c = false).
  { apply N.eqb_neq. intros Heq. apply Hin. left. symmetry. exact Heq. }
  cbn [fence starts_with]. rewrite Hc. cbn [andb].
  apply IH. intros H. apply Hin. right. exact H.
Qed.

Example codeMatch_tagged_block :
  codeMatch Fixture.fenced = Some (js "let x = 1;").
Proof. reflexivity. Qed.

Example codeMatch_first_block :
  codeMatch (js "Here: " ++ fence ++ [LF] ++ js "a" ++ [LF] ++ fence
               ++ js " and " ++ fence ++ [LF] ++ js "b" ++ [LF] ++ fence)
  = Some (js "a").
Proof. reflexivity. Qed.

Example codeMatch_unclosed_block :
  codeMatch (fence ++ js "ts" ++ [LF] ++ js "let x = 1;") = None.
Proof. reflexivity. Qed.

Example codeMatch_text_on_fence_line :
  codeMatch (fence ++ js "not a tag" ++ [LF] ++ js "a" ++ [LF] ++ fence) = None.
Proof. reflexivity. Qed.

(** ** Facts on lists of events and on chunks *)

Lemma firstn_then_firstn {A : Type} (a b : nat) (l : list A) :
  firstn a l ++ firstn b (skipn a l) = firstn (a + b) l.
Proof.
  revert l. induction a as [|a IH]; intros l; [reflexivity|].
  destruct l as [|x l]; cbn [firstn skipn Nat.add app].
  - destruct b; reflexivity.
  - rewrite IH. reflexivity.
Qed.

Section Chunks.

Local Opaque chunkSize.

(** The fragments of consecutive rounds, put together, are a stretch of
    the text. *)
Lemma concat_chunks text n : forall k,
  concat (map (nth_chunk text) (seq k n))
  = firstn (chunkSize * n) (skipn (chunkSize * k) text).
Proof.
  induction n as [|n IH]; intros k.
  - rewrite Nat.mul_0_r. reflexivity.
  - cbn [seq map concat]. rewrite IH.
    unfold nth_chunk, substring.
    replace (chunkSize * k + chunkSize - chunkSize * k) with chunkSize by lia.
    replace (chunkSize * S k) with (chunkSize + chunkSize * k)
      by (rewrite Nat.mul_succ_r; lia).
    rewrite <- skipn_skipn.
    rewrite firstn_then_firstn.
    rewrite Nat.mul_succ_r, (Nat.add_comm (chunkSize * n) chunkSize).
    reflexivity.
Qed.

(** All the fragments put together are the text. *)
Lemma concat_all_chunks text :
  concat (map (nth_chunk text) (seq 0 (chunk_count (length text)))) = text.
Proof.
  rewrite concat_chunks, Nat.mul_0_r. cbn [skipn].
  apply firstn_all2.
  destruct (Nat.le_gt_cases (length text) (chunkSize * chunk_count (length text)))
    as [H|H]; [exact H|].
  apply round_in_range in H. lia.
Qed.

End Chunks.

Lemma payloads_app a b : payloads (a ++ b) = payloads a ++ payloads b.
Proof.
  induction a as [|m a IH]; [reflexivity|].
  destruct m; cbn [app payloads]; rewrite IH; reflexivity.
Qed.

Lemma payloads_chunk_events text k n :
  payloads (chunk_events text k n) = map (nth_chunk text) (seq k n).
Proof.
  unfold chunk_events. revert k.
  induction n as [|n IH]; intros k; [reflexivity|].
  cbn [seq map payloads]. rewrite IH. reflexivity.
Qed.

Lemma chunks_then_terminal_chunk_events text k n t :
  is_terminal t = true ->
  chunks_then_terminal (chunk_events text k n ++ [t]) = true.
Proof.
  intros Ht. revert k. induction n as [|n IH]; intros k.
  - cbn. exact Ht.
  - rewrite chunk_events_succ. cbn [app chunks_then_terminal].
    specialize (IH (S k)).
    destruct (chunk_events text (S k) n ++ [t]) eqn:E.
    + destruct (chunk_events text (S k) n); discriminate E.
    + exact IH.
Qed.

Lemma filter_chunk_events (p : StreamMessage -> bool) text k n :
  (forall d, p (Chunk d) = false) ->
  filter p (chunk_events text k n) = [].
Proof.
  intros Hp. unfold chunk_events. revert k.
  induction n as [|n IH]; intros k; [reflexivity|].
  cbn [seq map filter]. rewrite Hp. apply IH.
Qed.

(** What [well_ordered] says, in counts and positions. *)
Lemma well_ordered_spec l :
  well_ordered l = true ->
  (exists p rest, l = Start p :: rest)
  /\ length (filter is_start l) = 1
  /\ length (filter is_terminal l) = 1
  /\ (exists init t, l = init ++ [t] /\ is_terminal t = true
        /\ filter is_terminal init = []).
Proof.
  destruct l as [|[p| | |] rest]; try discriminate. cbn [well_ordered].
  intros H.
  assert (Hrest : filter is_start rest = []
                  /\ length (filter is_terminal rest) = 1
                  /\ exists init t, rest = init ++ [t] /\ is_terminal t = true
                       /\ filter is_terminal init = []).
  { clear p. induction rest as [|m rest IH]; [discriminate|].
    cbn [chunks_then_terminal] in H. destruct rest as [|m' rest'].
    - destruct m; try discriminate; cbn; (split; [reflexivity|]);
        (split; [reflexivity|]); exists [];
        eexists; (split; [reflexivity|]); split; reflexivity.
    - apply andb_true_iff in H. destruct H as (Hm & H).
      destruct m; try discriminate.
      destruct (IH H) as (Hs & Ht & init & t & Hi & Hterm & Hinit).
      cbn [filter is_start is_terminal is_end is_error orb].
      split; [exact Hs|]. split; [exact Ht|].
      exists (Chunk data :: init), t. rewrite Hi.
      split; [reflexivity|]. split; [exact Hterm|].
      cbn [filter is_terminal is_end is_error orb]. exact Hinit. }
  destruct Hrest as (Hs & Ht & init & t & Hi & Hterm & Hinit).
  split; [eauto|].
  cbn [filter is_start is_terminal is_end is_error orb length].
  rewrite Hs. split; [reflexivity|]. split; [exact Ht|].
  exists (Start p :: init), t. rewrite Hi.
  split; [reflexivity|]. split; [exact Hterm|]. exact Hinit.
Qed.

(** Once set, the flag stays set for the rounds to come. *)
Lemma flag_at_mono cancel_at k k' :
  k <= k' -> flag_at cancel_at k = true -> flag_at cancel_at k' = true.
Proof.
  induction 1 as [|k' _ IH]; [trivial|].
  intros H. cbn [flag_at]. rewrite (IH H). reflexivity.
Qed.

(** The first hit of [find] over a stretch of numbers has no hit before it. *)
Lemma find_seq_first (p : nat -> bool) n : forall a c,
  find p (seq a n) = Some c ->
  a <= c < a + n /\ p c = true /\ forall j, a <= j < c -> p j = false.
Proof.
  induction n as [|n IH]; intros a c; [discriminate|].
  cbn [seq find]. destruct (p a) eqn:Hpa.
  - intros [= <-]. repeat split; [lia|lia|exact Hpa|]. intros j Hj. lia.
  - intros H. destruct (IH _ _ H) as (Hr & Hc & Hfirst).
    repeat split; [lia|lia|exact Hc|].
    intros j Hj. destruct (Nat.eq_dec j a) as [->|Hne]; [exact Hpa|].
    apply Hfirst. lia.
Qed.

Lemma find_seq_none (p : nat -> bool) n a :
  find p (seq a n) = None -> forall j, a <= j < a + n -> p j = false.
Proof.
  intros H j Hj. apply (find_none _ _ H). apply in_seq. exact Hj.
Qed.

Section Generation.

Context {Llama LlamaModel LlamaContext LlamaChatSession : Type}.
Implicit Types rt : Runtime Llama LlamaModel LlamaContext LlamaChatSession.
Implicit Types e : LLMEngine LlamaModel LlamaContext LlamaChatSession.
Implicit Types sys : System LlamaModel LlamaContext LlamaChatSession.

Lemma prompts_app (a b : list (Effect LlamaModel LlamaContext LlamaChatSession)) :
  prompts (a ++ b) = prompts a ++ prompts b.
Proof.
  induction a as [|x a IH]; cbn; [reflexivity|].
  destruct x; cbn; rewrite ?IH; reflexivity.
Qed.

(** The loop hands nothing to the session. *)
Lemma stream_loop_prompts cancel_at text fuel : forall i e,
  prompts (effects (stream_loop fuel cancel_at text i e)) = [].
Proof.
  induction fuel as [|fuel IH]; intros i e; [reflexivity|].
  cbn [stream_loop]. destruct (i <? length text); [|reflexivity].
  run. destruct (isCancelled e); [reflexivity|].
  match goal with
  | |- context [stream_loop fuel cancel_at text ?j ?e'] =>
      pose proof (IH j e') as H;
      destruct (stream_loop fuel cancel_at text j e') as [r e2 l2]
  end.
  cbn [effects prompts] in *. exact H.
Qed.

(** An accepted [generate] hands the session one prompt. *)
Lemma generate_prompts rt b t0 t1 request e s :
  session e = Some s ->
  isLoading e = false ->
  prompts (effects (generate rt b t0 t1 request e))
  = [(fullPrompt request, prompt_options (config e) request)].
Proof.
  intros Hs Hl. run. rewrite Hs, Hl. run. rewrite Hs.
  destruct (prompt rt s _ _) as [s' [text|err]]; run.
  - reflexivity.
  - destruct b; reflexivity.
Qed.

(** So does an accepted [generateStream]. *)
Lemma generateStream_prompts rt cancel_at t0 t1 request e s :
  session e = Some s ->
  isLoading e = false ->
  prompts (effects (generateStream rt cancel_at t0 t1 request e))
  = [(fullPrompt request, prompt_options (config e) request)].
Proof.
  intros Hs Hl. run. rewrite Hs, Hl. run.
  assert (Hs1 : session (if cancel_at 0
                         then set_isCancelled true (set_isCancelled false e)
                         else set_isCancelled false e) = Some s)
    by (destruct (cancel_at 0); exact Hs).
  assert (Hc1 : config (if cancel_at 0
                        then set_isCancelled true (set_isCancelled false e)
                        else set_isCancelled false e) = config e)
    by (destruct (cancel_at 0); reflexivity).
  rewrite Hs1, Hc1.
  destruct (prompt rt s _ _) as [s' [text|err]]; run.
  - match goal with
    | |- context [stream_loop ?a ?b ?c ?d ?e2] =>
        pose proof (@stream_loop_prompts b c a d e2) as H;
        destruct (stream_loop a b c d e2) as [[[]|msg] e3 l3]
    end; run; try destruct (isCancelled e3);
      cbn [effects prompts] in *; rewrite ?prompts_app, H; reflexivity.
  - destruct (cancel_at 0), (cancel_at 1); reflexivity.
Qed.

(** What an accepted [generate] returns when the session answers. *)
Lemma generate_result rt b t0 t1 request e s s' text :
  session e = Some s ->
  isLoading e = false ->
  prompt rt s (fullPrompt request) (prompt_options (config e) request)
  = (s', Ok text) ->
  result (generate rt b t0 t1 request e) = Ok (response_of t0 t1 text).
Proof.
  intros Hs Hl Hp. run. rewrite Hs, Hl. run. rewrite Hs, Hp. reflexivity.
Qed.

(** C6: on an engine with nothing loaded [generate] throws the error of
    the missing initialization; the engine is as before and nothing was
    done, the session in particular was not prompted. *)
Theorem generate_unloaded rt b t0 t1 request e :
  Unloaded e ->
  generate rt b t0 t1 request e = mkOutcome (Throw msg_not_initialized) e [].
Proof.
  intros (_ & _ & Hs). run. rewrite Hs. reflexivity.
Qed.

(** C8: the prompt an accepted generation hands to the session is the
    system prompt of the request, or the default one when the request has
    none or an empty one, followed by two line feeds, ["User: "] and the
    prompt of the request.  The temperature is the one of the request, or
    else the configured one; the token limit is the one of the request, or
    else the default limit; top-p and top-k are the configured ones.  This
    holds for [generate] and for [generateStream]. *)
Theorem generation_prompt_and_sampling rt b cancel_at t0 t1 request e s :
  session e = Some s ->
  isLoading e = false ->
  let system :=
    match req_systemPrompt request with
    | Some (c :: p) => c :: p
    | Some [] | None => SYSTEM_PROMPTS.codeGeneration
    end in
  let text := system ++ [LF; LF] ++ js "User: " ++ req_prompt request in
  let opts :=
    mkOptions
      match req_temperature request with
      | Some t => Some t
      | None => cfg_temperature (config e)
      end
      match req_maxTokens request with
      | Some n => n
      | None => LLM_DEFAULTS.maxTokens
      end
      (cfg_topP (config e))
      (cfg_topK (config e)) in
  prompts (effects (generate rt b t0 t1 request e)) = [(text, opts)]
  /\ prompts (effects (generateStream rt cancel_at t0 t1 request e)) = [(text, opts)].
Proof.
  intros Hs Hl system text opts.
  rewrite (@generate_prompts rt b t0 t1 request e s Hs Hl).
  rewrite (@generateStream_prompts rt cancel_at t0 t1 request e s Hs Hl).
  assert (Htext : fullPrompt request = text).
  { subst text system. unfold fullPrompt, or_else, truthy.
    destruct (req_systemPrompt request) as [[|c p]|]; reflexivity. }
  assert (Hopts : prompt_options (config e) request = opts).
  { subst opts. unfold prompt_options, nullish_opt, nullish.
    destruct (req_temperature request), (req_maxTokens request); reflexivity. }
  rewrite Htext, Hopts. split; reflexivity.
Qed.

(** The events of an accepted call whose prompt the session answers. *)
Lemma generateStream_events_answered rt cancel_at t0 t1 request e s s' text :
  session e = Some s ->
  isLoading e = false ->
  prompt rt s (fullPrompt request) (prompt_options (config e) request)
  = (s', Ok text) ->
  events (effects (generateStream rt cancel_at t0 t1 request e))
  = Start (req_prompt request) ::
    match first_seen cancel_at text with
    | Some c => chunk_events text 0 c ++ [Error msg_cancelled]
    | None =>
        chunk_events text 0 (chunk_count (length text))
          ++ [End (ceil_div4 (length text)) (t1 - t0) (length text)]
    end.
Proof.
  intros Hs Hl Hp. rewrite generateStream_events, Hs, Hl, Hp. reflexivity.
Qed.

(** C3: a call of [generateStream] that a guard rejects (no session, or a
    model still loading) yields one error event and no start event.  An
    accepted call whose prompt the session answers, or fails with the
    cancellation flag clear, yields one start event, first; then chunk
    events only, which carry the fragments of the answer in their order;
    then one terminal event, an end or an error, and nothing after it. *)
Theorem generateStream_event_order rt cancel_at t0 t1 request e :
  let evs := events (effects (generateStream rt cancel_at t0 t1 request e)) in
  (session e = None -> evs = [Error msg_not_initialized])
  /\ (session e <> None -> isLoading e = true -> evs = [Error msg_still_loading])
  /\ (forall s, session e = Some s -> isLoading e = false ->
      (forall err,
         snd (prompt rt s (fullPrompt request) (prompt_options (config e) request))
         = Throw err ->
         flag_at cancel_at 0 = false) ->
      well_ordered evs = true
      /\ (exists rest, evs = Start (req_prompt request) :: rest)
      /\ length (filter is_start evs) = 1
      /\ length (filter is_terminal evs) = 1
      /\ (exists init t, evs = init ++ [t] /\ is_terminal t = true
            /\ filter is_terminal init = [])
      /\ (forall text,
            snd (prompt rt s (fullPrompt request) (prompt_options (config e) request))
            = Ok text ->
            exists n, n <= chunk_count (length text)
              /\ payloads evs = map (nth_chunk text) (seq 0 n))).
Proof.
  intros evs. subst evs. rewrite generateStream_events.
  split; [intros ->; reflexivity|].
  split.
  { intros Hs Hl. destruct (session e); [|contradiction]. rewrite Hl. reflexivity. }
  intros s Hs Hl Hflag. rewrite Hs, Hl.
  destruct (snd (prompt rt s (fullPrompt request) (prompt_options (config e) request)))
    as [text|err] eqn:Hp.
  - assert (Hwo : well_ordered
                    (Start (req_prompt request) ::
                     match first_seen cancel_at text with
                     | Some c => chunk_events text 0 c ++ [Error msg_cancelled]
                     | None =>
                         chunk_events text 0 (chunk_count (length text))
                           ++ [End (ceil_div4 (length text)) (t1 - t0) (length text)]
                     end) = true).
    { cbn [well_ordered].
      destruct (first_seen cancel_at text);
        apply chunks_then_terminal_chunk_events; reflexivity. }
    split; [exact Hwo|].
    destruct (@well_ordered_spec _ Hwo) as (_ & Hstart & Hterm & Hlast).
    split; [eauto|]. split; [exact Hstart|]. split; [exact Hterm|].
    split; [exact Hlast|].
    intros text' [= <-]. cbn [payloads].
    unfold first_seen.
    destruct (find (flag_at cancel_at) (seq 0 (chunk_count (length text))))
      as [c|] eqn:Hfind.
    + exists c. apply find_seq_first in Hfind. destruct Hfind as (Hc & _).
      split; [lia|].
      rewrite payloads_app, payloads_chunk_events. cbn [payloads].
      apply app_nil_r.
    + exists (chunk_count (length text)). split; [lia|].
      rewrite payloads_app, payloads_chunk_events. cbn [payloads].
      apply app_nil_r.
  - rewrite (Hflag err eq_refl).
    split; [reflexivity|]. split; [eauto|].
    split; [reflexivity|]. split; [reflexivity|].
    split.
    + exists [Start (req_prompt request)], (Error (msg_generation_failed err)).
      repeat split.
    + discriminate.
Qed.

(** C5: take an accepted streaming generation.  When the session answers
    its prompt: if the check of some round of the loop reads the
    cancellation flag set, the events are the start event, the chunks of
    the rounds before the first such round, and the cancellation error:
    the one error of the sequence, its last event, with no end event; if
    no check reads the flag set, the generation completes: all chunks,
    then the end event.  When the prompt fails instead and [cancel()] was
    called since the request was accepted, the handler of the failure
    reads the flag set and yields nothing: the events are the start event
    alone, with no error event and no end event; had [cancel()] not been
    called, the failure is the one error event. *)
Theorem generateStream_cancellation rt cancel_at t0 t1 request e s :
  session e = Some s ->
  isLoading e = false ->
  let evs := events (effects (generateStream rt cancel_at t0 t1 request e)) in
  match snd (prompt rt s (fullPrompt request) (prompt_options (config e) request))
  with
  | Ok text =>
      (forall k, k < chunk_count (length text) -> flag_at cancel_at k = true ->
         exists c, c <= k
           /\ flag_at cancel_at c = true
           /\ (forall j, j < c -> flag_at cancel_at j = false)
           /\ evs = Start (req_prompt request) ::
                    chunk_events text 0 c ++ [Error msg_cancelled]
           /\ filter is_error evs = [Error msg_cancelled]
           /\ filter is_end evs = [])
      /\ ((forall k, k < chunk_count (length text) -> flag_at cancel_at k = false) ->
          evs = Start (req_prompt request) ::
                chunk_events text 0 (chunk_count (length text))
                  ++ [End (ceil_div4 (length text)) (t1 - t0) (length text)])
  | Throw err =>
      (cancel_at 0 || cancel_at 1 = true ->
         evs = [Start (req_prompt request)]
         /\ filter is_error evs = []
         /\ filter is_end evs = [])
      /\ (cancel_at 0 || cancel_at 1 = false ->
          evs = [Start (req_prompt request); Error (msg_generation_failed err)])
  end.
Proof.
  intros Hs Hl evs. subst evs.
  destruct (prompt rt s (fullPrompt request) (prompt_options (config e) request))
    as [s' [text|err]] eqn:Hp; cbn [snd].
  - rewrite (@generateStream_events_answered rt cancel_at t0 t1 request e s s' text
               Hs Hl Hp).
    unfold first_seen.
    destruct (find (flag_at cancel_at) (seq 0 (chunk_count (length text))))
      as [c|] eqn:Hfind.
    + apply find_seq_first in Hfind. destruct Hfind as (Hc & Hflag & Hfirst).
      split.
      * intros k Hk Hkflag. exists c.
        split.
        { destruct (Nat.le_gt_cases c k) as [H|H]; [exact H|].
          rewrite (Hfirst k ltac:(lia)) in Hkflag. discriminate. }
        split; [exact Hflag|].
        split; [intros j Hj; apply Hfirst; lia|].
        split; [reflexivity|].
        cbn [filter is_error is_end].
        rewrite !filter_app, !filter_chunk_events by reflexivity.
        split; reflexivity.
      * intros Hnone. rewrite (Hnone c ltac:(lia)) in Hflag. discriminate.
    + pose proof (@find_seq_none _ _ _ Hfind) as Hnone.
      split.
      * intros k Hk Hkflag. rewrite (Hnone k ltac:(lia)) in Hkflag. discriminate.
      * intros _. reflexivity.
  - rewrite generateStream_events, Hs, Hl, Hp. cbn [snd flag_at].
    split; intros Hflag; rewrite Hflag; repeat split.
Qed.

(** C4: take an accepted request whose prompt the session answers, and a
    streaming generation in which no check reads the cancellation flag
    set.  The payloads of its chunks, put together, are the answer of the
    session as it is; its end event carries the sum of their lengths.
    [generate], for the same request in the same state, returns as its
    code the inside of the first fenced block of that answer, and the
    answer as it is only when it has no fenced block. *)
Theorem stream_rechunks_answer rt b cancel_at t0 t1 g0 g1 request e s s' text :
  session e = Some s ->
  isLoading e = false ->
  prompt rt s (fullPrompt request) (prompt_options (config e) request)
  = (s', Ok text) ->
  (forall k, k < chunk_count (length text) -> flag_at cancel_at k = false) ->
  let evs := events (effects (generateStream rt cancel_at t0 t1 request e)) in
  concat (payloads evs) = text
  /\ filter is_end evs
     = [End (ceil_div4 (length text)) (t1 - t0)
            (list_sum (map (@length N) (payloads evs)))]
  /\ (exists r, result (generate rt b g0 g1 request e) = Ok r
        /\ code r = match codeMatch text with
                    | Some inner => inner
                    | None => text
                    end
        /\ (codeMatch text = None -> code r = concat (payloads evs))).
Proof.
  intros Hs Hl Hp Hnone evs.
  assert (Hevs : evs = Start (req_prompt request) ::
                       chunk_events text 0 (chunk_count (length text))
                         ++ [End (ceil_div4 (length text)) (t1 - t0) (length text)]).
  { subst evs.
    rewrite (@generateStream_events_answered rt cancel_at t0 t1 request e s s' text
               Hs Hl Hp).
    unfold first_seen.
    destruct (find (flag_at cancel_at) (seq 0 (chunk_count (length text))))
      as [c|] eqn:Hfind; [|reflexivity].
    apply find_seq_first in Hfind. destruct Hfind as (Hc & Hflag & _).
    rewrite (Hnone c ltac:(lia)) in Hflag. discriminate. }
  assert (Hpay : payloads evs = map (nth_chunk text) (seq 0 (chunk_count (length text)))).
  { rewrite Hevs. cbn [payloads].
    rewrite payloads_app, payloads_chunk_events. apply app_nil_r. }
  assert (Hcat : concat (payloads evs) = text).
  { rewrite Hpay. apply concat_all_chunks. }
  split; [exact Hcat|]. split.
  - rewrite <- length_concat, Hcat. rewrite Hevs.
    cbn [filter is_end].
    rewrite filter_app, filter_chunk_events by reflexivity. reflexivity.
  - exists (response_of g0 g1 text).
    split; [exact (@generate_result rt b g0 g1 request e s s' text Hs Hl Hp)|].
    unfold response_of. cbn [code].
    split; [reflexivity|].
    intros ->. symmetry. exact Hcat.
Qed.



(** What [issue_generate] rejects, [generate] as a whole throws, with the
    engine as before and nothing done. *)
Lemma issue_generate_rejection rt b t0 t1 request sys msg :
  snd (issue_generate t0 request sys) = Throw msg ->
  generate rt b t0 t1 request (sys_engine sys)
  = mkOutcome (Throw msg) (sys_engine sys) [].
Proof.
  destruct sys as [e fl]. unfold issue_generate. cbn [sys_engine in_flight]. run.
  destruct (session e); [|intros [= <-]; reflexivity].
  destruct (isLoading e); [intros [= <-]; reflexivity|discriminate].
Qed.

(** The event [issue_generateStream] hands out is the first one of the
    whole stream. *)
Lemma issue_generateStream_first_event rt cancel_at t0 t1 request sys :
  firstn 1 (events (effects (generateStream rt cancel_at t0 t1 request
                               (sys_engine sys))))
  = snd (issue_generateStream t0 request sys).
Proof.
  rewrite generateStream_events.
  destruct sys as [e fl]. unfold issue_generateStream.
  cbn [sys_engine in_flight]. run.
  destruct (session e); [|reflexivity].
  destruct (isLoading e); reflexivity.
Qed.

(** On an engine with a session that is not loading, a generation is
    accepted whatever is in flight. *)
Lemma issue_when_ready t0 request sys :
  session (sys_engine sys) <> None ->
  isLoading (sys_engine sys) = false ->
  issue_generate t0 request sys
  = (mkSystem (set_isCancelled false (sys_engine sys))
       (in_flight sys ++ [in_generate t0 request]),
     Ok tt)
  /\ issue_generateStream t0 request sys
     = (mkSystem (set_isCancelled false (sys_engine sys))
          (in_flight sys ++ [in_generateStream t0 request]),
        [Start (req_prompt request)]).
Proof.
  destruct sys as [e fl]. unfold issue_generate, issue_generateStream.
  cbn [sys_engine in_flight]. run.
  intros Hs Hl. destruct (session e); [|contradiction]. rewrite Hl.
  split; reflexivity.
Qed.

(** X5: however many generations and cancellations are issued one after
    the other on such an engine, none is turned away: every generation
    issued is in flight at the end, next to those that were before. *)
Theorem all_issued_generations_in_flight calls : forall sys,
  session (sys_engine sys) <> None ->
  isLoading (sys_engine sys) = false ->
  length (in_flight (run_calls calls sys))
  = length (in_flight sys) + length (filter is_generation calls)
  /\ session (sys_engine (run_calls calls sys)) = session (sys_engine sys)
  /\ isLoading (sys_engine (run_calls calls sys)) = false.
Proof.
  induction calls as [|c calls IH]; intros sys Hs Hl.
  - cbn. split; [lia|]. split; [reflexivity|exact Hl].
  - cbn [run_calls fold_left]. fold (run_calls calls (step c sys)).
    assert (Hstep : session (sys_engine (step c sys)) = session (sys_engine sys)
                    /\ isLoading (sys_engine (step c sys)) = false
                    /\ length (in_flight (step c sys))
                       = length (in_flight sys)
                         + (if is_generation c then 1 else 0)).
    { destruct c as [t0 request|t0 request|]; cbn [step is_generation].
      - rewrite (proj1 (@issue_when_ready t0 request sys Hs Hl)).
        cbn [fst sys_engine in_flight session isLoading set_isCancelled].
        rewrite length_app. split; [reflexivity|]. split; [exact Hl|reflexivity].
      - rewrite (proj2 (@issue_when_ready t0 request sys Hs Hl)).
        cbn [fst sys_engine in_flight session isLoading set_isCancelled].
        rewrite length_app. split; [reflexivity|]. split; [exact Hl|reflexivity].
      - unfold issue_cancel. run. cbn [sys_engine in_flight].
        split; [reflexivity|]. split; [exact Hl|lia]. }
    destruct Hstep as (Hs' & Hl' & Hlen).
    destruct (IH (step c sys)) as (Hn & Hs2 & Hl2);
      [rewrite Hs'; exact Hs|exact Hl'|].
    rewrite Hn, Hlen, Hs2, Hs'. cbn [filter].
    split; [|split; [reflexivity|exact Hl2]].
    destruct (is_generation c); cbn [length]; lia.
Qed.

(** C1: a generation in flight is no ground for rejecting another.
    Whatever is in flight, [generate] and [generateStream] are rejected
    only as any call is: without a session, or while a model loads;
    [generate] then throws, [generateStream] yields one error event, and
    nothing changes.  Otherwise the call is accepted at once: it clears the
    cancellation flag, whatever [cancel()] had set it for, and is in
    flight together with the others. *)
Theorem generation_accepted_whatever_in_flight t0 request sys :
  (session (sys_engine sys) = None ->
     issue_generate t0 request sys = (sys, Throw msg_not_initialized)
     /\ issue_generateStream t0 request sys = (sys, [Error msg_not_initialized]))
  /\ (session (sys_engine sys) <> None -> isLoading (sys_engine sys) = true ->
     issue_generate t0 request sys = (sys, Throw msg_still_loading)
     /\ issue_generateStream t0 request sys = (sys, [Error msg_still_loading]))
  /\ (session (sys_engine sys) <> None -> isLoading (sys_engine sys) = false ->
     issue_generate t0 request sys
     = (mkSystem (set_isCancelled false (sys_engine sys))
          (in_flight sys ++ [in_generate t0 request]),
        Ok tt)
     /\ issue_generateStream t0 request sys
        = (mkSystem (set_isCancelled false (sys_engine sys))
             (in_flight sys ++ [in_generateStream t0 request]),
           [Start (req_prompt request)])).
Proof.
  destruct sys as [e fl]. unfold issue_generate, issue_generateStream.
  cbn [sys_engine in_flight]. run.
  split; [|split].
  - intros ->. split; reflexivity.
  - intros Hs Hl. destruct (session e); [|contradiction]. rewrite Hl.
    split; reflexivity.
  - intros Hs Hl. destruct (session e); [|contradiction]. rewrite Hl.
    split; reflexivity.
Qed.

End Generation.

(** * The properties at work *)

Lemma never_flag k : flag_at Fixture.never k = false.
Proof.
  induction k as [|k IH]; [reflexivity|].
  cbn [flag_at]. rewrite IH. reflexivity.
Defined.

(** C1, against the claim: with one generation in flight on a loaded
    engine, a second [generate] is accepted and is in flight as well; a
    [generateStream] gets its start event; and the second call takes back
    a cancellation meant for the first. *)
Lemma second_generation_not_rejected :
  let sys1 := fst (issue_generate 0 Fixture.hello (mkSystem Fixture.loaded [])) in
  in_flight sys1 = [in_generate 0 Fixture.hello]
  /\ snd (issue_generate 7 Fixture.overriding sys1) = Ok tt
  /\ in_flight (fst (issue_generate 7 Fixture.overriding sys1))
     = [in_generate 0 Fixture.hello; in_generate 7 Fixture.overriding]
  /\ snd (issue_generateStream 7 Fixture.overriding sys1) = [Start (js "hi")]
  /\ isCancelled (sys_engine (issue_cancel sys1)) = true
  /\ isCancelled
       (sys_engine (fst (issue_generate 7 Fixture.overriding (issue_cancel sys1))))
     = false.
Proof. vm_compute. repeat split. Qed.

Lemma generation_accepted_witness :
  let sys1 := fst (issue_generate 0 Fixture.hello (mkSystem Fixture.loaded [])) in
  in_flight sys1 <> []
  /\ issue_generate 7 Fixture.overriding sys1
     = (mkSystem (set_isCancelled false (sys_engine sys1))
          (in_flight sys1 ++ [in_generate 7 Fixture.overriding]),
        Ok tt).
Proof.
  split; [discriminate|].
  apply (@generation_accepted_whatever_in_flight jsstring jsstring (list jsstring)
           7%Z Fixture.overriding
           (fst (issue_generate 0 Fixture.hello (mkSystem Fixture.loaded [])))).
  - discriminate.
  - reflexivity.
Defined.

(** C3, against the claim: a call on an engine with nothing loaded yields
    one event, an error, and no start event. *)
Lemma rejected_stream_has_no_start :
  events (effects (generateStream (Fixture.rt_ok []) Fixture.never 0 1
                     Fixture.hello Fixture.fresh))
  = [Error msg_not_initialized]
  /\ length (filter is_start
               (events (effects (generateStream (Fixture.rt_ok []) Fixture.never 0 1
                                   Fixture.hello Fixture.fresh))))
     = 0.
Proof. vm_compute. split; reflexivity. Qed.

Lemma generateStream_event_order_witness :
  well_ordered
    (events (effects (generateStream (Fixture.rt_ok Fixture.long_answer)
                        Fixture.during_chunk_0 0 1 Fixture.hello Fixture.loaded)))
  = true
  /\ payloads
       (events (effects (generateStream (Fixture.rt_ok Fixture.long_answer)
                           Fixture.during_chunk_0 0 1 Fixture.hello Fixture.loaded)))
     = [repeat 97%N 50].
Proof.
  destruct (@generateStream_event_order unit jsstring jsstring (list jsstring)
              (Fixture.rt_ok Fixture.long_answer) Fixture.during_chunk_0 0%Z 1%Z
              Fixture.hello Fixture.loaded) as (_ & _ & H).
  destruct (H [] eq_refl eq_refl) as (Hwo & _); [discriminate|].
  split; [exact Hwo|]. vm_compute. reflexivity.
Defined.

(** C4, against the claim: on an answer in a fenced block the chunks, put
    together, are the whole answer, and the code [generate] returns is the
    inside of the block. *)
Lemma stream_is_not_code_of_generate :
  concat (payloads
            (events (effects (generateStream (Fixture.rt_ok Fixture.fenced)
                                Fixture.never 0 1 Fixture.hello Fixture.loaded))))
  = Fixture.fenced
  /\ match result (generate (Fixture.rt_ok Fixture.fenced) false 0 1
                     Fixture.hello Fixture.loaded) with
     | Ok r =>
         code r = js "let x = 1;"
         /\ jsstring_eqb
              (concat (payloads
                 (events (effects (generateStream (Fixture.rt_ok Fixture.fenced)
                                     Fixture.never 0 1 Fixture.hello
                                     Fixture.loaded)))))
              (code r)
            = false
     | Throw _ => False
     end.
Proof. vm_compute. repeat split. Qed.

Lemma stream_rechunks_answer_witness :
  concat (payloads
            (events (effects (generateStream (Fixture.rt_ok Fixture.long_answer)
                                Fixture.never 0 1 Fixture.hello Fixture.loaded))))
  = Fixture.long_answer
  /\ filter is_end
       (events (effects (generateStream (Fixture.rt_ok Fixture.long_answer)
                           Fixture.never 0 1 Fixture.hello Fixture.loaded)))
     = [End 30 1 120].
Proof.
  destruct (@stream_rechunks_answer unit jsstring jsstring (list jsstring)
              (Fixture.rt_ok Fixture.long_answer) false Fixture.never 0%Z 1%Z 0%Z 1%Z
              Fixture.hello Fixture.loaded [] [fullPrompt Fixture.hello]
              Fixture.long_answer eq_refl eq_refl eq_refl
              (fun k _ => never_flag k)) as (Hcat & Hend & _).
  split; [exact Hcat|]. rewrite Hend. vm_compute. reflexivity.
Defined.

Lemma generateStream_cancellation_witness :
  events (effects (generateStream Fixture.rt_prompt_fails Fixture.during_prompt 0 1
                     Fixture.hello Fixture.loaded))
  = [Start (js "hello")]
  /\ flag_at Fixture.during_chunk_0 1 = true
  /\ events (effects (generateStream (Fixture.rt_ok Fixture.long_answer)
                        Fixture.during_chunk_0 0 1 Fixture.hello Fixture.loaded))
     = [Start (js "hello"); Chunk (repeat 97%N 50); Error msg_cancelled].
Proof.
  split.
  - exact (proj1 (proj1 (@generateStream_cancellation unit jsstring jsstring
                           (list jsstring) Fixture.rt_prompt_fails
                           Fixture.during_prompt 0%Z 1%Z Fixture.hello
                           Fixture.loaded [] eq_refl eq_refl) eq_refl)).
  - split; [reflexivity|].
    destruct (@generateStream_cancellation unit jsstring jsstring (list jsstring)
                (Fixture.rt_ok Fixture.long_answer) Fixture.during_chunk_0 0%Z 1%Z
                Fixture.hello Fixture.loaded [] eq_refl eq_refl) as (Hseen & _).
    destruct (Hseen 1 ltac:(vm_compute; lia) eq_refl)
      as (c & Hc & Hflag & _ & Hevs & _).
    rewrite Hevs.
    destruct c as [|[|c]]; [discriminate Hflag|reflexivity|lia].
Defined.

Lemma generate_unloaded_witness :
  Unloaded Fixture.fresh
  /\ generate (Fixture.rt_ok []) false 0 1 Fixture.hello Fixture.fresh
     = mkOutcome (Throw msg_not_initialized) Fixture.fresh [].
Proof.
  assert (H : Unloaded Fixture.fresh) by (repeat split).
  split; [exact H|].
  exact (@generate_unloaded unit jsstring jsstring (list jsstring)
           (Fixture.rt_ok []) false 0%Z 1%Z Fixture.hello Fixture.fresh H).
Defined.

(** C8, against the claim: the request has a system prompt, the empty
    string; the session is handed the default one all the same, and the
    prompt is not that of the request after its own system prompt, with or
    without the separator. *)
Lemma blank_system_prompt_is_replaced :
  prompts (effects (generate (Fixture.rt_ok []) false 0 1
                      Fixture.blank_system Fixture.loaded))
  = [(SYSTEM_PROMPTS.codeGeneration ++ [LF; LF] ++ js "User: hi",
      mkOptions (Some (7 # 10)) (2048 # 1) (Some (9 # 10)) (Some (40 # 1)))]
  /\ req_systemPrompt Fixture.blank_system = Some []
  /\ jsstring_eqb (fullPrompt Fixture.blank_system)
       ([] ++ req_prompt Fixture.blank_system)
     = false
  /\ jsstring_eqb (fullPrompt Fixture.blank_system)
       ([] ++ [LF; LF] ++ js "User: " ++ req_prompt Fixture.blank_system)
     = false.
Proof. vm_compute. repeat split. Qed.

Lemma generation_prompt_and_sampling_witness :
  prompts (effects (generate (Fixture.rt_ok []) false 0 1
                      Fixture.overriding Fixture.loaded))
  = [(js "Answer in French." ++ [LF; LF] ++ js "User: hi",
      mkOptions (Some (1 # 5)) (64 # 1) (Some (9 # 10)) (Some (40 # 1)))].
Proof.
  pose proof (@generation_prompt_and_sampling unit jsstring jsstring (list jsstring)
                (Fixture.rt_ok []) false Fixture.never 0%Z 1%Z Fixture.overriding
                Fixture.loaded [] eq_refl eq_refl) as H.
  cbv zeta in H. destruct H as (H & _). rewrite H. reflexivity.
Defined.



Lemma initialize_load_failure_witness :
  Unloaded Fixture.fresh
  /\ Unloaded (engine (initialize Fixture.rt_load_fails Fixture.fresh)).
Proof.
  assert (H : Unloaded Fixture.fresh) by (repeat split).
  split; [exact H|].
  apply (@initialize_load_failure unit jsstring jsstring (list jsstring)
           Fixture.rt_load_fails Fixture.fresh H).
  intros l _. exists (js "no such file"). reflexivity.
Defined.

Lemma all_issued_generations_in_flight_witness :
  in_flight
    (run_calls [do_generate 0 Fixture.hello; do_cancel;
                do_generateStream 3 Fixture.overriding;
                do_generate 5 Fixture.blank_system]
       (mkSystem Fixture.loaded []))
  = [in_generate 0 Fixture.hello; in_generateStream 3 Fixture.overriding;
     in_generate 5 Fixture.blank_system]
  /\ length
       (in_flight
          (run_calls [do_generate 0 Fixture.hello; do_cancel;
                      do_generateStream 3 Fixture.overriding;
                      do_generate 5 Fixture.blank_system]
             (mkSystem Fixture.loaded [])))
     = 0 + 3.
Proof.
  split; [reflexivity|].
  apply (@all_issued_generations_in_flight jsstring jsstring (list jsstring)
           [do_generate 0 Fixture.hello; do_cancel;
            do_generateStream 3 Fixture.overriding;
            do_generate 5 Fixture.blank_system]
           (mkSystem Fixture.loaded [])).
  - discriminate.
  - reflexivity.
Defined.

(** * Properties of the callers of the engine *)

Section CallerFacts.

Context {Llama LlamaModel LlamaContext LlamaChatSession : Type}.
Implicit Types rt : Runtime Llama LlamaModel LlamaContext LlamaChatSession.
Implicit Types e : LLMEngine LlamaModel LlamaContext LlamaChatSession.

(** The loop of [generateStream] touches nothing of the engine but the
    cancellation flag. *)
Lemma stream_loop_frame cancel_at text fuel : forall i e,
  let e' := engine (stream_loop fuel cancel_at text i e) in
  model e' = model e /\ context e' = context e /\ session e' = session e
  /\ config e' = config e /\ isLoading e' = isLoading e.
Proof.
  induction fuel as [|fuel IH]; intros i e; [repeat split|].
  cbn [stream_loop]. destruct (i <? length text); [|repeat split].
  run. destruct (isCancelled e); [repeat split|].
  match goal with
  | |- context [stream_loop fuel cancel_at text ?j ?e1] =>
      pose proof (IH j e1) as H;
      destruct (stream_loop fuel cancel_at text j e1) as [r e2 l2]
  end.
  cbv zeta in H. cbn [engine] in *.
  destruct H as (H1 & H2 & H3 & H4 & H5).
  rewrite H1, H2, H3, H4, H5.
  destruct (cancel_at (2 + i / chunkSize)); repeat split.
Qed.

(** X6: the context and the model name of a request have no effect: a
    request that differs in them only is generated, streamed and handled
    in the same way. *)
Theorem request_context_and_model_ignored rt b cancel_at t0 t1 request
    context model e :
  generate rt b t0 t1 (with_context_and_model request context model) e
  = generate rt b t0 t1 request e
  /\ generateStream rt cancel_at t0 t1 (with_context_and_model request context model) e
     = generateStream rt cancel_at t0 t1 request e
  /\ handleLLMGenerate rt b t0 t1 (with_context_and_model request context model) e
     = handleLLMGenerate rt b t0 t1 request e.
Proof.
  destruct request. repeat split; reflexivity.
Qed.

(** X7: an accepted generation, whether it succeeds, fails or is
    cancelled, leaves the session as the prompt left it and everything
    else but the cancellation flag as it was; the next generation prompts
    that session. *)
Theorem generation_threads_session rt b cancel_at t0 t1 request e s :
  session e = Some s ->
  isLoading e = false ->
  let s1 := fst (prompt rt s (fullPrompt request)
                   (prompt_options (config e) request)) in
  let after_generate := engine (generate rt b t0 t1 request e) in
  let after_stream := engine (generateStream rt cancel_at t0 t1 request e) in
  (session after_generate = Some s1 /\ session after_stream = Some s1)
  /\ (model after_generate = model e /\ model after_stream = model e)
  /\ (context after_generate = context e /\ context after_stream = context e)
  /\ (config after_generate = config e /\ config after_stream = config e)
  /\ (isLoading after_generate = false /\ isLoading after_stream = false)
  /\ (forall rt' b' t2 t3 next,
        exists rest,
          effects (generate rt' b' t2 t3 next after_generate)
          = call_prompt s1 (fullPrompt next) (prompt_options (config e) next)
            :: rest).
Proof.
  intros Hs Hl s1 after_generate after_stream.
  assert (Hgen : session after_generate = Some s1 /\ model after_generate = model e
                 /\ context after_generate = context e
                 /\ config after_generate = config e
                 /\ isLoading after_generate = false).
  { subst after_generate s1. run. rewrite Hs, Hl. run. rewrite Hs.
    destruct (prompt rt s _ _) as [s' [text|err]]; run.
    - destruct b; repeat split; assumption.
    - destruct b; run; repeat split; assumption. }
  assert (Hstr : session after_stream = Some s1 /\ model after_stream = model e
                 /\ context after_stream = context e
                 /\ config after_stream = config e
                 /\ isLoading after_stream = false).
  { subst after_stream s1. run. rewrite Hs, Hl. run.
    assert (Hs1 : session (if cancel_at 0
                           then set_isCancelled true (set_isCancelled false e)
                           else set_isCancelled false e) = Some s)
      by (destruct (cancel_at 0); exact Hs).
    assert (Hc1 : config (if cancel_at 0
                          then set_isCancelled true (set_isCancelled false e)
                          else set_isCancelled false e) = config e)
      by (destruct (cancel_at 0); reflexivity).
    rewrite Hs1, Hc1.
    destruct (prompt rt s _ _) as [s' [text|err]]; run.
    - match goal with
      | |- context [stream_loop ?a ?b ?c ?d ?e2] =>
          pose proof (@stream_loop_frame b c a d e2) as Hframe;
          destruct (stream_loop a b c d e2) as [[[]|msg] e3 l3]
      end; cbv zeta in Hframe; cbn [engine] in Hframe;
        destruct Hframe as (H1 & H2 & H3 & H4 & H5); run;
        try destruct (isCancelled e3); run;
        rewrite H1, H2, H3, H4, H5;
        destruct (cancel_at 0), (cancel_at 1); repeat split; assumption.
    - destruct (cancel_at 0), (cancel_at 1); run; repeat split; assumption. }
  destruct Hgen as (G1 & G2 & G3 & G4 & G5).
  destruct Hstr as (S1 & S2 & S3 & S4 & S5).
  repeat split; try assumption.
  intros rt' b' t2 t3 next. run. fold after_generate.
  rewrite G1, G5. run. rewrite G1, G4.
  destruct (prompt rt' s1 _ _) as [s' [text|err]]; run.
  - eexists; reflexivity.
  - destruct b'; run; eexists; reflexivity.
Qed.

(** Short of a model, a context or a session, the generate handler throws
    its own error and logs it. *)
Lemma handleLLMGenerate_refuses rt b t0 t1 request e :
  isModelLoaded e = false ->
  handleLLMGenerate rt b t0 t1 request e
  = mkOutcome (Throw msg_model_not_loaded) e
      [console_error (js "LLM generation error:") msg_model_not_loaded].
Proof.
  intros Hloaded. unfold handleLLMGenerate, try_catch, bind, gets, throw, emit.
  rewrite Hloaded. reflexivity.
Qed.

(** X8: the generate handler hands the request to the engine exactly when
    model, context and session are all in place.  Otherwise it throws its
    own error, logs it, and leaves the engine alone; when it does hand the
    request on, its result and the engine are those of [generate], with a
    log of the error if there is one. *)
Theorem handleLLMGenerate_gate rt b t0 t1 request e :
  (isModelLoaded e = false ->
     handleLLMGenerate rt b t0 t1 request e
     = mkOutcome (Throw msg_model_not_loaded) e
         [console_error (js "LLM generation error:") msg_model_not_loaded])
  /\ (isModelLoaded e = true ->
      result (handleLLMGenerate rt b t0 t1 request e)
      = result (generate rt b t0 t1 request e)
      /\ engine (handleLLMGenerate rt b t0 t1 request e)
         = engine (generate rt b t0 t1 request e)
      /\ effects (handleLLMGenerate rt b t0 t1 request e)
         = effects (generate rt b t0 t1 request e)
           ++ match result (generate rt b t0 t1 request e) with
              | Ok _ => []
              | Throw err => [console_error (js "LLM generation error:") err]
              end).
Proof.
  split; intros Hloaded.
  - apply handleLLMGenerate_refuses. exact Hloaded.
  - assert (H : handleLLMGenerate rt b t0 t1 request e
               = match generate rt b t0 t1 request e with
                 | mkOutcome (Ok r) e1 l1 => mkOutcome (Ok r) e1 l1
                 | mkOutcome (Throw err) e1 l1 =>
                     mkOutcome (Throw err) e1
                       (l1 ++ [console_error (js "LLM generation error:") err])
                 end).
    { unfold handleLLMGenerate, try_catch, bind at 1, gets. rewrite Hloaded.
      destruct (generate rt b t0 t1 request e) as [[r|err] e1 l1].
      - reflexivity.
      - reflexivity. }
    rewrite H.
    destruct (generate rt b t0 t1 request e) as [[r|err] e1 l1];
      cbn [result engine effects]; rewrite ?app_nil_r; repeat split.
Qed.

(** X9: when the model loads and the allocation of its context fails, the
    load handler answers with the failure; asked again, it answers success
    without calling the runtime, and the generate handler still refuses
    every request. *)
Theorem load_retry_after_context_failure rt path e l md err :
  Unloaded e ->
  getLlama rt = Ok l ->
  loadModel rt l path (cfg_gpuLayers (config e)) = Ok md ->
  createContext rt md (cfg_contextSize (config e)) (cfg_batchSize (config e))
  = Throw err ->
  let first := handleLoadModel rt path e in
  result first
  = Ok (mkLoadResponse false
          (js "Failed to load model: " ++ msg_initialize_failed err))
  /\ (forall rt',
        let second := handleLoadModel rt' path (engine first) in
        result second = Ok (mkLoadResponse true (js "Model loaded successfully"))
        /\ effects second = [console_log (js "Model already loaded")]
        /\ isModelLoaded (engine second) = false
        /\ forall b t0 t1 request,
             result (handleLLMGenerate rt' b t0 t1 request (engine second))
             = Throw msg_model_not_loaded).
Proof.
  intros (Hm & Hc & Hs) Hl Hmd Hctx first.
  assert (Hfirst : result first
                   = Ok (mkLoadResponse false
                           (js "Failed to load model: " ++ msg_initialize_failed err))
                   /\ model (engine first) = Some md
                   /\ context (engine first) = None).
  { subst first. run. rewrite Hm, Hl. run.
    unfold merge_config, nullish. cbn [p_modelPath p_gpuLayers p_contextSize
      p_batchSize cfg_modelPath cfg_gpuLayers cfg_contextSize cfg_batchSize].
    rewrite Hmd. run. rewrite Hctx. run. repeat split. exact Hc. }
  destruct Hfirst as (Hres & Hmodel & Hcontext).
  split; [exact Hres|].
  intros rt' second.
  assert (Hsecond : second
                    = mkOutcome
                        (Ok (mkLoadResponse true (js "Model loaded successfully")))
                        (set_config
                           (merge_config (config (engine first))
                              (mkPartial (Some path) None None None None None None))
                           (engine first))
                        [console_log (js "Model already loaded")]).
  { subst second. run. rewrite Hmodel. reflexivity. }
  assert (Hnot : isModelLoaded (engine second) = false).
  { rewrite Hsecond. unfold isModelLoaded. run. rewrite Hmodel, Hcontext.
    reflexivity. }
  split; [rewrite Hsecond; reflexivity|].
  split; [rewrite Hsecond; reflexivity|].
  split; [exact Hnot|].
  intros b t0 t1 request.
  rewrite (@handleLLMGenerate_refuses rt' b t0 t1 request (engine second) Hnot).
  reflexivity.
Qed.

(** X10: the chat handler never throws.  Without a session it answers
    with the error of the missing initialization and prompts nothing.
    With a session it prompts it with the message as it is, whether or not
    a model is loading, and answers with the response, or with the
    failure; it never touches the cancellation flag. *)
Theorem handleChatAddMessage_never_throws
    (prompt_plain : LlamaChatSession -> jsstring -> LlamaChatSession * Result jsstring)
    message e :
  let o := handleChatAddMessage prompt_plain message e in
  isCancelled (chat_engine o) = isCancelled e
  /\ isLoading (chat_engine o) = isLoading e
  /\ match session e with
     | None =>
         chat_result o
         = Ok (mkChatResponse false None (Some msg_not_initialized))
         /\ chat_engine o = e
         /\ chat_effects o
            = [chat_console_error (js "Chat error:") msg_not_initialized]
     | Some s =>
         session (chat_engine o) = Some (fst (prompt_plain s message))
         /\ match snd (prompt_plain s message) with
            | Ok response =>
                chat_result o = Ok (mkChatResponse true (Some response) None)
                /\ chat_effects o = [plain_prompt s message]
            | Throw err =>
                chat_result o
                = Ok (mkChatResponse false None (Some (msg_chat_failed err)))
                /\ chat_effects o
                   = [plain_prompt s message;
                      chat_console_error (js "Chat failed:") err;
                      chat_console_error (js "Chat error:") (msg_chat_failed err)]
            end
     end.
Proof.
  unfold handleChatAddMessage, chat.
  destruct (session e) as [s|]; cbn.
  - destruct (prompt_plain s message) as [s' [response|err]]; cbn;
      repeat split.
  - repeat split.
Qed.

End CallerFacts.

Lemma generation_threads_session_witness :
  session (engine (generate (Fixture.rt_ok []) false 0 1 Fixture.hello
                     Fixture.loaded))
  = Some [fullPrompt Fixture.hello]
  /\ session (engine (generateStream Fixture.rt_prompt_fails Fixture.during_prompt
                        0 1 Fixture.hello Fixture.loaded))
     = Some [].
Proof.
  split.
  - exact (proj1 (proj1 (@generation_threads_session unit jsstring jsstring
                           (list jsstring) (Fixture.rt_ok []) false Fixture.never
                           0%Z 1%Z Fixture.hello Fixture.loaded [] eq_refl eq_refl))).
  - exact (proj2 (proj1 (@generation_threads_session unit jsstring jsstring
                           (list jsstring) Fixture.rt_prompt_fails false
                           Fixture.during_prompt 0%Z 1%Z Fixture.hello
                           Fixture.loaded [] eq_refl eq_refl))).
Defined.

Lemma handleLLMGenerate_gate_witness :
  isModelLoaded Fixture.fresh = false
  /\ handleLLMGenerate (Fixture.rt_ok []) false 0 1 Fixture.hello Fixture.fresh
     = mkOutcome (Throw msg_model_not_loaded) Fixture.fresh
         [console_error (js "LLM generation error:") msg_model_not_loaded]
  /\ isModelLoaded Fixture.loaded = true
  /\ result (handleLLMGenerate (Fixture.rt_ok (js "ok")) false 0 1 Fixture.hello
               Fixture.loaded)
     = result (generate (Fixture.rt_ok (js "ok")) false 0 1 Fixture.hello
                 Fixture.loaded).
Proof.
  split; [reflexivity|]. split.
  - exact (proj1 (@handleLLMGenerate_gate unit jsstring jsstring (list jsstring)
                    (Fixture.rt_ok []) false 0%Z 1%Z Fixture.hello Fixture.fresh)
                 eq_refl).
  - split; [reflexivity|].
    exact (proj1 (proj2 (@handleLLMGenerate_gate unit jsstring jsstring
                           (list jsstring) (Fixture.rt_ok (js "ok")) false 0%Z 1%Z
                           Fixture.hello Fixture.loaded) eq_refl)).
Defined.

Lemma load_retry_after_context_failure_witness :
  result (handleLoadModel Fixture.rt_context_fails (js "/models/a.gguf")
            Fixture.fresh)
  = Ok (mkLoadResponse false
          (js "Failed to load model: Failed to initialize LLM engine: out of memory"))
  /\ result (handleLoadModel Fixture.rt_context_fails (js "/models/a.gguf")
               (engine (handleLoadModel Fixture.rt_context_fails
                          (js "/models/a.gguf") Fixture.fresh)))
     = Ok (mkLoadResponse true (js "Model loaded successfully")).
Proof.
  assert (H : Unloaded Fixture.fresh) by (repeat split).
  destruct (@load_retry_after_context_failure unit jsstring jsstring (list jsstring)
              Fixture.rt_context_fails (js "/models/a.gguf") Fixture.fresh tt
              (js "/models/a.gguf") (js "out of memory") H eq_refl eq_refl eq_refl)
    as (Hfirst & Hsecond).
  split; [exact Hfirst|].
  exact (proj1 (Hsecond Fixture.rt_context_fails)).
Defined.

(** * Properties of the chat store *)

Lemma jsstring_eqb_eq (a b : jsstring) : jsstring_eqb a b = true <-> a = b.
Proof.
  revert b. induction a as [|x a IH]; intros [|y b]; cbn; split;
    try congruence; try reflexivity.
  - intros H. apply andb_prop in H. destruct H as [Hx Hab].
    apply N.eqb_eq in Hx. apply IH in Hab. congruence.
  - intros H. injection H as -> ->. rewrite N.eqb_refl. cbn.
    apply IH. reflexivity.
Qed.

Lemma jsstring_eqb_refl (a : jsstring) : jsstring_eqb a a = true.
Proof. apply jsstring_eqb_eq. reflexivity. Qed.

Lemma jsstring_eqb_neq (a b : jsstring) : a <> b -> jsstring_eqb a b = false.
Proof.
  intros H. destruct (jsstring_eqb a b) eqn:E; [|reflexivity].
  apply jsstring_eqb_eq in E. contradiction.
Qed.

Lemma filter_all {A} (f : A -> bool) (l : list A) :
  (forall x, In x l -> f x = true) -> filter f l = l.
Proof.
  induction l as [|x l IH]; intros H; [reflexivity|]. cbn.
  rewrite (H x (or_introl eq_refl)). f_equal. apply IH.
  intros y Hy. apply H. right. exact Hy.
Qed.

Lemma set_messages_same (st : ChatStore.ChatState) :
  ChatStore.set_messages (ChatStore.messages st) st = st.
Proof. destruct st. reflexivity. Qed.

Lemma set_messages_eq (l : list ChatStore.ChatMessage) (st : ChatStore.ChatState) :
  l = ChatStore.messages st -> ChatStore.set_messages l st = st.
Proof. intros ->. apply set_messages_same. Qed.

(** X11: a message added is the last message; removing an id that no
    message carries changes nothing, so that removing a message just
    added under a fresh id gives the store back as it was. *)
Theorem removeMessage_undoes_addMessage (message : ChatStore.ChatMessage)
    (st : ChatStore.ChatState) :
  (forall m, In m (ChatStore.messages st) ->
             ChatStore.m_id m <> ChatStore.m_id message) ->
  ChatStore.getLastMessage (ChatStore.addMessage message st) = Some message
  /\ ChatStore.removeMessage (ChatStore.m_id message) st = st
  /\ ChatStore.removeMessage (ChatStore.m_id message)
       (ChatStore.addMessage message st) = st.
Proof.
  intros Hfresh.
  assert (Hkeep : filter (fun msg => negb (jsstring_eqb (ChatStore.m_id msg)
                                             (ChatStore.m_id message)))
                    (ChatStore.messages st) = ChatStore.messages st).
  { apply filter_all. intros m Hm. rewrite jsstring_eqb_neq; [reflexivity|].
    apply Hfresh. exact Hm. }
  repeat split.
  - unfold ChatStore.getLastMessage, ChatStore.addMessage.
    cbn [ChatStore.messages ChatStore.set_messages].
    rewrite length_app. cbn [length].
    destruct (Nat.ltb_spec 0 (length (ChatStore.messages st) + 1)); [|lia].
    rewrite nth_error_app2 by lia.
    replace (length (ChatStore.messages st) + 1 - 1 - length (ChatStore.messages st))
      with 0 by lia.
    reflexivity.
  - unfold ChatStore.removeMessage. apply set_messages_eq. exact Hkeep.
  - unfold ChatStore.removeMessage, ChatStore.addMessage. cbn.
    rewrite filter_app, Hkeep. cbn. rewrite jsstring_eqb_refl. cbn.
    rewrite app_nil_r. destruct st. reflexivity.
Qed.

(** X12: [removeMessage] removes every message that carries the id, not
    only one, and keeps the others in their order; a second removal of
    the same id changes nothing. *)
Theorem removeMessage_removes_all (id : jsstring) (st : ChatStore.ChatState) :
  let st' := ChatStore.removeMessage id st in
  (forall m, In m (ChatStore.messages st') <->
             In m (ChatStore.messages st) /\ ChatStore.m_id m <> id)
  /\ (forall before m after,
        ChatStore.messages st = before ++ m :: after ->
        ChatStore.m_id m <> id ->
        ChatStore.messages st'
        = ChatStore.messages (ChatStore.removeMessage id
                                (ChatStore.set_messages before st))
          ++ m :: ChatStore.messages (ChatStore.removeMessage id
                                        (ChatStore.set_messages after st)))
  /\ ChatStore.removeMessage id st' = st'.
Proof.
  cbn zeta. split; [|split].
  - intros m. unfold ChatStore.removeMessage. cbn. rewrite filter_In.
    split.
    + intros [Hin Hid]. split; [exact Hin|].
      intros Heq. apply jsstring_eqb_eq in Heq. rewrite Heq in Hid. discriminate.
    + intros [Hin Hid]. split; [exact Hin|].
      rewrite jsstring_eqb_neq by exact Hid. reflexivity.
  - intros before m after Hm Hid. unfold ChatStore.removeMessage. cbn.
    rewrite Hm, filter_app. cbn. rewrite jsstring_eqb_neq by exact Hid.
    reflexivity.
  - unfold ChatStore.removeMessage, ChatStore.set_messages.
    cbn [ChatStore.messages ChatStore.isLoading ChatStore.currentModel
         ChatStore.error].
    rewrite (@filter_all _ _ (filter _ _)); [reflexivity|].
    intros m Hm. apply filter_In in Hm. apply Hm.
Qed.

(** X13: [updateMessage] keeps the number and the order of the messages
    and leaves every message with another id as it is.  With an id that no
    message carries, or with no updates, it changes nothing; and as long
    as the updates carry no id, the ids of the store stay as they are. *)
Theorem updateMessage_frame (id : jsstring) (updates : ChatStore.MessageUpdates)
    (st : ChatStore.ChatState) :
  let st' := ChatStore.updateMessage id updates st in
  length (ChatStore.messages st') = length (ChatStore.messages st)
  /\ (forall k m, nth_error (ChatStore.messages st) k = Some m ->
        nth_error (ChatStore.messages st') k
        = Some (if jsstring_eqb (ChatStore.m_id m) id
                then ChatStore.spread m updates else m))
  /\ ((forall m, In m (ChatStore.messages st) -> ChatStore.m_id m <> id) ->
      st' = st)
  /\ ChatStore.updateMessage id ChatStore.no_updates st = st
  /\ (ChatStore.u_id updates = None ->
      map ChatStore.m_id (ChatStore.messages st')
      = map ChatStore.m_id (ChatStore.messages st)).
Proof.
  cbn zeta. unfold ChatStore.updateMessage. cbn.
  split; [apply length_map|]. split; [|split; [|split]].
  - intros k m Hk. rewrite nth_error_map, Hk. reflexivity.
  - intros Hnone. apply set_messages_eq.
    rewrite <- (map_id (ChatStore.messages st)) at 2.
    apply map_ext_in. intros m Hm.
    rewrite jsstring_eqb_neq by (apply Hnone; exact Hm). reflexivity.
  - apply set_messages_eq.
    rewrite <- (map_id (ChatStore.messages st)) at 2.
    apply map_ext. intros m. destruct (jsstring_eqb _ _); [|reflexivity].
    destruct m. reflexivity.
  - intros Hid. rewrite map_map. apply map_ext. intros m.
    destruct (jsstring_eqb _ _); [|reflexivity].
    unfold ChatStore.spread. cbn. rewrite Hid. reflexivity.
Qed.

(** X14: two updates of the same message in a row, the first of which
    leaves the id alone, amount to the one update that carries the keys
    of both, those of the second winning. *)
Theorem updateMessage_twice (id : jsstring)
    (first second : ChatStore.MessageUpdates) (st : ChatStore.ChatState) :
  ChatStore.u_id first = None ->
  ChatStore.updateMessage id second (ChatStore.updateMessage id first st)
  = ChatStore.updateMessage id (ChatStore.spread_updates first second) st.
Proof.
  intros Hid. unfold ChatStore.updateMessage, ChatStore.set_messages.
  cbn [ChatStore.messages ChatStore.isLoading ChatStore.currentModel
       ChatStore.error].
  f_equal. rewrite map_map. apply map_ext. intros m.
  destruct (jsstring_eqb (ChatStore.m_id m) id) eqn:E.
  - assert (E' : jsstring_eqb (ChatStore.m_id (ChatStore.spread m first)) id = true).
    { unfold ChatStore.spread. cbn. rewrite Hid. exact E. }
    rewrite E'. destruct m, first, second. unfold ChatStore.spread,
      ChatStore.spread_updates. cbn.
    repeat match goal with
           | |- context [nullish_opt ?a ?b] => destruct a; cbn
           end; reflexivity.
  - rewrite E. reflexivity.
Qed.

Lemma removeMessage_undoes_addMessage_witness :
  ChatStore.getLastMessage
    (ChatStore.addMessage StoreFixture.answer StoreFixture.asked)
  = Some StoreFixture.answer
  /\ ChatStore.removeMessage (js "msg-2") StoreFixture.asked = StoreFixture.asked
  /\ ChatStore.removeMessage (js "msg-2")
       (ChatStore.addMessage StoreFixture.answer StoreFixture.asked)
     = StoreFixture.asked.
Proof.
  apply (@removeMessage_undoes_addMessage StoreFixture.answer StoreFixture.asked).
  intros m [<-|[]] H. vm_compute in H. discriminate.
Defined.

Lemma removeMessage_removes_all_witness :
  ChatStore.messages
    (ChatStore.removeMessage (js "msg-2")
       (ChatStore.addMessage StoreFixture.answer
          (ChatStore.addMessage StoreFixture.question
             (ChatStore.addMessage StoreFixture.answer ChatStore.initialState))))
  = [StoreFixture.question].
Proof.
  assert (H : js "msg-1" = js "msg-2" -> False)
    by (intros H; vm_compute in H; discriminate).
  exact (proj1 (proj2 (@removeMessage_removes_all (js "msg-2")
                         (ChatStore.addMessage StoreFixture.answer
                            (ChatStore.addMessage StoreFixture.question
                               (ChatStore.addMessage StoreFixture.answer
                                  ChatStore.initialState)))))
           [StoreFixture.answer] StoreFixture.question [StoreFixture.answer]
           eq_refl H).
Defined.

Lemma updateMessage_frame_witness :
  ChatStore.updateMessage (js "msg-2") StoreFixture.new_content StoreFixture.asked
  = StoreFixture.asked
  /\ map ChatStore.m_id
       (ChatStore.messages
          (ChatStore.updateMessage (js "msg-1") StoreFixture.new_content
             StoreFixture.asked))
     = [js "msg-1"].
Proof.
  destruct (@updateMessage_frame (js "msg-2") StoreFixture.new_content
              StoreFixture.asked) as (_ & _ & Hnone & _).
  destruct (@updateMessage_frame (js "msg-1") StoreFixture.new_content
              StoreFixture.asked) as (_ & _ & _ & _ & Hids).
  split.
  - apply Hnone. intros m [<-|[]] H. vm_compute in H. discriminate.
  - apply Hids. reflexivity.
Defined.

Lemma updateMessage_twice_witness :
  ChatStore.updateMessage (js "msg-1") StoreFixture.counted
    (ChatStore.updateMessage (js "msg-1") StoreFixture.new_content
       StoreFixture.asked)
  = ChatStore.updateMessage (js "msg-1")
      (ChatStore.mkUpdates None None (Some (js "<button>ok</button>")) None
         (Some (Some (3 # 1))) None)
      StoreFixture.asked.
Proof.
  exact (@updateMessage_twice (js "msg-1") StoreFixture.new_content
           StoreFixture.counted StoreFixture.asked eq_refl).
Defined.

(** * Properties of the watchers *)

Lemma find_absent {A} (f : A -> bool) (l : list A) :
  (forall x, In x l -> f x = false) -> find f l = None.
Proof.
  induction l as [|x l IH]; intros H; [reflexivity|]. cbn.
  rewrite (H x (or_introl eq_refl)). apply IH. intros y Hy. apply H. right. exact Hy.
Qed.

Lemma find_append {A} (f : A -> bool) (l1 l2 : list A) :
  find f (l1 ++ l2)
  = match find f l1 with Some x => Some x | None => find f l2 end.
Proof.
  induction l1 as [|x l1 IH]; [reflexivity|]. cbn.
  destruct (f x); [reflexivity|exact IH].
Qed.

Section StringMapFacts.

Context {V : Type}.
Implicit Types m : StringMap V.

Lemma map_has_false k m :
  map_has k m = false -> forall kv, In kv m -> fst kv <> k.
Proof.
  unfold map_has. induction m as [|x m IH]; intros H kv Hin Heq; [exact Hin|].
  cbn in H. apply orb_false_elim in H. destruct Hin as [<-|Hin].
  - rewrite Heq, jsstring_eqb_refl in H. destruct H. discriminate.
  - exact (IH (proj2 H) kv Hin Heq).
Qed.

Lemma map_delete_absent k m :
  (forall kv, In kv m -> fst kv <> k) -> map_delete k m = m.
Proof.
  intros H. apply filter_all. intros kv Hin.
  rewrite jsstring_eqb_neq by (apply H; exact Hin). reflexivity.
Qed.

Lemma map_set_absent k v m :
  map_has k m = false -> map_set k v m = m ++ [(k, v)].
Proof.
  unfold map_has. induction m as [|x m IH]; intros H; [reflexivity|].
  cbn in H. apply orb_false_elim in H. destruct H as [Hx Hm].
  cbn. rewrite Hx. f_equal. apply IH. exact Hm.
Qed.

Lemma map_delete_keys k m kv :
  In kv (map_delete k m) -> In kv m /\ fst kv <> k.
Proof.
  unfold map_delete. rewrite filter_In. intros [Hin Hk]. split; [exact Hin|].
  intros Heq. rewrite Heq, jsstring_eqb_refl in Hk. discriminate.
Qed.

Lemma map_delete_NoDup k m :
  NoDup (map fst m) -> NoDup (map fst (map_delete k m)).
Proof.
  induction m as [|x m IH]; intros H; [constructor|].
  inversion H as [|? ? Hx Hm]; subst. cbn.
  destruct (jsstring_eqb (fst x) k); cbn; [apply IH; exact Hm|].
  constructor; [|apply IH; exact Hm].
  intros Hin. apply Hx. apply in_map_iff in Hin.
  destruct Hin as (kv & Hfst & Hkv). apply map_delete_keys in Hkv.
  apply in_map_iff. exists kv. split; [exact Hfst|apply Hkv].
Qed.

(** Deleting the key found gives up exactly its value. *)
Lemma map_get_delete k w m :
  NoDup (map fst m) -> map_get k m = Some w ->
  Permutation (map snd m) (w :: map snd (map_delete k m)).
Proof.
  unfold map_get. induction m as [|x m IH]; intros Hnd Hget; [discriminate|].
  inversion Hnd as [|? ? Hx Hm]; subst. cbn in Hget |- *.
  destruct (jsstring_eqb (fst x) k) eqn:E; cbn.
  - injection Hget as <-. apply jsstring_eqb_eq in E.
    fold (map_delete k m). rewrite map_delete_absent; [reflexivity|].
    intros kv Hin Heq. apply Hx. apply in_map_iff. exists kv.
    split; [congruence|exact Hin].
  - fold (map_delete k m). rewrite (IH Hm Hget). apply perm_swap.
Qed.

End StringMapFacts.

Section WatcherFacts.

Context {Watcher Callback : Type}.
Variable watch : nat -> jsstring -> Result Watcher.
Implicit Types fm : FileManager Watcher.
Implicit Types l : list (WatchEffect Watcher Callback).

Lemma opened_app l1 l2 : opened (l1 ++ l2) = opened l1 ++ opened l2.
Proof.
  induction l1 as [|x l1 IH]; [reflexivity|].
  destruct x as [p c [w|err]|w|msg|msg err]; cbn; rewrite IH; reflexivity.
Qed.

Lemma closed_app l1 l2 : closed (l1 ++ l2) = closed l1 ++ closed l2.
Proof.
  induction l1 as [|x l1 IH]; [reflexivity|].
  destruct x as [p c r|w|msg|msg err]; cbn; rewrite IH; reflexivity.
Qed.

(** The loop of [unwatchAll] closes the watchers of its entries in their
    order, and leaves in the map what has none of their keys. *)
Lemma unwatchAll_loop_spec (entries : StringMap Watcher) : forall fm,
  let r := unwatchAll_loop Callback entries fm in
  snd r = map (fun kv => call_close (snd kv)) entries
  /\ projectsPath (fst r) = projectsPath fm
  /\ watch_calls (fst r) = watch_calls fm
  /\ forall kv, In kv (watchers (fst r)) ->
       In kv (watchers fm) /\ forall x, In x entries -> fst kv <> fst x.
Proof.
  induction entries as [|[p w] entries IH]; intros fm.
  - cbn. repeat split; [assumption|]. intros x [].
  - cbn [unwatchAll_loop].
    specialize (IH (set_watchers (map_delete p (watchers fm)) fm)).
    destruct (unwatchAll_loop Callback entries _) as [fm2 l2].
    cbn in IH |- *. destruct IH as (Hl & Hp & Hc & Hw).
    split; [rewrite Hl; reflexivity|]. split; [exact Hp|]. split; [exact Hc|].
    intros kv Hkv. destruct (Hw kv Hkv) as [Hin Hkeys].
    apply map_delete_keys in Hin. destruct Hin as [Hin Hne].
    split; [exact Hin|]. intros x [<-|Hx]; [exact Hne|apply Hkeys; exact Hx].
Qed.

Lemma unwatchAll_spec fm :
  unwatchAll Callback fm
  = (set_watchers [] fm,
     map (fun kv => call_close (snd kv)) (watchers fm)
     ++ [fm_console_log (js "Stopped watching all files")]).
Proof.
  unfold unwatchAll.
  pose proof (unwatchAll_loop_spec (watchers fm) fm) as H.
  destruct (unwatchAll_loop Callback (watchers fm) fm) as [fm1 l1].
  cbn in H. destruct H as (Hl & Hp & Hc & Hw). rewrite Hl. f_equal.
  destruct fm1 as [ws pp n]. cbn in *. unfold set_watchers. subst pp n.
  f_equal. destruct ws as [|kv ws]; [reflexivity|].
  destruct (Hw kv (or_introl eq_refl)) as [Hin Hkeys].
  exfalso. exact (Hkeys kv Hin eq_refl).
Qed.

Lemma closed_close_all (ws : StringMap Watcher) :
  closed (map (fun kv => @call_close Watcher Callback (snd kv)) ws) = map snd ws.
Proof. induction ws as [|kv ws IH]; [reflexivity|]. cbn. rewrite IH. reflexivity. Qed.

Lemma opened_close_all (ws : StringMap Watcher) :
  opened (map (fun kv => @call_close Watcher Callback (snd kv)) ws) = [].
Proof. induction ws as [|kv ws IH]; [reflexivity|]. exact IH. Qed.

Lemma watch_step_accounted c fm l :
  accounted fm l ->
  accounted (fst (watch_step watch c fm)) (l ++ snd (watch_step watch c fm)).
Proof.
  intros [Hnd Hperm]. unfold accounted.
  destruct c as [p cb|p|]; cbn [watch_step].
  - unfold watchFile. destruct (map_has p (watchers fm)) eqn:Hhas.
    + cbn. rewrite app_nil_r. split; assumption.
    + destruct (watch (watch_calls fm) p) as [w|err]; cbn [fst snd].
      * cbn [watchers set_watchers]. rewrite map_set_absent by exact Hhas.
        rewrite opened_app, closed_app, !map_app. cbn. split.
        -- apply NoDup_app; [exact Hnd|repeat constructor; intros []|].
           intros k Hk [<-|[]]. apply in_map_iff in Hk.
           destruct Hk as (kv & Hfst & Hin).
           exact (@map_has_false _ p (watchers fm) Hhas kv Hin Hfst).
        -- rewrite app_nil_r, app_assoc. apply Permutation_app_tail. exact Hperm.
      * cbn [watchers]. rewrite opened_app, closed_app. cbn.
        rewrite !app_nil_r. split; assumption.
  - unfold unwatchFile. destruct (map_get p (watchers fm)) as [w|] eqn:Hget.
    + cbn [fst snd watchers set_watchers]. rewrite opened_app, closed_app. cbn.
      rewrite app_nil_r. split; [apply map_delete_NoDup; exact Hnd|].
      rewrite Hperm, <- app_assoc. apply Permutation_app_head. cbn.
      apply map_get_delete; assumption.
    + cbn. rewrite app_nil_r. split; assumption.
  - rewrite unwatchAll_spec. cbn [fst snd watchers set_watchers].
    rewrite !opened_app, !closed_app, opened_close_all, closed_close_all. cbn.
    rewrite !app_nil_r. split; [constructor|exact Hperm].
Qed.

Lemma watch_run_accounted calls : forall fm l,
  accounted fm l ->
  accounted (fst (watch_run watch calls fm)) (l ++ snd (watch_run watch calls fm)).
Proof.
  induction calls as [|c calls IH]; intros fm l H.
  - cbn. rewrite app_nil_r. exact H.
  - cbn [watch_run]. pose proof (watch_step_accounted c H) as H1.
    destruct (watch_step watch c fm) as [fm1 l1]. cbn [fst snd] in H1.
    pose proof (IH fm1 (l ++ l1) H1) as H2.
    destruct (watch_run watch calls fm1) as [fm2 l2]. cbn [fst snd] in H2 |- *.
    rewrite app_assoc. exact H2.
Qed.

(** X15: whatever watching methods are called on a new file manager, and
    whatever [watch] returns or throws, a path has at most one watcher
    and the watchers in the map are exactly those opened and not yet
    closed: none is closed twice, none is lost.  [unwatchAll] then leaves
    the map empty and every watcher ever opened closed. *)
Theorem watchers_accounted (calls : list (WatchCall Callback)) (path : jsstring) :
  let fm := fst (watch_run watch calls (new_FileManager path)) in
  let l := snd (watch_run watch calls (new_FileManager path)) in
  NoDup (map fst (watchers fm))
  /\ Permutation (opened l) (closed l ++ map snd (watchers fm))
  /\ watchers (fst (unwatchAll Callback fm)) = []
  /\ Permutation (opened (l ++ snd (unwatchAll Callback fm)))
       (closed (l ++ snd (unwatchAll Callback fm))).
Proof.
  intros fm l.
  assert (H0 : accounted (new_FileManager (Watcher := Watcher) path)
                 (@nil (WatchEffect Watcher Callback))).
  { split; cbn; [constructor|reflexivity]. }
  pose proof (watch_run_accounted calls H0) as [Hnd Hperm].
  cbn [app] in Hperm. fold fm in Hnd, Hperm. fold l in Hperm.
  split; [exact Hnd|]. split; [exact Hperm|].
  rewrite unwatchAll_spec. cbn [fst snd watchers set_watchers].
  split; [reflexivity|].
  rewrite !opened_app, !closed_app, opened_close_all, closed_close_all. cbn.
  rewrite !app_nil_r. exact Hperm.
Qed.

(** X16: once a path is watched, a second request for it is dropped: it
    calls nothing, and its callback is never registered.  Stopping the
    watch closes the one watcher and gives back the map as it was before
    the path was watched; the watchers of the other paths are never
    touched. *)
Theorem watchFile_once filePath (callback other : Callback) fm w :
  map_has filePath (watchers fm) = false ->
  watch (watch_calls fm) filePath = Ok w ->
  let fm1 := fst (watchFile watch filePath callback fm) in
  map_get filePath (watchers fm1) = Some w
  /\ watchFile watch filePath other fm1 = (fm1, [])
  /\ (forall p, p <> filePath ->
        map_get p (watchers fm1) = map_get p (watchers fm))
  /\ watchers (fst (unwatchFile Callback filePath fm1)) = watchers fm
  /\ snd (unwatchFile Callback filePath fm1)
     = [call_close w; fm_console_log (js "Stopped watching file: " ++ filePath)].
Proof.
  intros Hhas Hw fm1. subst fm1. unfold watchFile. rewrite Hhas, Hw.
  cbn [fst snd watchers set_watchers]. rewrite map_set_absent by exact Hhas.
  assert (Habsent : find (fun kv : jsstring * Watcher => jsstring_eqb (fst kv) filePath)
                      (watchers fm) = None).
  { apply find_absent. intros kv Hin. apply jsstring_eqb_neq.
    exact (@map_has_false _ filePath (watchers fm) Hhas kv Hin). }
  assert (Hget : map_get filePath (watchers fm ++ [(filePath, w)]) = Some w).
  { unfold map_get. rewrite find_append, Habsent. cbn.
    rewrite jsstring_eqb_refl. reflexivity. }
  split; [exact Hget|]. split; [|split].
  - unfold map_has. rewrite existsb_app. cbn. rewrite jsstring_eqb_refl.
    rewrite orb_true_r. reflexivity.
  - intros p Hp. unfold map_get. rewrite find_append.
    destruct (find (fun kv : jsstring * Watcher => jsstring_eqb (fst kv) p)
                (watchers fm)); [reflexivity|]. cbn.
    rewrite jsstring_eqb_neq by congruence. reflexivity.
  - unfold unwatchFile. cbn [watchers set_watchers]. rewrite Hget.
    cbn [fst snd watchers set_watchers]. split; [|reflexivity].
    unfold map_delete. rewrite filter_app. cbn. rewrite jsstring_eqb_refl. cbn.
    rewrite app_nil_r. apply map_delete_absent.
    exact (@map_has_false _ filePath (watchers fm) Hhas).
Qed.

End WatcherFacts.

Section CleanupFacts.

Context {Llama LlamaModel LlamaContext LlamaChatSession Watcher Callback : Type}.

(** X17: the cleanup of the main process never throws.  It closes every
    watcher of the map once, in the order in which they were set up,
    before the engine is unloaded, and leaves no watcher behind whether or
    not the unloading goes through. *)
Theorem cleanup_never_throws
    (rt : Runtime Llama LlamaModel LlamaContext LlamaChatSession)
    (fm : FileManager Watcher)
    (e : LLMEngine LlamaModel LlamaContext LlamaChatSession) :
  let r := @cleanup _ _ _ _ _ Callback rt fm e in
  result (snd r) = Ok tt
  /\ watchers (fst (fst r)) = []
  /\ closed (snd (fst r)) = map snd (watchers fm)
  /\ opened (snd (fst r)) = []
  /\ ((forall c, contextDispose rt c = Ok tt) ->
      (forall m, modelDispose rt m = Ok tt) ->
      Unloaded (engine (snd r))).
Proof.
  cbn zeta. unfold cleanup. rewrite unwatchAll_spec.
  cbn [fst snd watchers set_watchers].
  split; [apply unload_returns|]. split; [reflexivity|].
  rewrite closed_app, opened_app, closed_close_all, opened_close_all. cbn.
  rewrite app_nil_r. split; [reflexivity|]. split; [reflexivity|].
  intros Hc Hm. apply unload_unloads; assumption.
Qed.

End CleanupFacts.

Lemma watchFile_once_witness :
  watchFile WatchFixture.watch_counting (js "/p/a.ts") tt WatchFixture.watching
  = (WatchFixture.watching, [])
  /\ watchers (fst (unwatchFile unit (js "/p/a.ts") WatchFixture.watching)) = []
  /\ snd (unwatchFile unit (js "/p/a.ts") WatchFixture.watching)
     = [call_close 0; fm_console_log (js "Stopped watching file: /p/a.ts")].
Proof.
  destruct (@watchFile_once nat unit WatchFixture.watch_counting (js "/p/a.ts")
              tt tt WatchFixture.manager 0 eq_refl eq_refl)
    as (_ & Hsecond & _ & Hmap & Hclose).
  split; [exact Hsecond|]. split; [exact Hmap|exact Hclose].
Defined.

Lemma cleanup_never_throws_witness :
  result (snd (@cleanup _ _ _ _ _ unit (Fixture.rt_ok []) WatchFixture.watching
                 Fixture.loaded))
  = Ok tt
  /\ closed (snd (fst (@cleanup _ _ _ _ _ unit (Fixture.rt_ok [])
                         WatchFixture.watching Fixture.loaded)))
     = [0]
  /\ Unloaded (engine (snd (@cleanup _ _ _ _ _ unit (Fixture.rt_ok [])
                              WatchFixture.watching Fixture.loaded))).
Proof.
  destruct (@cleanup_never_throws unit jsstring jsstring (list jsstring) nat unit
              (Fixture.rt_ok []) WatchFixture.watching Fixture.loaded)
    as (Hres & _ & Hclosed & _ & Hunloaded).
  split; [exact Hres|]. split; [exact Hclosed|].
  apply Hunloaded; intros; reflexivity.
Defined.

(** * Properties of the listing of a directory *)

Section ListFilesFacts.

Variable join : jsstring -> jsstring -> jsstring.

Lemma processEntry_dir recursive relativePath name readdir files :
  processEntry join recursive relativePath (entry_dir name readdir) files
  = if skipped name then Ok files
    else if recursive
         then processDir join recursive (join relativePath name) readdir
                (files ++ [dir_info join relativePath name])
         else Ok (files ++ [dir_info join relativePath name]).
Proof.
  cbn [processEntry]. destruct (skipped name); [reflexivity|].
  destruct recursive; [|reflexivity].
  destruct readdir as [entries|err]; [|reflexivity].
  unfold processDir. generalize (files ++ [dir_info join relativePath name]).
  induction entries as [|entry rest IH]; intros acc; [reflexivity|].
  cbn [processEntries].
  destruct (processEntry join true (join relativePath name) entry acc);
    [apply IH|reflexivity].
Qed.

Lemma visited_entry_dir recursive name readdir :
  visited_entry recursive (entry_dir name readdir)
  = if skipped name then []
    else if recursive
         then [entry_dir name
                 match readdir with
                 | Ok entries => Ok (visited recursive entries)
                 | Throw err => Throw err
                 end]
         else [entry_dir name (Ok [])].
Proof.
  cbn [visited_entry]. destruct (skipped name); [reflexivity|].
  destruct recursive; [|reflexivity].
  destruct readdir as [entries|err]; [|reflexivity].
  match goal with
  | |- [entry_dir _ (Ok ?X)] = [entry_dir _ (Ok ?Y)] =>
      assert (H : X = Y); [|rewrite H; reflexivity]
  end.
  induction entries as [|entry rest IH]; [reflexivity|].
  cbn [visited flat_map]. rewrite IH. reflexivity.
Qed.

Lemma failure_entry_dir recursive name readdir :
  failure_entry recursive (entry_dir name readdir)
  = if skipped name then None
    else if recursive
         then match readdir with
              | Ok entries => first_failure recursive entries
              | Throw err => Some err
              end
         else None.
Proof.
  cbn [failure_entry]. destruct (skipped name); [reflexivity|].
  destruct recursive; [|reflexivity].
  destruct readdir as [entries|err]; [|reflexivity].
  induction entries as [|entry rest IH]; [reflexivity|].
  cbn [first_failure]. rewrite IH. reflexivity.
Qed.

Lemma count_entry_dir recursive name readdir :
  count_entry recursive (entry_dir name readdir)
  = if skipped name then 0
    else if recursive
         then match readdir with
              | Ok entries => S (count_entries recursive entries)
              | Throw _ => 1
              end
         else 1.
Proof.
  cbn [count_entry]. destruct (skipped name); [reflexivity|].
  destruct recursive; [|reflexivity].
  destruct readdir as [entries|err]; [|reflexivity].
  match goal with
  | |- S ?X = S ?Y => assert (H : X = Y); [|rewrite H; reflexivity]
  end.
  induction entries as [|entry rest IH]; [reflexivity|].
  unfold count_entries. cbn [map list_sum]. rewrite IH. reflexivity.
Qed.

Lemma processEntries_spec recursive entries :
  Forall (fun entry => forall relativePath files,
            run_spec recursive (failure_entry recursive entry)
              (count_entry recursive entry) files
              (processEntry join recursive relativePath entry files)) entries ->
  forall relativePath files,
    run_spec recursive (first_failure recursive entries)
      (count_entries recursive entries) files
      (processEntries join recursive relativePath entries files).
Proof.
  induction 1 as [|entry rest Hentry _ IH]; intros relativePath files.
  - exists []. rewrite app_nil_r. repeat split. constructor.
  - cbn [first_failure processEntries]. unfold count_entries. cbn [map list_sum].
    specialize (Hentry relativePath files). unfold run_spec in Hentry.
    destruct (failure_entry recursive entry) as [err|].
    + rewrite Hentry. reflexivity.
    + destruct Hentry as (out & -> & Hlen & Hnames).
      specialize (IH relativePath (files ++ out)). unfold run_spec in IH |- *.
      destruct (first_failure recursive rest) as [err|]; [exact IH|].
      destruct IH as (out' & -> & Hlen' & Hnames').
      exists (out ++ out'). rewrite app_assoc, length_app, Hlen, Hlen'.
      repeat split. apply Forall_app. split; assumption.
Qed.

Lemma processEntry_spec recursive entry : forall relativePath files,
  run_spec recursive (failure_entry recursive entry)
    (count_entry recursive entry) files
    (processEntry join recursive relativePath entry files).
Proof.
  induction entry as [name stat|name entries IH|name err]
    using DirEntry_induction; intros relativePath files.
  - cbn [failure_entry count_entry processEntry].
    destruct (skipped name) eqn:Hname.
    + exists []. rewrite app_nil_r. repeat split. constructor.
    + destruct stat as [st|err]; [|reflexivity].
      eexists. split; [reflexivity|]. split; [reflexivity|].
      repeat constructor. exact Hname.
  - rewrite failure_entry_dir, count_entry_dir, processEntry_dir.
    destruct (skipped name) eqn:Hname.
    + exists []. rewrite app_nil_r. repeat split. constructor.
    + destruct recursive.
      * pose proof (@processEntries_spec true entries IH (join relativePath name)
                      (files ++ [dir_info join relativePath name])) as H.
        unfold run_spec in H |- *. cbn [processDir].
        destruct (first_failure true entries) as [err|]; [exact H|].
        destruct H as (out & -> & Hlen & Hnames).
        exists (dir_info join relativePath name :: out). rewrite <- app_assoc.
        split; [reflexivity|]. split; [cbn; rewrite Hlen; reflexivity|].
        constructor; [exact Hname|exact Hnames].
      * eexists. split; [reflexivity|]. split; [reflexivity|].
        repeat constructor. exact Hname.
  - rewrite failure_entry_dir, count_entry_dir, processEntry_dir.
    destruct (skipped name) eqn:Hname.
    + exists []. rewrite app_nil_r. repeat split. constructor.
    + destruct recursive; [reflexivity|].
      eexists. split; [reflexivity|]. split; [reflexivity|].
      repeat constructor. exact Hname.
Qed.

Lemma processEntries_run recursive entries relativePath files :
  run_spec recursive (first_failure recursive entries)
    (count_entries recursive entries) files
    (processEntries join recursive relativePath entries files).
Proof.
  apply processEntries_spec. apply Forall_forall. intros entry _.
  apply processEntry_spec.
Qed.

(** The entries that a listing skips or never reads make no difference. *)
Lemma processEntries_visited recursive entries :
  Forall (fun entry => forall relativePath files,
            processEntry join recursive relativePath entry files
            = processEntries join recursive relativePath
                (visited_entry recursive entry) files) entries ->
  forall relativePath files,
    processEntries join recursive relativePath entries files
    = processEntries join recursive relativePath (visited recursive entries) files.
Proof.
  assert (Happ : forall l1 l2 relativePath files,
            processEntries join recursive relativePath (l1 ++ l2) files
            = match processEntries join recursive relativePath l1 files with
              | Ok files1 => processEntries join recursive relativePath l2 files1
              | Throw err => Throw err
              end).
  { induction l1 as [|x l1 IHl]; intros l2 relativePath files; [reflexivity|].
    cbn [app processEntries].
    destruct (processEntry join recursive relativePath x files);
      [apply IHl|reflexivity]. }
  induction 1 as [|entry rest Hentry _ IH]; intros relativePath files;
    [reflexivity|].
  cbn [visited flat_map processEntries]. rewrite Happ, <- Hentry.
  destruct (processEntry join recursive relativePath entry files);
    [apply IH|reflexivity].
Qed.

Lemma processEntry_visited recursive entry : forall relativePath files,
  processEntry join recursive relativePath entry files
  = processEntries join recursive relativePath (visited_entry recursive entry) files.
Proof.
  induction entry as [name stat|name entries IH|name err]
    using DirEntry_induction; intros relativePath files.
  - cbn [visited_entry processEntry]. destruct (skipped name) eqn:Hname;
      [reflexivity|].
    cbn [processEntries processEntry]. rewrite Hname.
    destruct stat; reflexivity.
  - rewrite visited_entry_dir, processEntry_dir.
    destruct (skipped name) eqn:Hname; [reflexivity|].
    destruct recursive; cbn [processEntries]; rewrite processEntry_dir, Hname.
    + cbn [processDir]. rewrite <- (@processEntries_visited true entries IH).
      destruct (processEntries join true _ entries _); reflexivity.
    + reflexivity.
  - rewrite visited_entry_dir, processEntry_dir.
    destruct (skipped name) eqn:Hname; [reflexivity|].
    destruct recursive; cbn [processEntries]; rewrite processEntry_dir, Hname;
      reflexivity.
Qed.

(** X18: a listing never shows an entry whose name starts with a dot or
    is [node_modules], and nothing that lies in such a directory; what
    these hold, and what the directories of a listing that is not
    recursive hold, is not even read, so that it makes no difference to
    the result, errors included. *)
Theorem listFiles_skips_hidden dirPath recursive entries :
  listFiles join dirPath recursive (Ok entries)
  = listFiles join dirPath recursive (Ok (visited recursive entries))
  /\ forall files,
       fst (listFiles join dirPath recursive (Ok entries)) = Ok files ->
       Forall (fun info => skipped (fi_name info) = false) files.
Proof.
  split.
  - unfold listFiles, processDir.
    rewrite (@processEntries_visited recursive entries); [reflexivity|].
    apply Forall_forall. intros entry _. apply processEntry_visited.
  - intros files. unfold listFiles, processDir.
    pose proof (processEntries_run recursive entries [] []) as H.
    unfold run_spec in H.
    destruct (first_failure recursive entries) as [err|].
    + rewrite H. discriminate.
    + destruct H as (out & -> & _ & Hnames). cbn. intros Heq.
      injection Heq as <-. exact Hnames.
Qed.

(** X19: a listing is all or nothing.  If [fs.readdir] fails on the
    directory or on a directory the listing enters, or [fs.stat] on a file
    on its way, [listFiles] throws that first failure as
    [Failed to list files: ...] and returns no entry, and the handler
    throws the same error on; otherwise both return one entry for each
    file and directory on the way.  A handler that is not told whether to
    recurse does not. *)
Theorem listFiles_all_or_nothing dirPath (recursive : option bool) readdir :
  let deep := nullish recursive false in
  match listing_failure deep readdir with
  | Some err =>
      listFiles join dirPath deep readdir
      = (Throw (js "Failed to list files: " ++ err),
         [(js "Failed to list files in " ++ dirPath ++ js ":", err)])
      /\ handleFileList join dirPath recursive readdir
         = (Throw (js "Failed to list files: " ++ err),
            [(js "Failed to list files in " ++ dirPath ++ js ":", err);
             (js "File list error:", js "Failed to list files: " ++ err)])
  | None =>
      exists files,
        listFiles join dirPath deep readdir = (Ok files, [])
        /\ handleFileList join dirPath recursive readdir = (Ok files, [])
        /\ length files = listing_count deep readdir
  end.
Proof.
  cbn zeta. unfold handleFileList, listFiles.
  destruct readdir as [entries|err]; [|split; reflexivity].
  cbn [listing_failure listing_count processDir].
  pose proof (processEntries_run (nullish recursive false) entries [] []) as H.
  unfold run_spec in H.
  destruct (first_failure (nullish recursive false) entries) as [err|].
  - rewrite H. split; reflexivity.
  - destruct H as (out & -> & Hlen & _). exists out.
    split; [reflexivity|]. split; [reflexivity|exact Hlen].
Qed.

Lemma processEntries_acc recursive entries :
  Forall (fun entry => forall relativePath files,
            processEntry join recursive relativePath entry files
            = match processEntry join recursive relativePath entry [] with
              | Ok out => Ok (files ++ out)
              | Throw err => Throw err
              end) entries ->
  forall relativePath files,
    processEntries join recursive relativePath entries files
    = match processEntries join recursive relativePath entries [] with
      | Ok out => Ok (files ++ out)
      | Throw err => Throw err
      end.
Proof.
  induction 1 as [|entry rest Hentry _ IH]; intros relativePath files.
  - cbn. rewrite app_nil_r. reflexivity.
  - cbn [processEntries]. rewrite Hentry.
    destruct (processEntry join recursive relativePath entry []) as [out|err];
      [|reflexivity].
    rewrite (IH relativePath (files ++ out)), (IH relativePath out).
    destruct (processEntries join recursive relativePath rest []); [|reflexivity].
    rewrite app_assoc. reflexivity.
Qed.

Lemma processEntry_acc recursive entry : forall relativePath files,
  processEntry join recursive relativePath entry files
  = match processEntry join recursive relativePath entry [] with
    | Ok out => Ok (files ++ out)
    | Throw err => Throw err
    end.
Proof.
  induction entry as [name stat|name entries IH|name err]
    using DirEntry_induction; intros relativePath files.
  - cbn [processEntry]. destruct (skipped name);
      [rewrite app_nil_r; reflexivity|].
    destruct stat; reflexivity.
  - rewrite !processEntry_dir. destruct (skipped name);
      [rewrite app_nil_r; reflexivity|].
    destruct recursive; [|reflexivity]. cbn [processDir app].
    rewrite (@processEntries_acc true entries IH _ (files ++ _)),
      (@processEntries_acc true entries IH _ [_]).
    destruct (processEntries join true _ entries []); [|reflexivity].
    rewrite <- app_assoc. reflexivity.
  - rewrite !processEntry_dir. destruct (skipped name);
      [rewrite app_nil_r; reflexivity|].
    destruct recursive; reflexivity.
Qed.

(** X20: a recursive listing goes through the tree in pre-order: the
    entry of a directory comes first, then the listing of what the
    directory holds, with paths joined to the path of the directory, then
    the entries that follow the directory.  A listing that is not
    recursive has the entry of the directory only, whatever it holds. *)
Theorem listFiles_directory_first dirPath name held rest inner after :
  skipped name = false ->
  processDir join true (join [] name) (Ok held) [] = Ok inner ->
  fst (listFiles join dirPath true (Ok rest)) = Ok after ->
  fst (listFiles join dirPath true (Ok (entry_dir name (Ok held) :: rest)))
  = Ok (dir_info join [] name :: inner ++ after)
  /\ forall readdir flat,
       fst (listFiles join dirPath false (Ok rest)) = Ok flat ->
       fst (listFiles join dirPath false (Ok (entry_dir name readdir :: rest)))
       = Ok (dir_info join [] name :: flat).
Proof.
  intros Hname Hinner Hafter.
  assert (Hacc : forall recursive entries relativePath files,
            processEntries join recursive relativePath entries files
            = match processEntries join recursive relativePath entries [] with
              | Ok out => Ok (files ++ out)
              | Throw err => Throw err
              end).
  { intros recursive entries. apply processEntries_acc. apply Forall_forall.
    intros entry _. apply processEntry_acc. }
  assert (Hrest : forall recursive out,
            fst (listFiles join dirPath recursive (Ok rest)) = Ok out ->
            processEntries join recursive [] rest [] = Ok out).
  { intros recursive out. unfold listFiles, processDir.
    destruct (processEntries join recursive [] rest []); [exact (fun H => H)|].
    discriminate. }
  split.
  - unfold listFiles. cbn [processDir processEntries].
    rewrite processEntry_dir, Hname. cbn [processDir app] in Hinner |- *.
    rewrite Hacc, Hinner, Hacc, (Hrest true after Hafter). reflexivity.
  - intros readdir flat Hflat. unfold listFiles. cbn [processDir processEntries].
    rewrite processEntry_dir, Hname. cbn [app].
    rewrite Hacc, (Hrest false flat Hflat). reflexivity.
Qed.

End ListFilesFacts.

Lemma listFiles_skips_hidden_witness :
  listFiles TreeFixture.join (js "/p") true (Ok TreeFixture.project)
  = listFiles TreeFixture.join (js "/p") true
      (Ok [TreeFixture.src_dir; TreeFixture.index_html])
  /\ Forall (fun info => skipped (fi_name info) = false)
       [dir_info TreeFixture.join [] (js "src");
        mkFileInfo (js "src/main.ts") (js "main.ts") file None None
          (Some (64 # 1)) (Some (1700000000000 # 1));
        mkFileInfo (js "index.html") (js "index.html") file None None
          (Some (120 # 1)) (Some (1700000000500 # 1))].
Proof.
  destruct (@listFiles_skips_hidden TreeFixture.join (js "/p") true
              TreeFixture.project) as [Hsame Hnames].
  split.
  - rewrite Hsame.
    apply (proj1 (@listFiles_skips_hidden TreeFixture.join (js "/p") true
                    [TreeFixture.src_dir; TreeFixture.index_html])).
  - apply Hnames. reflexivity.
Defined.

Lemma listFiles_directory_first_witness :
  fst (listFiles TreeFixture.join (js "/p") true
         (Ok [entry_dir (js "src") (Ok [TreeFixture.main_ts]);
              TreeFixture.index_html]))
  = Ok [dir_info TreeFixture.join [] (js "src");
        mkFileInfo (js "src/main.ts") (js "main.ts") file None None
          (Some (64 # 1)) (Some (1700000000000 # 1));
        mkFileInfo (js "index.html") (js "index.html") file None None
          (Some (120 # 1)) (Some (1700000000500 # 1))].
Proof.
  exact (proj1 (@listFiles_directory_first TreeFixture.join (js "/p") (js "src")
                  [TreeFixture.main_ts] [TreeFixture.index_html] _ _
                  eq_refl eq_refl eq_refl)).
Defined.

(** * Properties of the file explorer *)

Lemma split_slash_cons (s : jsstring) :
  exists part parts, split_slash s = part :: parts
                     /\ existsb (N.eqb SLASH) part = false.
Proof.
  induction s as [|c s (part & parts & IH & Hno)].
  - exists [], []. split; reflexivity.
  - cbn [split_slash]. destruct (N.eqb c SLASH) eqn:Ec.
    + exists [], (split_slash s). split; reflexivity.
    + rewrite IH. exists (c :: part), parts. split; [reflexivity|].
      cbn [existsb]. rewrite N.eqb_sym, Ec. exact Hno.
Qed.

Section StringMapLookup.

Context {V : Type}.
Implicit Types m : StringMap V.

Lemma map_get_set k p v m :
  map_get k (map_set p v m) = if jsstring_eqb p k then Some v else map_get k m.
Proof.
  unfold map_get. induction m as [|[q w] m IH]; cbn.
  - destruct (jsstring_eqb p k); reflexivity.
  - destruct (jsstring_eqb q p) eqn:Eq; cbn.
    + apply jsstring_eqb_eq in Eq. subst q.
      destruct (jsstring_eqb p k); reflexivity.
    + destruct (jsstring_eqb q k) eqn:Ek.
      * destruct (jsstring_eqb p k) eqn:Ep; [|reflexivity].
        apply jsstring_eqb_eq in Ek, Ep. subst. rewrite jsstring_eqb_refl in Eq.
        discriminate.
      * exact IH.
Qed.

Lemma map_get_has k m : map_has k m = negb (match map_get k m with
                                            | Some _ => false
                                            | None => true
                                            end).
Proof.
  unfold map_has, map_get. induction m as [|[q w] m IH]; [reflexivity|].
  cbn. destruct (jsstring_eqb q k); [reflexivity|exact IH].
Qed.

End StringMapLookup.

Section BuildFileTreeFacts.

Variable inherited : jsstring -> bool.
Variable sort : list FileInfo -> list FileInfo.

(** Past the first part of a path, on a record of its own, the inner loop
    leaves no trace. *)
Lemma walk_temp parts : forall type i before d st,
  i <> 0 -> walk inherited type i before parts (at_temp d) st = st.
Proof.
  induction parts as [|part rest IH]; intros type i before d st Hi;
    [reflexivity|].
  cbn [walk dict_of assign].
  destruct (Nat.eqb_spec i 0) as [->|_]; [contradiction|].
  destruct (truthy_at inherited d part); cbn [dict_of];
    match goal with
    | |- context [children_at ?d' part] =>
        destruct (children_at d' part) as [children|]
    end; [destruct (negb _)| |destruct (negb _)|]; apply IH; discriminate.
Qed.

(** Past the first part of a path the inner loop pushes no root, and
    what [tree] holds it goes on holding. *)
Lemma walk_deep parts : forall type i before current st,
  i <> 0 ->
  roots (walk inherited type i before parts current st) = roots st
  /\ forall k n, map_get k (tree st) = Some n ->
       map_get k (tree (walk inherited type i before parts current st)) = Some n.
Proof.
  induction parts as [|part rest IH]; intros type i before current st Hi.
  - split; [reflexivity|]. intros k n H. exact H.
  - cbn [walk].
    destruct (truthy_at inherited (dict_of current st) part) eqn:Htruthy.
    + apply IH. discriminate.
    + destruct (Nat.eqb_spec i 0) as [->|_]; [contradiction|].
      destruct current as [|d]; cbn [assign dict_of] in *.
      * match goal with
        | |- context [walk inherited type (S i) ?b rest ?c ?s] =>
            destruct (IH type (S i) b c s) as [Hroots Htree]; [discriminate|]
        end.
        split; [rewrite Hroots; reflexivity|].
        intros k n Hk. apply Htree. cbn [tree]. rewrite map_get_set.
        destruct (jsstring_eqb part k) eqn:E; [|exact Hk].
        apply jsstring_eqb_eq in E. subst k. unfold truthy_at in Htruthy.
        rewrite Hk in Htruthy. discriminate.
      * apply IH. discriminate.
Qed.

(** One file adds at most one root: a node for the first part of its
    path, if [tree] had nothing under that key. *)
Lemma place_roots st f :
  roots (place inherited st f)
  = roots st ++ (if truthy_at inherited (tree st) (first_part f) then []
                 else [top_node f])
  /\ (forall k n, map_get k (tree st) = Some n ->
        map_get k (tree (place inherited st f)) = Some n)
  /\ (truthy_at inherited (tree st) (first_part f) = false ->
      map_get (first_part f) (tree (place inherited st f)) = Some (top_node f)).
Proof.
  unfold place, top_node, first_part.
  destruct (split_slash_cons (fi_path f)) as (part & rest & -> & _).
  cbn [walk hd dict_of app join_slash length].
  assert (Hlast : (1 <? S (length rest)) = negb match rest with
                                                | [] => true
                                                | _ :: _ => false
                                                end)
    by (destruct rest; reflexivity).
  rewrite Hlast.
  destruct (truthy_at inherited (tree st) part) eqn:Htruthy.
  - match goal with
    | |- context [walk inherited ?t 1 ?b rest ?c st] =>
        destruct (@walk_deep rest t 1 b c st) as [Hroots Htree]; [discriminate|]
    end.
    rewrite Hroots, app_nil_r. split; [reflexivity|].
    split; [exact Htree|discriminate].
  - cbn [assign Nat.eqb tree roots dict_of].
    match goal with
    | |- context [walk inherited ?t 1 ?b rest ?c ?s] =>
        destruct (@walk_deep rest t 1 b c s) as [Hroots Htree]; [discriminate|]
    end.
    rewrite Hroots. cbn [roots]. split; [reflexivity|]. split.
    + intros k n Hk. apply Htree. cbn [tree]. rewrite map_get_set.
      destruct (jsstring_eqb part k) eqn:E; [|exact Hk].
      apply jsstring_eqb_eq in E. subst k. unfold truthy_at in Htruthy.
      rewrite Hk in Htruthy. discriminate.
    + intros _. apply Htree. cbn [tree]. rewrite map_get_set, jsstring_eqb_refl.
      reflexivity.
Qed.

Lemma place_top_level files st f :
  In f files -> top_level inherited files st ->
  top_level inherited files (place inherited st f).
Proof.
  intros Hf [Hnd Hall]. destruct (place_roots st f) as (Hroots & Htree & Hnew).
  unfold top_level. rewrite Hroots.
  assert (Hold : Forall (fun n =>
                   (exists n', map_get (node_name n) (tree (place inherited st f))
                               = Some n')
                   /\ inherited (node_name n) = false
                   /\ exists f, In f files /\ n = top_node f) (roots st)).
  { eapply Forall_impl; [|exact Hall]. cbn beta.
    intros n ((n' & Hn') & Hinh & Hfrom). split; [|split; assumption].
    exists n'. apply Htree. exact Hn'. }
  destruct (truthy_at inherited (tree st) (first_part f)) eqn:Htruthy.
  - rewrite app_nil_r. split; assumption.
  - unfold truthy_at in Htruthy.
    destruct (map_get (first_part f) (tree st)) as [n0|] eqn:Hget; [discriminate|].
    split.
    + rewrite map_app. apply NoDup_app; [exact Hnd|repeat constructor; intros []|].
      intros name Hin [<-|[]]. apply in_map_iff in Hin.
      destruct Hin as (n & Hname & Hn).
      rewrite Forall_forall in Hall. destruct (Hall n Hn) as ((n' & Hn') & _).
      cbn [top_node node_name] in Hname. rewrite Hname, Hget in Hn'. discriminate.
    + apply Forall_app. split; [exact Hold|]. constructor; [|constructor].
      split; [|split].
      * exists (top_node f). cbn [top_node node_name]. apply Hnew. reflexivity.
      * exact Htruthy.
      * exists f. split; [exact Hf|reflexivity].
Qed.

Lemma fold_top_level files : forall l st,
  (forall f, In f l -> In f files) -> top_level inherited files st ->
  top_level inherited files (fold_left (place inherited) l st).
Proof.
  induction l as [|f l IH]; intros st Hsub Hst; [exact Hst|].
  cbn [fold_left]. apply IH.
  - intros g Hg. apply Hsub. right. exact Hg.
  - apply place_top_level; [apply Hsub; left; reflexivity|exact Hst].
Qed.

(** X21: the tree that the explorer builds is flat.  Every node stands
    for the first part of the path of a file of the list, its path is
    that part alone, no two nodes have the same name, none has a name
    that an object inherits, and no node has a child: a directory has an
    empty list of children, whatever the list holds below it. *)
Theorem buildFileTree_flat (fileList : list FileInfo) :
  let shown := buildFileTree inherited sort fileList in
  NoDup (map node_name shown)
  /\ Forall (fun n =>
       node_path n = node_name n
       /\ existsb (N.eqb SLASH) (node_path n) = false
       /\ node_children n
          = (if is_directory (node_type n) then Some [] else None)
       /\ inherited (node_name n) = false
       /\ exists f, In f (sort fileList) /\ first_part f = node_name n) shown.
Proof.
  cbn zeta. unfold buildFileTree.
  destruct (@fold_top_level (sort fileList) (sort fileList) (mkBuild [] []))
    as [Hnd Hall].
  - intros f Hf. exact Hf.
  - split; [constructor|constructor].
  - split; [exact Hnd|]. eapply Forall_impl; [|exact Hall]. cbn beta.
    intros n (_ & Hinh & f & Hf & ->).
    split; [reflexivity|]. split; [|split; [|split]].
    + cbn [top_node node_path]. unfold first_part.
      destruct (split_slash_cons (fi_path f)) as (part & rest & -> & Hno).
      exact Hno.
    + unfold top_node. cbn [node_children node_type].
      destruct ((1 <? length (split_slash (fi_path f))) || is_directory (fi_type f));
        reflexivity.
    + exact Hinh.
    + exists f. split; [exact Hf|reflexivity].
Qed.

(** A file whose first part [tree] has under a node that can have
    children, or whose path has one part, changes nothing. *)
Lemma place_existing st f n :
  map_get (first_part f) (tree st) = Some n ->
  (exists children, node_children n = Some children)
  \/ split_slash (fi_path f) = [first_part f] ->
  place inherited st f = st.
Proof.
  unfold place, first_part.
  destruct (split_slash_cons (fi_path f)) as (part & rest & -> & _).
  cbn [hd]. intros Hget Hcase. cbn [walk dict_of].
  unfold truthy_at, children_at. rewrite Hget. cbn [dict_of]. rewrite Hget.
  destruct Hcase as [[children Hchildren]|Hsingle].
  - rewrite Hchildren. destruct rest as [|part' rest]; [reflexivity|].
    cbn [negb]. apply walk_temp. discriminate.
  - injection Hsingle as ->. destruct (node_children n); reflexivity.
Qed.

(** A file whose first part [tree] does not have, and no object
    inherits, adds its node to [tree] and to the roots, and no more. *)
Lemma place_new st f :
  map_get (first_part f) (tree st) = None ->
  inherited (first_part f) = false ->
  place inherited st f
  = mkBuild (map_set (first_part f) (top_node f) (tree st))
      (roots st ++ [top_node f]).
Proof.
  unfold place, top_node, first_part.
  destruct (split_slash_cons (fi_path f)) as (part & rest & -> & _).
  cbn [hd length]. intros Hget Hinh. cbn [walk dict_of app join_slash].
  unfold truthy_at. rewrite Hget, Hinh.
  cbn [assign Nat.eqb tree roots dict_of].
  unfold children_at. rewrite map_get_set, jsstring_eqb_refl. cbn beta iota.
  destruct rest as [|part' rest].
  - cbn [negb orb Nat.ltb Nat.leb length]. destruct (is_directory (fi_type f));
      reflexivity.
  - cbn [negb orb node_children]. apply walk_temp. discriminate.
Qed.

(** The record that mirrors the nodes made for [done]. *)
Let mirror (done : list FileInfo) : Dict :=
  map (fun f => (first_part f, top_node f)) done.

Lemma mirror_get done key :
  match map_get key (mirror done) with
  | Some n => exists g, In g done /\ first_part g = key /\ n = top_node g
  | None => existsb (fun s => jsstring_eqb s key) (map first_part done) = false
  end.
Proof.
  unfold map_get, mirror. induction done as [|g done IH]; [reflexivity|].
  cbn [map find fst existsb]. destruct (jsstring_eqb (first_part g) key) eqn:E.
  - cbn [snd]. exists g. split; [left; reflexivity|].
    split; [apply jsstring_eqb_eq; exact E|reflexivity].
  - cbn [orb]. destruct (find _ _) as [kv|].
    + destruct IH as (g' & Hin & Hkey & Hn). exists g'.
      split; [right; exact Hin|]. split; assumption.
    + exact IH.
Qed.

Section Regular.

Variable files : list FileInfo.

Hypothesis none_inherited :
  forall f, In f files -> inherited (first_part f) = false.

Hypothesis nothing_below_a_file :
  forall f g, In f files -> In g files ->
    fi_type g = file -> split_slash (fi_path g) = [first_part f] ->
    split_slash (fi_path f) = [first_part f].

Lemma fold_regular : forall l done,
  (forall f, In f done -> In f files) ->
  (forall f, In f l -> In f files) ->
  roots (fold_left (place inherited) l
           (mkBuild (mirror done) (map top_node done)))
  = map top_node (done ++ firsts (map first_part done) l).
Proof.
  induction l as [|f l IH]; intros done Hdone Hl.
  - cbn. rewrite app_nil_r. reflexivity.
  - cbn [fold_left firsts].
    pose proof (mirror_get done (first_part f)) as Hget.
    destruct (map_get (first_part f) (mirror done)) as [n|] eqn:E.
    + destruct Hget as (g & Hg & Hkey & ->).
      assert (Hseen : existsb (fun s => jsstring_eqb s (first_part f))
                        (map first_part done) = true).
      { apply existsb_exists. exists (first_part g).
        split; [apply in_map; exact Hg|apply jsstring_eqb_eq; exact Hkey]. }
      rewrite Hseen.
      rewrite (@place_existing (mkBuild (mirror done) (map top_node done)) f
                 (top_node g) E).
      * apply IH; [exact Hdone|]. intros h Hh. apply Hl. right. exact Hh.
      * unfold top_node. cbn [node_children].
        destruct (1 <? length (split_slash (fi_path g))) eqn:Hlen;
          [left; eexists; reflexivity|].
        destruct (fi_type g) eqn:Htype; [|left; eexists; reflexivity].
        right. apply (@nothing_below_a_file f g);
          [apply Hl; left; reflexivity|apply Hdone; exact Hg|exact Htype|].
        rewrite <- Hkey. unfold first_part.
        destruct (split_slash_cons (fi_path g)) as (part & rest & Hsplit & _).
        rewrite Hsplit in Hlen |- *. destruct rest; [reflexivity|discriminate].
    + rewrite Hget.
      rewrite (@place_new (mkBuild (mirror done) (map top_node done)) f E
                 (none_inherited f (Hl f (or_introl eq_refl)))).
      cbn [tree roots]. rewrite map_set_absent
        by (rewrite map_get_has, E; reflexivity).
      replace (mirror done ++ [(first_part f, top_node f)])
        with (mirror (done ++ [f])) by (unfold mirror; rewrite map_app; reflexivity).
      replace (map top_node done ++ [top_node f]) with (map top_node (done ++ [f]))
        by (rewrite map_app; reflexivity).
      replace (map first_part done ++ [first_part f])
        with (map first_part (done ++ [f])) by (rewrite map_app; reflexivity).
      rewrite IH.
      * rewrite <- app_assoc. reflexivity.
      * intros h Hh. apply in_app_or in Hh. destruct Hh as [Hh|[<-|[]]];
          [apply Hdone; exact Hh|apply Hl; left; reflexivity].
      * intros h Hh. apply Hl. right. exact Hh.
Qed.

End Regular.

(** X22: take a list in which no path starts with a name that an object
    inherits and no path goes below a file.  Then the tree that the
    explorer builds has exactly one node for each first part of a path, in
    the sorted order of the first occurrences: a directory with no
    children if that path has further parts or is a directory, and a
    file otherwise. *)
Theorem buildFileTree_top_level (fileList : list FileInfo) :
  (forall f, In f (sort fileList) -> inherited (first_part f) = false) ->
  (forall f g, In f (sort fileList) -> In g (sort fileList) ->
     fi_type g = file -> split_slash (fi_path g) = [first_part f] ->
     split_slash (fi_path f) = [first_part f]) ->
  buildFileTree inherited sort fileList
  = map top_node (firsts [] (sort fileList)).
Proof.
  intros Hinh Hbelow. unfold buildFileTree.
  apply (@fold_regular (sort fileList) Hinh Hbelow (sort fileList) []).
  - intros f [].
  - intros f Hf. exact Hf.
Qed.

End BuildFileTreeFacts.

Lemma buildFileTree_top_level_witness :
  buildFileTree Object_prototype ExplorerFixture.sorted_already
    ExplorerFixture.listing
  = [mkNode (js "index.html") (js "index.html") file None;
     mkNode (js "src") (js "src") directory (Some [])].
Proof.
  apply (@buildFileTree_top_level Object_prototype ExplorerFixture.sorted_already
           ExplorerFixture.listing).
  - intros f [<-|[<-|[<-|[]]]]; reflexivity.
  - intros f g Hf Hg Htype Hsplit.
    destruct Hg as [<-|[<-|[<-|[]]]]; try discriminate Htype;
      destruct Hf as [<-|[<-|[<-|[]]]];
      first [reflexivity | vm_compute in Hsplit; discriminate Hsplit].
Defined.

(** * Properties of the file manager: files and projects *)

Ltac fs_run :=
  unfold handleProjectCreate, handleFileRead, handleFileWrite, handleFileDelete,
    handleFileCreate, report, createProject, readFile, writeFile, deleteFile,
    access, mkdir, write, read, unlink, fs_now, fs_catch, fs_bind, fs_await,
    fs_emit, fs_ret, fs_throw;
  cbn [fs_result fs_world fs_effects app fst snd].

Ltac no_unlink H :=
  unfold never_unlinks in *;
  repeat first [ apply Forall_nil
               | apply Forall_cons; [exact I|]
               | apply Forall_app; split
               | exact H ].

Ltac fs_simpl := cbn [fs_result fs_world fs_effects app fst snd].

Section FileFacts.

Context {World : Type}.
Variable PROJECT_TEMPLATES : StringMap Template.
Variable inherited : jsstring -> bool.
Implicit Types node : NodeRuntime World.
Implicit Types w : World.

(** The entry of a file of a template in the answer of [createProject]. *)
Let created_info node (entry : jsstring * jsstring) : FileInfo :=
  mkFileInfo (fst entry) (path_basename node (fst entry)) file
    (Some (snd entry)) None None None.

(** The calls that put a file of a template in place. *)
Let creation_calls node (projectPath : jsstring) (entry : jsstring * jsstring)
  : list FsEffect :=
  [call_mkdir (path_dirname node (path_join node projectPath (fst entry)));
   call_fs_writeFile (path_join node projectPath (fst entry)) (snd entry)].

Lemma write_template_succeeds node projectPath entries :
  (forall w path, snd (fs_mkdir node w path) = Returned tt) ->
  (forall w path content, snd (fs_writeFile node w path content) = Returned tt) ->
  forall files w,
    exists w',
      write_template node projectPath entries files w
      = mkFsOutcome (Returned (files ++ map (created_info node) entries)) w'
          (flat_map (creation_calls node projectPath) entries).
Proof.
  intros Hmkdir Hwrite.
  induction entries as [|[filePath content] entries IH]; intros files w.
  - exists w. cbn. rewrite app_nil_r. reflexivity.
  - cbn [write_template]. fs_run.
    pose proof (Hmkdir w (path_dirname node (path_join node projectPath filePath)))
      as H1.
    destruct (fs_mkdir node w _) as [w1 r1]. cbn [snd] in H1. subst r1.
    pose proof (Hwrite w1 (path_join node projectPath filePath) content) as H2.
    destruct (fs_writeFile node w1 _ _) as [w2 r2]. cbn [snd] in H2. subst r2.
    destruct (IH (files ++ [created_info node (filePath, content)]) w2)
      as (w' & Heq).
    unfold created_info at 1 in Heq. cbn [fst snd] in Heq. rewrite Heq.
    exists w'. cbn [map flat_map creation_calls fst snd app].
    rewrite <- app_assoc. reflexivity.
Qed.

Lemma write_template_never_unlinks node projectPath entries : forall files w,
  never_unlinks (fs_effects (write_template node projectPath entries files w)).
Proof.
  induction entries as [|[filePath content] entries IH]; intros files w.
  - no_unlink I.
  - cbn [write_template]. fs_run.
    destruct (fs_mkdir node w _) as [w1 [[]|e1]]; [|no_unlink I].
    destruct (fs_writeFile node w1 _ _) as [w2 [[]|e2]]; [|no_unlink I].
    match goal with
    | |- context [write_template node projectPath entries ?f ?w'] =>
        pose proof (IH f w') as H;
        destruct (write_template node projectPath entries f w') as [r w3 l3]
    end.
    cbn [fs_effects] in H |- *. no_unlink H.
Qed.

(** X23: [createProject] makes and writes nothing when the project is
    there already, when the look at its path fails in another way than
    with [ENOENT], or when there is no such template: it throws, after
    the one call of [fs.access], [Project ... already exists], the error
    of the call, or [Template ... not found], and the handler answers
    with that message. *)
Theorem createProject_refuses node projectsPath projectName template w :
  let projectPath := path_join node projectsPath projectName in
  let name := nullish template (js "react-ts") in
  let o := createProject PROJECT_TEMPLATES inherited node projectsPath projectName
             template w in
  let answer := handleProjectCreate PROJECT_TEMPLATES inherited node projectsPath
                  projectName template w in
  let refused error :=
    fs_result o = Raised error
    /\ fs_effects o
       = [call_access projectPath;
          fs_console_error (js "Failed to create project:") error]
    /\ fs_result answer
       = Returned (mkProjectCreated false None None (Some (error_message error))) in
  (snd (fs_access node w projectPath) = Returned tt ->
     refused (new_Error (msg_already_exists projectName)))
  /\ (forall error,
        snd (fs_access node w projectPath) = Raised error ->
        not_ENOENT error = true -> refused error)
  /\ (forall error,
        snd (fs_access node w projectPath) = Raised error ->
        not_ENOENT error = false ->
        template_data PROJECT_TEMPLATES inherited name = no_template ->
        refused (new_Error (msg_template_not_found name))).
Proof.
  cbn zeta. split; [|split].
  - intros Haccess. fs_run.
    destruct (fs_access node w _) as [w1 r]. cbn [snd] in Haccess. subst r.
    fs_simpl. repeat split.
  - intros error Haccess Hcode. fs_run.
    destruct (fs_access node w _) as [w1 r]. cbn [snd] in Haccess. subst r.
    fs_simpl. rewrite Hcode. fs_simpl. repeat split.
  - intros error Haccess Hcode Htemplate. fs_run.
    destruct (fs_access node w _) as [w1 r]. cbn [snd] in Haccess. subst r.
    fs_simpl. rewrite Hcode, Htemplate. fs_simpl. repeat split.
Qed.

(** X24: when there is nothing at the path of the project, the template
    is one of the table, and every [mkdir] and [writeFile] goes through,
    [createProject] makes the directory of the project, then for each
    file of the template, in their order, the directory of the file and
    the file, and last the metadata file; it returns the path and one
    entry for each file of the template. *)
Theorem createProject_succeeds node projectsPath projectName template w error t :
  let projectPath := path_join node projectsPath projectName in
  let name := nullish template (js "react-ts") in
  let o := createProject PROJECT_TEMPLATES inherited node projectsPath projectName
             template w in
  snd (fs_access node w projectPath) = Raised error ->
  not_ENOENT error = false ->
  template_data PROJECT_TEMPLATES inherited name = a_template t ->
  (forall w path, snd (fs_mkdir node w path) = Returned tt) ->
  (forall w path content, snd (fs_writeFile node w path content) = Returned tt) ->
  fs_result o
  = Returned (projectPath,
              map (fun entry =>
                     mkFileInfo (fst entry) (path_basename node (fst entry)) file
                       (Some (snd entry)) None None None) (template_files t))
  /\ exists createdAt updatedAt,
       changes (fs_effects o)
       = call_mkdir projectPath
         :: flat_map (fun entry =>
                        [call_mkdir (path_dirname node
                                       (path_join node projectPath (fst entry)));
                         call_fs_writeFile (path_join node projectPath (fst entry))
                           (snd entry)]) (template_files t)
         ++ [call_fs_writeFile (path_join node projectPath (js ".bolt-config.json"))
               (JSON_stringify node
                  (mkMetadata projectName None (js "1.0.0") projectPath createdAt
                     updatedAt (Some name) None))].
Proof.
  cbn zeta. intros Haccess Hcode Htemplate Hmkdir Hwrite. fs_run.
  destruct (fs_access node w _) as [w1 r]. cbn [snd] in Haccess. subst r.
  fs_simpl. rewrite Hcode, Htemplate. fs_simpl.
  pose proof (Hmkdir w1 (path_join node projectsPath projectName)) as H1.
  destruct (fs_mkdir node w1 _) as [w2 r2]. cbn [snd] in H1. subst r2.
  destruct (Date_now node w2) as [w3 createdAt].
  destruct (Date_now node w3) as [w4 updatedAt].
  destruct (@write_template_succeeds node (path_join node projectsPath projectName)
              (template_files t) Hmkdir Hwrite [] w4) as (w5 & Hloop).
  rewrite Hloop. cbn [app].
  match goal with
  | |- context [fs_writeFile node w5 ?p ?c] =>
      pose proof (Hwrite w5 p c) as H2; destruct (fs_writeFile node w5 p c) as [w6 r6]
  end.
  cbn [snd] in H2. subst r6. cbn [fs_result fs_effects].
  split; [reflexivity|]. exists createdAt, updatedAt.
  cbn [app changes filter]. f_equal.
  rewrite filter_app. cbn [filter app].
  f_equal. apply filter_all. intros x Hx. apply in_flat_map in Hx.
  destruct Hx as (entry & _ & [<-|[<-|[]]]); reflexivity.
Qed.

(** X25: once [createProject] has made the directory of the project it
    never takes it back: whatever fails later, nothing is removed, and
    the directory was made first.  It fails later, with the directory
    made and nothing in it, when the name of the template is a key that
    the table only inherits. *)
Theorem createProject_no_rollback node projectsPath projectName template w error :
  let projectPath := path_join node projectsPath projectName in
  let name := nullish template (js "react-ts") in
  let o := createProject PROJECT_TEMPLATES inherited node projectsPath projectName
             template w in
  snd (fs_access node w projectPath) = Raised error ->
  not_ENOENT error = false ->
  template_data PROJECT_TEMPLATES inherited name <> no_template ->
  snd (fs_mkdir node (fst (fs_access node w projectPath)) projectPath)
  = Returned tt ->
  hd_error (changes (fs_effects o)) = Some (call_mkdir projectPath)
  /\ never_unlinks (fs_effects o)
  /\ (template_data PROJECT_TEMPLATES inherited name = an_inherited_member ->
      fs_result o = Raised entries_of_undefined
      /\ changes (fs_effects o) = [call_mkdir projectPath]).
Proof.
  cbn zeta. intros Haccess Hcode Hsome Hmkdir. fs_run.
  destruct (fs_access node w _) as [w1 r]. cbn [fst snd] in Haccess, Hmkdir.
  subst r. fs_simpl. rewrite Hcode. fs_simpl.
  destruct (template_data PROJECT_TEMPLATES inherited _) as [t| |] eqn:Htemplate.
  - destruct (fs_mkdir node w1 _) as [w2 r2]. cbn [snd] in Hmkdir. subst r2.
    destruct (Date_now node w2) as [w3 createdAt].
    destruct (Date_now node w3) as [w4 updatedAt].
    pose proof (@write_template_never_unlinks node
                  (path_join node projectsPath projectName) (template_files t) [] w4)
      as Hloop.
    destruct (write_template node _ (template_files t) [] w4) as [[files|e] w5 l5];
      cbn [fs_effects] in Hloop.
    + destruct (fs_writeFile node w5 _ _) as [w6 [[]|e6]]; fs_simpl;
        (split; [reflexivity|]); (split; [|discriminate]);
        no_unlink Hloop.
    + fs_simpl. split; [reflexivity|]. split; [|discriminate].
      no_unlink Hloop.
  - destruct (fs_mkdir node w1 _) as [w2 r2]. cbn [snd] in Hmkdir. subst r2.
    destruct (Date_now node w2) as [w3 createdAt].
    destruct (Date_now node w3) as [w4 updatedAt]. fs_simpl.
    split; [reflexivity|]. split; [no_unlink I|].
    intros _. split; reflexivity.
  - contradiction Hsome. reflexivity.
Qed.

(** What a handler makes of a method that returns nothing. *)
Lemma report_outcome label (m : Fs World unit) w :
  report label m w
  = match m w with
    | mkFsOutcome (Returned _) w1 l =>
        mkFsOutcome (Returned (mkOperationResult true None)) w1 l
    | mkFsOutcome (Raised error) w1 l =>
        mkFsOutcome
          (Returned (mkOperationResult false (Some (error_message error)))) w1
          (l ++ [fs_console_error label error])
    end.
Proof.
  unfold report, fs_catch, fs_bind, fs_emit, fs_ret.
  destruct (m w) as [[[]|error] w1 l]; [rewrite app_nil_r|]; reflexivity.
Qed.

(** What [writeFile] comes to, by what [fs.mkdir] and [fs.writeFile]
    answer. *)
Lemma writeFile_outcome node path content w :
  let dir := path_dirname node path in
  let made := fst (fs_mkdir node w dir) in
  let failed error :=
    new_Error (js "Failed to write file: " ++ error_message error) in
  let logged error :=
    fs_console_error (js "Failed to write file " ++ path ++ js ":") error in
  writeFile node path content w
  = match snd (fs_mkdir node w dir) with
    | Raised error =>
        mkFsOutcome (Raised (failed error)) made [call_mkdir dir; logged error]
    | Returned _ =>
        match snd (fs_writeFile node made path content) with
        | Raised error =>
            mkFsOutcome (Raised (failed error))
              (fst (fs_writeFile node made path content))
              [call_mkdir dir; call_fs_writeFile path content; logged error]
        | Returned _ =>
            mkFsOutcome (Returned tt) (fst (fs_writeFile node made path content))
              [call_mkdir dir; call_fs_writeFile path content;
               fs_console_log (js "File written: " ++ path)]
        end
    end.
Proof.
  cbv zeta. fs_run.
  destruct (fs_mkdir node w _) as [w1 [[]|e1]]; fs_simpl; [|reflexivity].
  destruct (fs_writeFile node w1 _ _) as [w2 [[]|e2]]; reflexivity.
Qed.

(** X26: the handlers that write, create and delete a file never throw:
    they answer [success] or the message of the failure, which starts
    with [Failed to write file: ] or [Failed to delete file: ].  A write
    makes the directory of the file, writes the content under the path
    and logs it; when the directory cannot be made the file is not
    written.  A creation does the same with the content it is given; a
    file created without content, or with the empty string, is written
    with the empty string. *)
Theorem file_handlers_report node path content (given : option jsstring) w :
  let dir := path_dirname node path in
  let made := fst (fs_mkdir node w dir) in
  let created := match given with
                 | Some (c :: rest) => c :: rest
                 | _ => []
                 end in
  ((exists answer,
      fs_result (handleFileWrite node path content w) = Returned answer)
   /\ (exists answer,
         fs_result (handleFileCreate node path given w) = Returned answer)
   /\ (exists answer,
         fs_result (handleFileDelete node path w) = Returned answer))
  /\ handleFileCreate node path None w = handleFileCreate node path (Some []) w
  /\ (forall error,
        snd (fs_mkdir node w dir) = Raised error ->
        (fs_result (handleFileWrite node path content w)
         = Returned (mkOperationResult false
                       (Some (js "Failed to write file: " ++ error_message error)))
         /\ changes (fs_effects (handleFileWrite node path content w))
            = [call_mkdir dir])
        /\ fs_result (handleFileCreate node path given w)
           = Returned (mkOperationResult false
                         (Some (js "Failed to write file: " ++ error_message error)))
        /\ changes (fs_effects (handleFileCreate node path given w))
           = [call_mkdir dir])
  /\ (snd (fs_mkdir node w dir) = Returned tt ->
      (forall error,
         snd (fs_writeFile node made path content) = Raised error ->
         fs_result (handleFileWrite node path content w)
         = Returned (mkOperationResult false
                       (Some (js "Failed to write file: " ++ error_message error)))
         /\ changes (fs_effects (handleFileWrite node path content w))
            = [call_mkdir dir; call_fs_writeFile path content])
      /\ (snd (fs_writeFile node made path content) = Returned tt ->
          handleFileWrite node path content w
          = mkFsOutcome (Returned (mkOperationResult true None))
              (fst (fs_writeFile node made path content))
              [call_mkdir dir; call_fs_writeFile path content;
               fs_console_log (js "File written: " ++ path)])
      /\ (forall error,
            snd (fs_writeFile node made path created) = Raised error ->
            handleFileCreate node path given w
            = mkFsOutcome
                (Returned (mkOperationResult false
                             (Some (js "Failed to write file: "
                                    ++ error_message error))))
                (fst (fs_writeFile node made path created))
                [call_mkdir dir; call_fs_writeFile path created;
                 fs_console_error (js "Failed to write file " ++ path ++ js ":")
                   error;
                 fs_console_error (js "File create error:")
                   (new_Error (js "Failed to write file: "
                               ++ error_message error))])
      /\ (snd (fs_writeFile node made path created) = Returned tt ->
          handleFileCreate node path given w
          = mkFsOutcome (Returned (mkOperationResult true None))
              (fst (fs_writeFile node made path created))
              [call_mkdir dir; call_fs_writeFile path created;
               fs_console_log (js "File written: " ++ path)]))
  /\ (forall error,
        snd (fs_unlink node w path) = Raised error ->
        fs_result (handleFileDelete node path w)
        = Returned (mkOperationResult false
                      (Some (js "Failed to delete file: " ++ error_message error))))
  /\ (snd (fs_unlink node w path) = Returned tt ->
      handleFileDelete node path w
      = mkFsOutcome (Returned (mkOperationResult true None))
          (fst (fs_unlink node w path))
          [call_unlink path; fs_console_log (js "File deleted: " ++ path)]).
Proof.
  cbn zeta. unfold handleFileWrite, handleFileCreate, handleFileDelete.
  rewrite !report_outcome, !writeFile_outcome. cbv zeta.
  destruct given as [[|c rest]|]; cbn [or_else truthy].
  all: split; [split; [|split]|split; [reflexivity|split; [|split; [|split]]]].
  all: try (destruct (snd (fs_mkdir node w (path_dirname node path))) as [[]|e1];
            [destruct (snd (fs_writeFile node _ path _)) as [[]|e2]|];
            eexists; reflexivity).
  all: try (fs_run; destruct (fs_unlink node w path) as [w1 [[]|e1]];
            eexists; reflexivity).
  all: try (intros error Hmkdir; rewrite Hmkdir; repeat split).
  all: try (intros Hmkdir; rewrite Hmkdir; split; [|split; [|split]];
            [intros error Hwrite; rewrite Hwrite; split; reflexivity
            |intros Hwrite; rewrite Hwrite; reflexivity
            |intros error Hwrite; rewrite Hwrite; reflexivity
            |intros Hwrite; rewrite Hwrite; reflexivity]).
  all: try (intros error Hunlink; fs_run;
            destruct (fs_unlink node w path) as [w1 r]; cbn [snd] in Hunlink;
            subst r; reflexivity).
  all: intros Hunlink; fs_run;
    destruct (fs_unlink node w path) as [w1 r]; cbn [fst snd] in Hunlink |- *;
    subst r; reflexivity.
Qed.

End FileFacts.

Lemma createProject_refuses_witness :
  fs_result (createProject ProjectFixture.templates Object_prototype
               ProjectFixture.node (js "/projects") (js "demo")
               (Some (js "html-css-js")) ProjectFixture.with_demo)
  = Raised (new_Error (msg_already_exists (js "demo")))
  /\ fs_result (handleProjectCreate ProjectFixture.templates Object_prototype
                  ProjectFixture.node (js "/projects") (js "demo") (Some (js "vue")) [])
     = Returned (mkProjectCreated false None None
                   (Some (msg_template_not_found (js "vue")))).
Proof.
  split.
  - apply (proj1 (@createProject_refuses ProjectFixture.World
                    ProjectFixture.templates Object_prototype ProjectFixture.node
                    (js "/projects") (js "demo") (Some (js "html-css-js"))
                    ProjectFixture.with_demo)).
    reflexivity.
  - apply (proj2 (proj2 (@createProject_refuses ProjectFixture.World
                           ProjectFixture.templates Object_prototype
                           ProjectFixture.node (js "/projects") (js "demo")
                           (Some (js "vue")) [])) ProjectFixture.ENOENT);
      reflexivity.
Defined.

Lemma createProject_succeeds_witness :
  fs_result (createProject ProjectFixture.templates Object_prototype
               ProjectFixture.node (js "/projects") (js "demo")
               (Some (js "html-css-js")) [])
  = Returned (js "/projects/demo",
              [mkFileInfo (js "index.html") (js "index.html") file
                 (Some (js "<!DOCTYPE html>")) None None None;
               mkFileInfo (js "styles.css") (js "styles.css") file
                 (Some (js "* { margin: 0; }")) None None None;
               mkFileInfo (js "script.js") (js "script.js") file
                 (Some (js "console.log('Bolt Llama app loaded');")) None None None]).
Proof.
  refine (proj1 (@createProject_succeeds ProjectFixture.World
                   ProjectFixture.templates Object_prototype ProjectFixture.node
                   (js "/projects") (js "demo") (Some (js "html-css-js")) []
                   ProjectFixture.ENOENT _ eq_refl eq_refl eq_refl _ _));
    intros; reflexivity.
Defined.

Lemma createProject_no_rollback_witness :
  fs_result (createProject ProjectFixture.templates Object_prototype
               ProjectFixture.node (js "/projects") (js "demo")
               (Some (js "constructor")) [])
  = Raised entries_of_undefined
  /\ changes (fs_effects (createProject ProjectFixture.templates Object_prototype
                            ProjectFixture.node (js "/projects") (js "demo")
                            (Some (js "constructor")) []))
     = [call_mkdir (js "/projects/demo")].
Proof.
  refine (proj2 (proj2 (@createProject_no_rollback ProjectFixture.World
                          ProjectFixture.templates Object_prototype
                          ProjectFixture.node (js "/projects") (js "demo")
                          (Some (js "constructor")) [] ProjectFixture.ENOENT
                          eq_refl eq_refl _ eq_refl)) eq_refl).
  intros H. vm_compute in H. discriminate H.
Defined.

Lemma file_handlers_report_witness :
  fs_result (handleFileWrite ProjectFixture.read_only (js "/projects/demo/a.ts")
               (js "let a;") [])
  = Returned (mkOperationResult false
                (Some (js "Failed to write file: EACCES: permission denied")))
  /\ changes (fs_effects (handleFileWrite ProjectFixture.read_only
                            (js "/projects/demo/a.ts") (js "let a;") []))
     = [call_mkdir (js "/projects/demo")]
  /\ fs_result (handleFileDelete ProjectFixture.node (js "/projects/demo/a.ts") [])
     = Returned (mkOperationResult false
                   (Some (js "Failed to delete file: ENOENT: no such file or directory")))
  /\ handleFileCreate ProjectFixture.node (js "/projects/demo/a.ts") None []
     = mkFsOutcome (Returned (mkOperationResult true None))
         [js "/projects/demo/a.ts"; js "/projects/demo"]
         [call_mkdir (js "/projects/demo");
          call_fs_writeFile (js "/projects/demo/a.ts") [];
          fs_console_log (js "File written: /projects/demo/a.ts")]
  /\ handleFileWrite ProjectFixture.node (js "/projects/demo/a.ts") (js "let a;") []
     = mkFsOutcome (Returned (mkOperationResult true None))
         [js "/projects/demo/a.ts"; js "/projects/demo"]
         [call_mkdir (js "/projects/demo");
          call_fs_writeFile (js "/projects/demo/a.ts") (js "let a;");
          fs_console_log (js "File written: /projects/demo/a.ts")].
Proof.
  destruct (@file_handlers_report ProjectFixture.World ProjectFixture.read_only
              (js "/projects/demo/a.ts") (js "let a;") None [])
    as (_ & _ & Hwrite & _).
  destruct (@file_handlers_report ProjectFixture.World ProjectFixture.node
              (js "/projects/demo/a.ts") (js "let a;") None [])
    as (_ & _ & _ & Hmade & Hdelete & _).
  destruct (Hwrite ProjectFixture.EACCES eq_refl) as [[Hresult Hchanges] _].
  destruct (Hmade eq_refl) as (_ & Hwritten & _ & Hcreated).
  split; [exact Hresult|]. split; [exact Hchanges|].
  split; [exact (Hdelete ProjectFixture.ENOENT eq_refl)|].
  split; [exact (Hcreated eq_refl)|exact (Hwritten eq_refl)].
Defined.

(** * Properties of the project store and of the explorer *)

Section StringMapDelete.

Context {V : Type}.
Implicit Types m : StringMap V.

Lemma map_get_deleted k p m :
  map_get k (map_delete p m) = if jsstring_eqb p k then None else map_get k m.
Proof.
  unfold map_get, map_delete. induction m as [|[q v] m IH]; cbn.
  - destruct (jsstring_eqb p k); reflexivity.
  - destruct (jsstring_eqb q p) eqn:Eq; cbn.
    + apply jsstring_eqb_eq in Eq. subst q. rewrite IH.
      destruct (jsstring_eqb p k); reflexivity.
    + destruct (jsstring_eqb q k) eqn:Ek; [|exact IH].
      destruct (jsstring_eqb p k) eqn:Ep; [|reflexivity].
      apply jsstring_eqb_eq in Ek, Ep. subst. rewrite jsstring_eqb_refl in Eq.
      discriminate.
Qed.

Lemma map_delete_set k v m :
  map_get k m = None -> map_delete k (map_set k v m) = m.
Proof.
  intros Hget.
  assert (Hhas : map_has k m = false) by (rewrite map_get_has, Hget; reflexivity).
  rewrite map_set_absent by exact Hhas. unfold map_delete.
  rewrite filter_app. cbn. rewrite jsstring_eqb_refl. cbn. rewrite app_nil_r.
  apply map_delete_absent. exact (@map_has_false _ k m Hhas).
Qed.

End StringMapDelete.

(** X27: the files of the project store behave as a map from paths to
    contents: a file added or updated is the one found under its path,
    a file deleted is found no more, and the files under other paths
    stay as they are.  [updateFile] is [addFile], so that updating a
    path that the project does not have adds it; deleting a file just
    added under a new path gives the files back as they were.  Each of
    the three marks the project dirty, [deleteFile] also when there was
    nothing to delete. *)
Theorem project_files_map (path other content : jsstring)
    (st : ProjectStore.ProjectState) :
  ProjectStore.getFile path (ProjectStore.addFile path content st) = Some content
  /\ ProjectStore.getFile path (ProjectStore.deleteFile path st) = None
  /\ ProjectStore.updateFile path content st = ProjectStore.addFile path content st
  /\ (other <> path ->
      ProjectStore.getFile other (ProjectStore.addFile path content st)
      = ProjectStore.getFile other st
      /\ ProjectStore.getFile other (ProjectStore.deleteFile path st)
         = ProjectStore.getFile other st)
  /\ (ProjectStore.getFile path st = None ->
      ProjectStore.files
        (ProjectStore.deleteFile path (ProjectStore.addFile path content st))
      = ProjectStore.files st
      /\ ProjectStore.files (ProjectStore.deleteFile path st) = ProjectStore.files st
      /\ ProjectStore.isDirty (ProjectStore.deleteFile path st) = true).
Proof.
  unfold ProjectStore.getFile, ProjectStore.addFile, ProjectStore.deleteFile,
    ProjectStore.updateFile, ProjectStore.set_files_dirty.
  cbn [ProjectStore.files ProjectStore.isDirty].
  split; [rewrite map_get_set, jsstring_eqb_refl; reflexivity|].
  split; [rewrite map_get_deleted, jsstring_eqb_refl; reflexivity|].
  split; [reflexivity|]. split.
  - intros Hother.
    rewrite map_get_set, map_get_deleted, jsstring_eqb_neq by congruence.
    split; reflexivity.
  - intros Hnone. split; [apply map_delete_set; exact Hnone|].
    split; [|reflexivity]. apply map_delete_absent.
    apply map_has_false. rewrite map_get_has, Hnone. reflexivity.
Qed.

Section ExplorerFacts.

Context {World : Type}.
Variable inherited : jsstring -> bool.
Variable sort : list FileInfo -> list FileInfo.
Variable join : jsstring -> jsstring -> jsstring.
Implicit Types node : NodeRuntime World.

(** The delete handler of the main process never throws. *)
Lemma handleFileDelete_returns node path w :
  exists answer, fs_result (handleFileDelete node path w) = Returned answer.
Proof.
  fs_run. destruct (fs_unlink node w path) as [w1 [[]|error]];
    eexists; reflexivity.
Qed.

(** X28: when the user confirms, the explorer takes the file out of the
    project store and marks the project dirty whether or not the file
    could be deleted on disk: the handler of the main process reports a
    failure in its answer, which the explorer does not read.  If the
    files can then be listed the tree is rebuilt and no error is shown.
    When the user declines nothing is called and nothing changes. *)
Theorem handleDeleteFile_ignores_failure node readdir path store w :
  let target := ProjectStore.projectPath store ++ js "/" ++ path in
  let o := handleDeleteFile inherited sort join node true readdir path store w in
  ex_store o = ProjectStore.deleteFile path store
  /\ ProjectStore.getFile path (ex_store o) = None
  /\ ProjectStore.isDirty (ex_store o) = true
  /\ (forall error fileList,
        snd (fs_unlink node w target) = Raised error ->
        fst (handleFileList join (ProjectStore.projectPath store) (Some true) readdir)
        = Ok fileList ->
        ex_fileTree o = Some (buildFileTree inherited sort fileList)
        /\ ex_effects o
           = [window_confirm (js "Delete " ++ path ++ js "?");
              in_main (call_unlink target);
              in_main (fs_console_error
                         (js "Failed to delete file " ++ target ++ js ":") error);
              in_main (fs_console_error (js "File delete error:")
                         (new_Error (js "Failed to delete file: "
                                     ++ error_message error)))])
  /\ handleDeleteFile inherited sort join node false readdir path store w
     = mkExplorerOutcome store None w [window_confirm (js "Delete " ++ path ++ js "?")].
Proof.
  cbn zeta. unfold handleDeleteFile. cbn [negb].
  destruct (handleFileDelete_returns node
              (ProjectStore.projectPath store ++ js "/" ++ path) w)
    as [answer Hanswer].
  rewrite Hanswer.
  split; [|split; [|split; [|split]]].
  - destruct (fst (handleFileList _ _ _ _)); reflexivity.
  - destruct (fst (handleFileList _ _ _ _)); cbn [ex_store];
      unfold ProjectStore.getFile, ProjectStore.deleteFile,
        ProjectStore.set_files_dirty; cbn [ProjectStore.files];
      rewrite map_get_deleted, jsstring_eqb_refl; reflexivity.
  - destruct (fst (handleFileList _ _ _ _)); reflexivity.
  - intros error fileList Hunlink Hlist. rewrite Hlist.
    cbn [ex_fileTree ex_effects]. split; [reflexivity|].
    assert (Hquiet : snd (handleFileList join (ProjectStore.projectPath store)
                            (Some true) readdir) = []).
    { revert Hlist. unfold handleFileList, listFiles.
      destruct (processDir join (nullish (Some true) false) [] readdir []);
        cbn; [reflexivity|discriminate]. }
    rewrite Hquiet. cbn [map]. rewrite app_nil_r. f_equal.
    clear Hanswer. fs_run.
    destruct (fs_unlink node w _) as [w1 r]. cbn [snd] in Hunlink. subst r.
    reflexivity.
  - reflexivity.
Qed.

End ExplorerFacts.

Lemma project_files_map_witness :
  ProjectStore.getFile (js "src/main.ts")
    (ProjectStore.addFile (js "index.html") (js "<html/>") ProjectStoreFixture.project)
  = Some (js "let a;")
  /\ ProjectStore.files
       (ProjectStore.deleteFile (js "index.html")
          (ProjectStore.addFile (js "index.html") (js "<html/>")
             ProjectStoreFixture.project))
     = ProjectStore.files ProjectStoreFixture.project.
Proof.
  destruct (@project_files_map (js "index.html") (js "src/main.ts") (js "<html/>")
              ProjectStoreFixture.project) as (_ & _ & _ & Hother & Hnew).
  split.
  - refine (eq_trans (proj1 (Hother _)) eq_refl).
    intros H. vm_compute in H. discriminate H.
  - exact (proj1 (Hnew eq_refl)).
Defined.

Lemma handleDeleteFile_ignores_failure_witness :
  ProjectStore.getFile (js "src/main.ts")
    (ex_store (handleDeleteFile Object_prototype ExplorerFixture.sorted_already
                 TreeFixture.join ProjectFixture.read_only true
                 (Ok [TreeFixture.index_html]) (js "src/main.ts") ProjectStoreFixture.project []))
  = None
  /\ ex_effects (handleDeleteFile Object_prototype ExplorerFixture.sorted_already
                   TreeFixture.join ProjectFixture.read_only true
                   (Ok [TreeFixture.index_html]) (js "src/main.ts") ProjectStoreFixture.project [])
     = [window_confirm (js "Delete src/main.ts?");
        in_main (call_unlink (js "/projects/demo/src/main.ts"));
        in_main (fs_console_error
                   (js "Failed to delete file /projects/demo/src/main.ts:")
                   ProjectFixture.EACCES);
        in_main (fs_console_error (js "File delete error:")
                   (new_Error (js "Failed to delete file: EACCES: permission denied")))].
Proof.
  destruct (@handleDeleteFile_ignores_failure ProjectFixture.World Object_prototype
              ExplorerFixture.sorted_already TreeFixture.join
              ProjectFixture.read_only (Ok [TreeFixture.index_html]) (js "src/main.ts")
              ProjectStoreFixture.project []) as (_ & Hgone & _ & Hquiet & _).
  split; [exact Hgone|].
  exact (proj2 (Hquiet ProjectFixture.EACCES _ eq_refl eq_refl)).
Defined.

(** * Properties of the chat interface *)

Section ChatInterfaceFacts.

Context {Llama LlamaModel LlamaContext LlamaChatSession : Type}.
Implicit Types rt : Runtime Llama LlamaModel LlamaContext LlamaChatSession.
Implicit Types e : LLMEngine LlamaModel LlamaContext LlamaChatSession.

(** With model, context and session in place the generate handler
    returns what [generate] returns. *)
Lemma handleLLMGenerate_loaded rt b t0 t1 request e :
  isModelLoaded e = true ->
  result (handleLLMGenerate rt b t0 t1 request e)
  = result (generate rt b t0 t1 request e).
Proof.
  intros Hloaded. unfold handleLLMGenerate, try_catch, bind at 1, gets.
  rewrite Hloaded.
  destruct (generate rt b t0 t1 request e) as [[r|err] e1 l1]; reflexivity.
Qed.

(** X29: a prompt submitted in the chat interface, while nothing is
    loading, reaches the session of a loaded engine behind the default
    system prompt, with temperature 0.7 and 2048 tokens whatever the
    configuration of the engine says, and without the context of the
    project.  When the session answers, the chat shows the prompt and
    then, as the message of the assistant, the code of the answer: the
    inside of its first fenced block if it has one.  This is so whether
    or not the generation was cancelled in the meantime. *)
Theorem handleSubmit_shows_code rt b t0 t1 d1 d2 d3 d4 project ui store e s s' text :
  ChatInterface.blank (ChatInterface.input ui) = false ->
  ChatStore.isLoading store = false ->
  isModelLoaded e = true ->
  session e = Some s ->
  isLoading e = false ->
  prompt rt s
    (SYSTEM_PROMPTS.codeGeneration ++ [LF; LF] ++ js "User: "
     ++ ChatInterface.input ui)
    (mkOptions (Some (7 # 10)) (2048 # 1) (cfg_topP (config e)) (cfg_topK (config e)))
  = (s', Ok text) ->
  let o := ChatInterface.handleSubmit
             (fun request => result (handleLLMGenerate rt b t0 t1 request e))
             d1 d2 d3 d4 project ui store in
  let shown := match codeMatch text with Some inner => inner | None => text end in
  ChatStore.messages (ChatInterface.sub_store o)
  = ChatStore.messages store
    ++ [ChatStore.mkMessage (ChatInterface.message_id d1) ChatStore.user
          (ChatInterface.input ui) (inject_Z d2) None None;
        ChatStore.mkMessage (ChatInterface.message_id (d3 + 1)) ChatStore.assistant
          shown (inject_Z d4)
          (Some (inject_Z (Z.of_nat (ceil_div4 (length text)))))
          (Some (inject_Z (t1 - t0)))]
  /\ ChatStore.isLoading (ChatInterface.sub_store o) = false
  /\ ChatStore.error (ChatInterface.sub_store o) = None
  /\ ChatInterface.input (ChatInterface.sub_ui o) = [].
Proof.
  intros Hblank Hidle Hloaded Hs Hl Hprompt o shown. subst o.
  unfold ChatInterface.handleSubmit. rewrite Hblank, Hidle. cbn [orb].
  rewrite (@handleLLMGenerate_loaded rt b t0 t1 _ e Hloaded).
  rewrite (@generate_result _ _ _ _ rt b t0 t1
             (ChatInterface.request_of project ui) e s s' text Hs Hl Hprompt).
  cbn [ChatInterface.sub_store ChatInterface.sub_ui ChatInterface.input].
  unfold ChatStore.setLoading, ChatStore.setError, ChatStore.addMessage,
    ChatStore.set_messages.
  cbn [ChatStore.messages ChatStore.isLoading ChatStore.error
       ChatStore.currentModel].
  rewrite <- app_assoc. repeat split.
Qed.

End ChatInterfaceFacts.

Lemma handleSubmit_shows_code_witness :
  ChatStore.messages
    (ChatInterface.sub_store
       (ChatInterface.handleSubmit
          (fun request =>
             result (handleLLMGenerate (Fixture.rt_ok Fixture.fenced) true 0 40
                       request Fixture.loaded))
          1700000000000 1700000000001 1700000000050 1700000000051
          ProjectStoreFixture.project ChatFixture.asking ChatStore.initialState))
  = [ChatStore.mkMessage (js "msg-1700000000000") ChatStore.user (js "a counter")
       (inject_Z 1700000000001) None None;
     ChatStore.mkMessage (js "msg-1700000000051") ChatStore.assistant
       (js "let x = 1;") (inject_Z 1700000000051) (Some (inject_Z 5))
       (Some (inject_Z 40))].
Proof.
  exact (proj1 (@handleSubmit_shows_code unit jsstring jsstring (list jsstring)
                  (Fixture.rt_ok Fixture.fenced) true 0%Z 40%Z
                  1700000000000%Z 1700000000001%Z 1700000000050%Z 1700000000051%Z
                  ProjectStoreFixture.project ChatFixture.asking
                  ChatStore.initialState Fixture.loaded [] _ Fixture.fenced
                  eq_refl eq_refl eq_refl eq_refl eq_refl eq_refl)).
Defined.
(** * Properties of the list of projects *)

Section ProjectsFacts.

Context {World Json : Type}.
Variable fs_readdir : World -> jsstring -> World * Try (list Dirent).
Variable JSON_parse : jsstring -> Try Json.
Implicit Types node : NodeRuntime World.

Lemma files_read_app (l1 l2 : list FsEffect) :
  files_read (l1 ++ l2) = files_read l1 ++ files_read l2.
Proof. unfold files_read. apply flat_map_app. Qed.

Lemma warnings_app (l1 l2 : list FsEffect) :
  warnings (l1 ++ l2) = warnings l1 + warnings l2.
Proof. unfold warnings. rewrite filter_app, length_app. reflexivity. Qed.

(** One project: its metadata file is read; the project is added, or a
    warning is given. *)
Lemma load_projects_returns node projectsPath entries : forall projects w,
  exists loaded w' l,
    load_projects JSON_parse node projectsPath entries projects w
    = mkFsOutcome (Returned (projects ++ loaded)) w' l
    /\ files_read l
       = map (fun entry =>
                path_join node (path_join node projectsPath (dirent_name entry))
                  (js ".bolt-config.json")) (filter is_project entries)
    /\ length loaded + warnings l = length (filter is_project entries).
Proof.
  induction entries as [|entry rest IH]; intros projects w.
  - exists [], w, []. cbn. rewrite app_nil_r. repeat split.
  - cbn [load_projects filter]. destruct (is_project entry).
    + unfold fs_bind at 1.
      set (metadataPath := path_join node
                             (path_join node projectsPath (dirent_name entry))
                             (js ".bolt-config.json")).
      assert (Hone : exists added w1 l1,
                fs_catch
                  (fs_bind (getProjectMetadata JSON_parse node
                              (path_join node projectsPath (dirent_name entry)))
                     (fun metadata => fs_ret (projects ++ [metadata])))
                  (fun error =>
                     fs_bind (fs_emit (fs_console_warn
                                         (js "Failed to load project metadata for "
                                          ++ dirent_name entry ++ js ":") error))
                       (fun _ => fs_ret projects)) w
                = mkFsOutcome (Returned (projects ++ added)) w1 l1
                /\ files_read l1 = [metadataPath]
                /\ length added + warnings l1 = 1).
      { unfold getProjectMetadata. fold metadataPath. fs_run.
        destruct (fs_readFile node w metadataPath) as [w1 [content|error]].
        - destruct (JSON_parse content) as [metadata|error].
          + exists [metadata], w1. eexists. repeat split.
          + exists [], w1. eexists. rewrite (app_nil_r projects). repeat split.
        - exists [], w1. eexists. rewrite (app_nil_r projects). repeat split. }
      destruct Hone as (added & w1 & l1 & -> & Hread1 & Hcount1).
      destruct (IH (projects ++ added) w1) as (loaded & w' & l & -> & Hread & Hcount).
      exists (added ++ loaded), w', (l1 ++ l).
      rewrite app_assoc, files_read_app, warnings_app, length_app, Hread1, Hread.
      cbn [map length app]. repeat split. lia.
    + apply IH.
Qed.

(** What [listProjects] comes to, by what [fs.readdir] answers. *)
Lemma listProjects_outcome node projectsPath w :
  match snd (fs_readdir w projectsPath) with
  | Returned entries =>
      exists projects w' l,
        listProjects fs_readdir JSON_parse node projectsPath w
        = mkFsOutcome (Returned projects) w' (call_readdir projectsPath :: l)
        /\ files_read l
           = map (fun entry =>
                    path_join node (path_join node projectsPath (dirent_name entry))
                      (js ".bolt-config.json")) (filter is_project entries)
        /\ length projects + warnings l = length (filter is_project entries)
  | Raised error =>
      listProjects fs_readdir JSON_parse node projectsPath w
      = mkFsOutcome (Raised error) (fst (fs_readdir w projectsPath))
          [call_readdir projectsPath;
           fs_console_error (js "Failed to list projects:") error]
  end.
Proof.
  unfold listProjects.
  set (loop := fun entries => load_projects JSON_parse node projectsPath entries []).
  fs_run.
  destruct (fs_readdir w projectsPath) as [w1 [entries|error]]; cbn [fst snd].
  - subst loop. cbn beta.
    destruct (@load_projects_returns node projectsPath entries [] w1)
      as (loaded & w' & l & -> & Hread & Hcount).
    exists loaded, w', l. repeat split; assumption.
  - reflexivity.
Qed.

(** X30: one broken project does not break the list of projects.
    [listProjects] throws only when the directory of the projects cannot
    be read, and then it throws that error on; otherwise it reads the
    metadata file of each directory whose name has no leading dot, in
    order, and of nothing else, and each of them gives either a project
    of the list or a warning.  The handler never throws: it answers an
    empty list where [listProjects] throws. *)
Theorem listProjects_skips_broken node projectsPath w :
  let o := listProjects fs_readdir JSON_parse node projectsPath w in
  let answer := handleProjectList fs_readdir JSON_parse node projectsPath w in
  match snd (fs_readdir w projectsPath) with
  | Returned entries =>
      exists projects,
        fs_result o = Returned projects
        /\ fs_result answer = Returned projects
        /\ files_read (fs_effects o)
           = map (fun entry =>
                    path_join node (path_join node projectsPath (dirent_name entry))
                      (js ".bolt-config.json")) (filter is_project entries)
        /\ length projects + warnings (fs_effects o)
           = length (filter is_project entries)
  | Raised error =>
      fs_result o = Raised error
      /\ files_read (fs_effects o) = []
      /\ fs_result answer = Returned []
  end.
Proof.
  cbn zeta. unfold handleProjectList, fs_catch.
  pose proof (listProjects_outcome node projectsPath w) as H.
  destruct (snd (fs_readdir w projectsPath)) as [entries|error].
  - destruct H as (projects & w' & l & -> & Hread & Hcount).
    exists projects. cbn [fs_result fs_effects].
    split; [reflexivity|]. split; [reflexivity|]. split; assumption.
  - rewrite H. fs_run. repeat split.
Qed.

End ProjectsFacts.
